(** * github-md: a stale-while-revalidate markdown worker

    Shallow embedding of [src/index.ts]: the request handler
    [handleFetch], the two cache-backed operations [renderMarkdown] and
    [renderFiles], the key-value helpers [readFromCache] / [writeToCache],
    the two producers [createNewCacheEntry] / [createNewFilesCacheEntry],
    the transform [parseMarkdown] and [shouldSkipCache].

    Conventions of the embedding.
    - Time is an integer number of milliseconds ([Date.now()]).
    - A response body is kept as the value that [JSON.stringify] was
      applied to; [Response.json()] gives that value back.
    - [ctx.waitUntil p] records a task; the tasks are run after the
      response has been produced, and their effects land then.
    - The libraries the worker imports (front-matter, node-emoji, marked,
      the HTML reader of sanitize-html, the Demo component) are not part
      of the repository; they are parameters of the embedding. *)

From Stdlib Require Import ZArith List Ascii String Bool Lia.
From Stdlib Require Import DecimalString DecimalPos DecimalZ.
From stdpp Require Import base gmap strings list.
Import ListNotations.

Local Open Scope Z_scope.

(* ================================================================== *)
(** * JavaScript primitives used by the worker *)
(* ================================================================== *)

Module Js.

(** [String.prototype.toLowerCase], on the ASCII letters. Bytes outside
    [A-Z] are left as they are. *)
Definition lower_ascii (c : ascii) : ascii :=
  let n := nat_of_ascii c in
  if ((65 <=? n)%nat && (n <=? 90)%nat)%bool then ascii_of_nat (n + 32) else c.

Fixpoint toLowerCase (s : string) : string :=
  match s with
  | EmptyString => EmptyString
  | String c s' => String (lower_ascii c) (toLowerCase s')
  end.

(** [s.startsWith(p)] *)
Definition startsWith (p s : string) : bool := String.prefix p s.

(** [s.includes(p)] *)
Fixpoint includes (p s : string) : bool :=
  if String.prefix p s then true
  else match s with
       | EmptyString => false
       | String _ s' => includes p s'
       end.

(** [s.endsWith(p)] *)
Definition endsWith (p s : string) : bool :=
  let n := String.length s in
  let m := String.length p in
  if (m <=? n)%nat then String.eqb (substring (n - m) m s) p else false.

(** [s.slice(n)] for [0 <= n]. *)
Fixpoint slice (n : nat) (s : string) : string :=
  match n, s with
  | O, _ => s
  | S n', String _ s' => slice n' s'
  | S _, EmptyString => EmptyString
  end.

(** [s.split(sep)] for a one-character separator: [go] carries the
    piece being read, reversed. *)
Fixpoint split_go (sep : ascii) (cur : string) (s : string) : list string :=
  match s with
  | EmptyString => [String.rev cur]
  | String c s' =>
      if Ascii.eqb c sep then String.rev cur :: split_go sep EmptyString s'
      else split_go sep (String c cur) s'
  end.

Definition split (sep : ascii) (s : string) : list string :=
  split_go sep EmptyString s.

(** [xs.join(sep)] *)
Fixpoint join (sep : string) (xs : list string) : string :=
  match xs with
  | [] => EmptyString
  | [x] => x
  | x :: rest => x +:+ sep +:+ join sep rest
  end.

(** A JavaScript number, as far as the worker needs it: an integer
    (timestamps are whole milliseconds) or [NaN]. *)
Inductive number : Type :=
| NaN
| Num (z : Z).

(** [a < b] on numbers: any comparison with [NaN] is false. *)
Definition lt (a b : number) : bool :=
  match a, b with
  | Num x, Num y => x <? y
  | _, _ => false
  end.

(** [n.toFixed(0)] of an integer: its decimal digits, with a leading
    minus sign when negative. *)
Definition toFixed0 (z : Z) : string :=
  NilZero.string_of_int (Z.to_int z).

(** [Number(s)] on a string, for the strings that can stand in a
    [Stale-At] header this worker wrote, and for those that are no
    number at all: the decimal integer literals (what [toFixed(0)]
    writes) and the empty string, which JavaScript converts to [0],
    and the texts that have a character no numeric literal has, which
    are [NaN]. JavaScript also reads blanks around the literal, a
    leading plus, fractions, exponents, [Infinity] and hexadecimal,
    octal and binary literals; a header of that kind is not what
    [writeToCache] writes, and the facts below that are about foreign
    headers say which headers they are about. *)
Definition Number (s : string) : number :=
  match s with
  | EmptyString => Num 0
  | _ => match NilZero.int_of_string s with
         | Some d => Num (Z.of_int d)
         | None => NaN
         end
  end.

End Js.

(* ================================================================== *)
(** * Data model (the types declared in index.ts) *)
(* ================================================================== *)

(** [attributes: unknown]: the front matter, an arbitrary JSON value. *)
#[warnings="-register-all"]
Inductive json : Type :=
| JNull
| JBool (b : bool)
| JNumber (z : Z)
| JString (s : string)
| JArray (xs : list json)
| JObject (fields : list (string * json)).

(** [type ApiData = { attributes: unknown; html: string }] *)
Record ApiData : Type := mkApiData {
  attributes : json;
  html : string;
}.

(** [type ApiError = { error: string }] *)
Record ApiError : Type := mkApiError {
  error : string;
}.

(** [type CachedFile = { path: string; sha: string }] *)
Record CachedFile : Type := mkCachedFile {
  path : string;
  sha : string;
}.

(** [type CachedFiles = { sha: string; files: CachedFile[] }] *)
Record CachedFiles : Type := mkCachedFiles {
  files_sha : string;
  files : list CachedFile;
}.

(** An entry of the upstream tree listing:
    [{ path: string; type: "blob" | "tree"; sha: string }]. The type tag
    is kept as the string the code compares with ["blob"]. *)
Record TreeItem : Type := mkTreeItem {
  item_path : string;
  item_type : string;
  item_sha : string;
}.

(** The body of the tree endpoint: [{ sha: string; tree: TreeItem[] }]. *)
Record TreeContent : Type := mkTreeContent {
  content_sha : string;
  content_tree : list TreeItem;
}.

(* ================================================================== *)
(** * The file-listing filter of createNewFilesCacheEntry *)
(* ================================================================== *)

Module Listing.

(** The test of the reducer:
    [item.type === "blob" && item.path.toLocaleLowerCase().endsWith(".md")] *)
Definition is_markdown_blob (item : TreeItem) : bool :=
  String.eqb (item_type item) "blob"
  && Js.endsWith ".md" (Js.toLowerCase (item_path item)).

(** The reducer passed to [content.tree.reduce]: pushes
    [{ path, sha }] at the end of the accumulator when the test holds. *)
Definition reducer (acc : list CachedFile) (item : TreeItem) : list CachedFile :=
  if is_markdown_blob item
  then acc ++ [mkCachedFile (item_path item) (item_sha item)]
  else acc.

(** [content.tree.reduce(reducer, [])] *)
Definition collect (tree : list TreeItem) : list CachedFile :=
  fold_left reducer tree [].

(** What the specification says the listing is: the blobs whose path
    ends in [.md] without regard to letter case, each mapped to
    [{path, sha}], in upstream order. A path ends in [.md] without
    regard to case when it ends with one of the four spellings. *)
Definition ends_in_md_ci (p : string) : bool :=
  existsb (fun spelling => Js.endsWith spelling p) [".md"; ".mD"; ".Md"; ".MD"].

Definition listing_spec (tree : list TreeItem) : list CachedFile :=
  map (fun item => mkCachedFile (item_path item) (item_sha item))
      (List.filter
         (fun item => String.eqb (item_type item) "blob"
                      && ends_in_md_ci (item_path item))
         tree).

End Listing.

(* ================================================================== *)
(** * The sanitizer (package sanitize-html) *)
(* ================================================================== *)

Module Html.

(** The element tree the sanitizer works on: what its reader
    (htmlparser2) delivers for a piece of HTML text. Tag and attribute
    names are as the reader reports them. *)
#[warnings="-register-all"]
Inductive node : Type :=
| Text (s : string)
| Comment (s : string)
| Element (tag : string) (attrs : list (string * string)) (children : list node).

(** The options object passed to [sanitize] (the fields index.ts
    sets). *)
Record Options : Type := mkOptions {
  allowedTags : list string;
  allowedAttributes : list (string * list string);
  selfClosing : list string;
  allowedSchemes : list string;
  allowedSchemesByTag : list (string * list string);
  allowedSchemesAppliedToAttributes : list string;
  allowProtocolRelative : bool;
  enforceHtmlBoundary : bool;
}.

(** [xs.indexOf(x) !== -1] *)
Definition mem (x : string) (xs : list string) : bool :=
  existsb (String.eqb x) xs.

(** [obj[key]] on an object literal used as a table. *)
Fixpoint assoc {A : Type} (key : string) (tbl : list (string * A)) : option A :=
  match tbl with
  | [] => None
  | (k, v) :: rest => if String.eqb k key then Some v else assoc key rest
  end.

(** The tags whose text is dropped with them when they are not
    allowed (the package's [nonTextTags] default; index.ts does not
    override it). *)
Definition nonTextTags : list string :=
  ["script"; "style"; "textarea"; "option"].

(** ** URL schemes *)

(** Characters with code 32 and below are ignored when a scheme is
    read. *)
Fixpoint strip_controls (s : string) : string :=
  match s with
  | EmptyString => EmptyString
  | String c s' =>
      if (nat_of_ascii c <=? 32)%nat then strip_controls s'
      else String c (strip_controls s')
  end.

Definition is_alpha (c : ascii) : bool :=
  let n := nat_of_ascii c in
  ((65 <=? n)%nat && (n <=? 90)%nat) || ((97 <=? n)%nat && (n <=? 122)%nat).

Definition is_digit (c : ascii) : bool :=
  let n := nat_of_ascii c in
  (48 <=? n)%nat && (n <=? 57)%nat.

(** A letter, a digit, a dot, a minus or a plus sign. *)
Definition is_scheme_char (c : ascii) : bool :=
  is_alpha c || is_digit c
  || Ascii.eqb c "." || Ascii.eqb c "-" || Ascii.eqb c "+".

(** The run of scheme characters at the head of [s], provided a colon
    follows it. *)
Fixpoint scheme_run (s : string) : option string :=
  match s with
  | EmptyString => None
  | String c s' =>
      if Ascii.eqb c ":" then Some EmptyString
      else if is_scheme_char c
           then option_map (String c) (scheme_run s')
           else None
  end.

(** The text before the first occurrence of [p] in [s] and the text
    after it: [s.indexOf(p)] with the two [substring]s around it. *)
Fixpoint cut (p s : string) : option (string * string) :=
  if String.prefix p s then Some (EmptyString, Js.slice (String.length p) s)
  else match s with
       | EmptyString => None
       | String c s' =>
           match cut p s' with
           | Some (before, rest) => Some (String c before, rest)
           | None => None
           end
       end.

(** Comments are taken out of the value, the first one first, as long
    as there is a whole one: from [<!--] to the next [-->] after it.
    Each round shortens the value, so that [fuel] rounds are enough
    when [fuel] is its length. *)
Fixpoint strip_comments_go (fuel : nat) (s : string) : string :=
  match fuel with
  | O => s
  | S n =>
      match cut "<!--" s with
      | None => s
      | Some (before, rest) =>
          match cut "-->" rest with
          | None => s
          | Some (_, rest') => strip_comments_go n (before +:+ rest')
          end
      end
  end.

Definition strip_comments (s : string) : string :=
  strip_comments_go (String.length s) s.

(** The value as the scheme is read off it: without its control
    characters and blanks, then without its comments. *)
Definition clean_href (v : string) : string :=
  strip_comments (strip_controls v).

(** The scheme of a URL, in lower case: a letter followed by scheme
    characters up to a colon, at the head of the cleaned value. [None]
    when the value has no scheme. *)
Definition url_scheme (v : string) : option string :=
  match clean_href v with
  | EmptyString => None
  | String c rest =>
      if is_alpha c
      then option_map (fun r => Js.toLowerCase (String c r)) (scheme_run rest)
      else None
  end.

(** The value starts with two characters among [/] and [\]. *)
Definition is_protocol_relative (v : string) : bool :=
  match clean_href v with
  | String a (String b _) =>
      (Ascii.eqb a "/" || Ascii.eqb a "\")
      && (Ascii.eqb b "/" || Ascii.eqb b "\")
  | _ => false
  end.

(** Modelled from the spec: the scheme check of sanitize-html (not
    under src/), the scheme allow-list of section 4.3 applied to the
    URL-bearing attributes. The scheme is read off the value cleaned of
    control characters, blanks and comments, in any letter case, so
    that no spelling of a scheme gets past the list. A value is refused
    when its scheme is not
    on the allow-list of its tag ([allowedSchemesByTag]) or, failing
    that, on [allowedSchemes]. A value without a scheme is accepted,
    unless it is protocol-relative and those are not allowed. *)
Definition naughtyHref (o : Options) (tag v : string) : bool :=
  match url_scheme v with
  | None =>
      if is_protocol_relative v then negb (allowProtocolRelative o) else false
  | Some scheme =>
      match assoc tag (allowedSchemesByTag o) with
      | Some schemes => negb (mem scheme schemes)
      | None => negb (mem scheme (allowedSchemes o))
      end
  end.

(** ** Attributes *)

(** The attribute [a] is on the allow-list of [tag] or on that of
    [*]. *)
Definition attribute_allowed (o : Options) (tag a : string) : bool :=
  match assoc tag (allowedAttributes o) with
  | Some names => mem a names
  | None => false
  end
  || match assoc "*" (allowedAttributes o) with
     | Some names => mem a names
     | None => false
     end.

Definition keep_attribute (o : Options) (tag : string) (av : string * string) : bool :=
  attribute_allowed o tag (fst av)
  && negb (mem (fst av) (allowedSchemesAppliedToAttributes o)
           && naughtyHref o tag (snd av)).

Definition filter_attributes (o : Options) (tag : string)
    (attrs : list (string * string)) : list (string * string) :=
  List.filter (keep_attribute o tag) attrs.

(** ** Tags *)

(** Modelled from the spec: [sanitize] is the package sanitize-html,
    which is not under src/. Section 4.3, step 4: the rendered HTML is
    sanitized against a fixed allow-list of tags and attributes, with a
    scheme allow-list applied to the URL-bearing attributes, and what
    is not allowed is dropped, not escaped and shown. The lists are
    those of the options object of index.ts. Mode [discard]: an element
    whose tag is not allowed is dropped and its sanitized content is
    kept in its place, except for the [nonTextTags], which are dropped
    with their content. Comments are dropped. *)
Fixpoint sanitize_node (o : Options) (n : node) : list node :=
  match n with
  | Text s => [Text s]
  | Comment _ => []
  | Element tag attrs children =>
      if mem tag (allowedTags o)
      then [Element tag (filter_attributes o tag attrs)
                    (flat_map (sanitize_node o) children)]
      else if mem tag nonTextTags then []
      else flat_map (sanitize_node o) children
  end.

Definition sanitize_forest (o : Options) (f : list node) : list node :=
  flat_map (sanitize_node o) f.

(** ** Writing the tree back as text *)

(** [escapeHtml]: [&], [<] and [>] become entities; the double quote
    too inside an attribute value. *)
Fixpoint escapeHtml (quote : bool) (s : string) : string :=
  match s with
  | EmptyString => EmptyString
  | String c s' =>
      (if Ascii.eqb c "&" then "&amp;"
       else if Ascii.eqb c "<" then "&lt;"
       else if Ascii.eqb c ">" then "&gt;"
       else if quote && Ascii.eqb c "034" then "&quot;"
       else String c EmptyString) +:+ escapeHtml quote s'
  end.

Definition quote_mark : string := String "034" EmptyString.

Definition write_attribute (av : string * string) : string :=
  match snd av with
  | EmptyString => " " +:+ fst av
  | v => " " +:+ fst av +:+ "=" +:+ quote_mark +:+ escapeHtml true v +:+ quote_mark
  end.

Fixpoint concat_strings (xs : list string) : string :=
  match xs with
  | [] => EmptyString
  | x :: rest => x +:+ concat_strings rest
  end.

Fixpoint write_node (o : Options) (n : node) : string :=
  match n with
  | Text s => escapeHtml false s
  | Comment _ => EmptyString
  | Element tag attrs children =>
      let inner := concat_strings (map (write_node o) children) in
      let head := "<" +:+ tag +:+ concat_strings (map write_attribute attrs) in
      if mem tag (selfClosing o)
      then head +:+ " />" +:+ inner
      else head +:+ ">" +:+ inner +:+ "</" +:+ tag +:+ ">"
  end.

Definition write_forest (o : Options) (f : list node) : string :=
  concat_strings (map (write_node o) f).

(** ** Reading properties off a tree *)

(** What holds of every element the sanitizer lets through: its tag
    is allowed and each of its attributes passed the filter. *)
Definition kept (o : Options) (tag : string) (attrs : list (string * string)) : bool :=
  mem tag (allowedTags o) && forallb (keep_attribute o tag) attrs.

(** Every element of the forest, at any depth, satisfies [P]. *)
Fixpoint all_elements (P : string -> list (string * string) -> bool)
    (n : node) : bool :=
  match n with
  | Text _ => true
  | Comment _ => true
  | Element tag attrs children =>
      P tag attrs && forallb (all_elements P) children
  end.

Definition forest_all (P : string -> list (string * string) -> bool)
    (f : list node) : bool :=
  forallb (all_elements P) f.

(** The forest has an element named [name] (in any letter case), at
    any depth. *)
Definition has_element (name : string) (f : list node) : bool :=
  negb (forest_all (fun tag _ => negb (String.eqb (Js.toLowerCase tag) name)) f).

(** A URL value as a browser reads it: the control characters and
    blanks at its head are dropped, and so are the tabs and the
    newlines wherever they stand. *)
Fixpoint drop_leading_blanks (s : string) : string :=
  match s with
  | EmptyString => EmptyString
  | String c s' =>
      if (nat_of_ascii c <=? 32)%nat then drop_leading_blanks s' else s
  end.

Fixpoint drop_tabs_and_newlines (s : string) : string :=
  match s with
  | EmptyString => EmptyString
  | String c s' =>
      if Ascii.eqb c "009" || Ascii.eqb c "010" || Ascii.eqb c "013"
      then drop_tabs_and_newlines s'
      else String c (drop_tabs_and_newlines s')
  end.

(** The value is a [javascript:] URL: read as a browser reads it, and
    in any letter case, it starts with [javascript:]. This is the
    reading of the one who follows the link, written without the
    sanitizer's own scheme reader. *)
Definition is_javascript_url (v : string) : bool :=
  String.prefix "javascript:"
                (Js.toLowerCase (drop_tabs_and_newlines (drop_leading_blanks v))).

(** The forest has an element, at any depth, with an attribute [attr]
    (in any letter case) whose value is a [javascript:] URL. *)
Definition has_javascript_link (attr : string) (f : list node) : bool :=
  negb (forest_all
          (fun _ attrs =>
             forallb (fun av =>
                        negb (String.eqb (Js.toLowerCase (fst av)) attr
                              && is_javascript_url (snd av)))
                     attrs)
          f).

(** ** Reading properties off a value *)

(** [w] is at the head of [s], letter case apart. *)
Definition heads (w s : string) : bool := String.prefix w (Js.toLowerCase s).

(** No character of the text is a control character or a blank. *)
Fixpoint visible (s : string) : bool :=
  match s with
  | EmptyString => true
  | String c s' => negb (nat_of_ascii c <=? 32)%nat && visible s'
  end.

Definition is_lower_letter (c : ascii) : bool :=
  ((97 <=? nat_of_ascii c)%nat && (nat_of_ascii c <=? 122)%nat)%bool.

(** The text is made of lower-case letters; of letters. *)
Fixpoint lower_letters (s : string) : bool :=
  match s with
  | EmptyString => true
  | String c s' => is_lower_letter c && lower_letters s'
  end.

Fixpoint letters (s : string) : bool :=
  match s with
  | EmptyString => true
  | String c s' => is_alpha c && letters s'
  end.

(** ** Reading properties off the written text *)

(** The text has no [<] in it. *)
Fixpoint no_lt (s : string) : bool :=
  match s with
  | EmptyString => true
  | String c s' => negb (Ascii.eqb c "<") && no_lt s'
  end.

(** The text starts with a blank or with [>]: what ends a tag name. *)
Definition starts_with_delimiter (s : string) : bool :=
  match s with
  | String c _ => Ascii.eqb c " " || Ascii.eqb c ">"
  | EmptyString => false
  end.

(** The shape of a text in which every [<] opens an allowed tag or a
    closing tag: text without [<]; [<], an allowed tag name, a
    delimiter and more text without [<], up to the inside of the
    element; and [</]. *)
Inductive tag_safe (o : Options) : string -> Prop :=
| safe_empty : tag_safe o EmptyString
| safe_text (a s : string) :
    no_lt a = true -> tag_safe o s -> tag_safe o (a +:+ s)
| safe_open (tag mid s : string) :
    mem tag (allowedTags o) = true ->
    no_lt mid = true ->
    starts_with_delimiter mid = true ->
    tag_safe o s ->
    tag_safe o ("<" +:+ tag +:+ mid +:+ s)
| safe_close (s : string) :
    tag_safe o s -> tag_safe o ("</" +:+ s).

End Html.

(* ================================================================== *)
(** * HTTP values *)
(* ================================================================== *)

(** A [Headers] object: the (name, value) pairs in the order they were
    appended. *)
Definition Headers : Type := list (string * string).

(** [headers.get(name)]: names are compared without regard to letter
    case, and the values of a repeated name are joined by a comma and a
    space. [None] is JavaScript's [null]. *)
Definition headers_get (name : string) (h : Headers) : option string :=
  match List.filter
          (fun kv => String.eqb (Js.toLowerCase (fst kv)) (Js.toLowerCase name)) h
  with
  | [] => None
  | found => Some (Js.join ", " (map snd found))
  end.

(** [headers.has(name)] *)
Definition headers_has (name : string) (h : Headers) : bool :=
  match headers_get name h with
  | Some _ => true
  | None => false
  end.

(** A parsed URL, [new URL(request.url)]: the part before the path, the
    path and the query. *)
Record URL : Type := mkURL {
  origin : string;
  pathname : string;
  search : string;
}.

(** [url.href] *)
Definition href (u : URL) : string :=
  origin u +:+ pathname u +:+ search u.

(** The text without the slashes at its head. *)
Fixpoint skip_slashes (s : string) : string :=
  match s with
  | EmptyString => EmptyString
  | String c s' => if Ascii.eqb c "/" then skip_slashes s' else s
  end.

(** The text up to its first slash, and the text from that slash on. *)
Fixpoint host_and_path (s : string) : string * string :=
  match s with
  | EmptyString => (EmptyString, EmptyString)
  | String c s' =>
      if Ascii.eqb c "/" then (EmptyString, s)
      else let (h, p) := host_and_path s' in (String c h, p)
  end.

(** The scheme of an origin with its colon: [https:] *)
Fixpoint scheme_of (o : string) : string :=
  match o with
  | EmptyString => EmptyString
  | String c s' => if Ascii.eqb c ":" then ":" else String c (scheme_of s')
  end.

(** [new URL(path, base)] for a reference that starts with a slash, as
    every reference the worker resolves does: it is the path of a
    parsed URL or what is left of one after [/_demo], so that it has
    no dot segment, no query and nothing to encode. With one slash at
    its head the reference is a path on the origin of [base]. With two
    slashes it is scheme-relative: the slashes at its head are
    skipped, what follows up to the next slash is the host, taken as
    it is written, and the rest is the path. (A host that the URL
    parser would rewrite or refuse is outside this model.) *)
Definition URL_resolve (path : string) (base : URL) : URL :=
  if String.prefix "//" path
  then let (host, rest) := host_and_path (skip_slashes path) in
       mkURL (scheme_of (origin base) +:+ "//" +:+ host)
             (match rest with
              | EmptyString => "/"
              | _ => rest
              end)
             EmptyString
  else mkURL (origin base) path EmptyString.

(** An inbound [Request]: its URL and its headers. *)
Record Request : Type := mkRequest {
  url : URL;
  req_headers : Headers;
}.

(** The JSON values the worker writes and reads back. They are all
    objects, which JavaScript takes for true: the [if (!data)] that
    follows a cache hit never fires on an entry the worker wrote, and
    an entry holding [null], [0], [false] or an empty text, which only
    another writer could have stored, is not among these values. *)
Inductive Value : Type :=
| VData (d : ApiData)
| VFiles (f : CachedFiles)
| VError (e : ApiError).

(** A response body: [JSON.stringify(v)] for a value [v], or a page of
    text. *)
Inductive Body : Type :=
| Json (v : Value)
| Page (s : string).

(** A [Response]. *)
Record Response : Type := mkResponse {
  status : Z;
  headers : Headers;
  body : Body;
}.

(** What [fetch] resolves to: [response.ok], [response.text()] and
    [response.json()] read as a tree listing ([None] when the body is
    not one, in which case reading it throws). *)
Record FetchResponse : Type := mkFetchResponse {
  ok : bool;
  text : string;
  tree_json : option TreeContent;
}.

(* ================================================================== *)
(** * The host cache, caches.default *)
(* ================================================================== *)

Module Host.

(** Modelled from the spec: [caches.default] belongs to the host, not
    to the repository. Section 3 of the specification gives an entry
    an [expiresAt], an absolute timestamp a fixed time after the
    write, and an entry past it is treated as absent; the worker asks
    for that time with [Cache-Control: max-age=<seconds>] on the
    response it stores. [put] keeps the response under the URL with
    [expiresAt = now + 1000 * max-age]; a response that declares
    [no-cache], [no-store] or [private] is not kept, and neither is a
    response that names no [max-age], with or without a
    [Cache-Control] header: the host has no time to keep it for. *)
Record Stored : Type := mkStored {
  stored : Response;
  expiresAt : option Z;
}.

(** The text after the first occurrence of [p] in [s]. *)
Fixpoint after (p s : string) : option string :=
  if String.prefix p s then Some (Js.slice (String.length p) s)
  else match s with
       | EmptyString => None
       | String _ s' => after p s'
       end.

Fixpoint digits (s : string) : string :=
  match s with
  | String c s' => if Html.is_digit c then String c (digits s') else EmptyString
  | EmptyString => EmptyString
  end.

(** The seconds of the [max-age] directive of a [Cache-Control]
    value. *)
Definition max_age (cc : string) : option Z :=
  match after "max-age=" (Js.toLowerCase cc) with
  | Some rest =>
      option_map Z.of_int (NilZero.int_of_string (digits rest))
  | None => None
  end.

Definition forbids_storing (cc : string) : bool :=
  let v := Js.toLowerCase cc in
  Js.includes "no-cache" v || Js.includes "no-store" v || Js.includes "private" v.

(** [cache.put(url, response)] at time [now]. *)
Definition put (now : Z) (u : string) (r : Response)
    (c : gmap string Stored) : gmap string Stored :=
  match headers_get "Cache-Control" (headers r) with
  | Some cc =>
      if forbids_storing cc then c
      else match max_age cc with
           | Some s => <[u := mkStored r (Some (now + 1000 * s))]> c
           | None => c
           end
  | None => c
  end.

(** The entry is past its [expiresAt]. *)
Definition expired (now : Z) (s : Stored) : bool :=
  match expiresAt s with
  | Some t => t <=? now
  | None => false
  end.

(** [cache.match(url)] at time [now]: an expired entry is absent. *)
Definition lookup (now : Z) (u : string) (c : gmap string Stored) : option Response :=
  match c !! u with
  | Some s => if expired now s then None else Some (stored s)
  | None => None
  end.

End Host.

(* ================================================================== *)
(** * Effects: the clock, upstream, the cache and ctx.waitUntil *)
(* ================================================================== *)

(** What a promise passed to [ctx.waitUntil] will do once it runs. *)
Inductive Task : Type :=
| RegenerateMarkdown (key : string) (u : URL)
    (* createNewCacheEntry(url).then(toCache => toCache && writeToCache(key, toCache)) *)
| RegenerateFiles (key user repo rev : string)
    (* createNewFilesCacheEntry(user, repo, sha).then(toCache => toCache && writeToCache(key, toCache)) *)
| WriteToCache (key : string) (value : Value)
    (* writeToCache(key, data) *)
| PutResponse (u : string) (r : Response).
    (* caches.default.put(request.url, response.clone()) *)

(** What the code reads from its surroundings at one moment: the clock
    and the upstream servers. [upstream u = None] is a [fetch] that
    rejects. *)
Record Env : Type := mkEnv {
  now : Z;
  upstream : string -> option FetchResponse;
}.

(** What the code changes: the host cache, the upstream requests made
    so far (oldest first) and the tasks handed to [ctx.waitUntil]
    (oldest first). *)
Record World : Type := mkWorld {
  cache : gmap string Host.Stored;
  fetched : list string;
  waiting : list Task;
}.

Inductive Result (A : Type) : Type :=
| Ok (a : A)
| Throw.
Arguments Ok {A} a.
Arguments Throw {A}.

(** A computation of the worker: it reads the environment, changes the
    world, and returns a value or throws. *)
Definition M (A : Type) : Type := Env -> World -> Result A * World.

Definition ret {A : Type} (a : A) : M A :=
  fun _ w => (Ok a, w).

Definition bind {A B : Type} (m : M A) (k : A -> M B) : M B :=
  fun e w =>
    match m e w with
    | (Ok a, w') => k a e w'
    | (Throw, w') => (Throw, w')
    end.

Notation "x <- m ;; k" := (bind m (fun x => k))
  (at level 100, m at next level, right associativity).
Notation "m ;;; k" := (bind m (fun _ => k))
  (at level 100, right associativity).

Definition throw {A : Type} : M A :=
  fun _ w => (Throw, w).

(** [try { m } catch (error) { handler }] *)
Definition try_catch {A : Type} (m : M A) (handler : M A) : M A :=
  fun e w =>
    match m e w with
    | (Ok a, w') => (Ok a, w')
    | (Throw, w') => handler e w'
    end.

(** [Date.now()] *)
Definition Date_now : M Z :=
  fun e w => (Ok (now e), w).

(** [await fetch(u, ...)] *)
Definition fetch (u : string) : M FetchResponse :=
  fun e w =>
    let w' := mkWorld (cache w) (fetched w ++ [u]) (waiting w) in
    match upstream e u with
    | Some r => (Ok r, w')
    | None => (Throw, w')
    end.

(** [await caches.default.match(u)] *)
Definition caches_match (u : string) : M (option Response) :=
  fun e w => (Ok (Host.lookup (now e) u (cache w)), w).

(** [await caches.default.put(u, r)] *)
Definition caches_put (u : string) (r : Response) : M unit :=
  fun e w =>
    (Ok tt, mkWorld (Host.put (now e) u r (cache w)) (fetched w) (waiting w)).

(** [ctx.waitUntil(p)]. In the worker the promise [p] is built before
    it is handed over, so that its first call ([fetch],
    [caches.default.put]) is issued before the operation answers; what
    the call stores, and what upstream sends back, lands later. The
    world records an effect where it lands: the task is kept in
    [waiting], and [fetched] and [cache] change when the task runs.
    Statements about the world right after an operation are therefore
    about what has landed by then, not about what has been asked
    for. *)
Definition waitUntil (t : Task) : M unit :=
  fun _ w => (Ok tt, mkWorld (cache w) (fetched w) (waiting w ++ [t])).

(** [await response.json()] *)
Definition response_json (r : Response) : M Value :=
  match body r with
  | Json v => ret v
  | Page _ => throw
  end.

(* ================================================================== *)
(** * index.ts *)
(* ================================================================== *)

(** [let REVALIDATE_AFTER_MS = 5 * 60 * 1000;] *)
Definition REVALIDATE_AFTER_MS : Z := 5 * 60 * 1000.

(** [let STALE_FOR_SECONDS = 2 * 24 * 60 * 60;] *)
Definition STALE_FOR_SECONDS : Z := 2 * 24 * 60 * 60.

(** The options object of the [sanitize] call in [parseMarkdown]. *)
Definition sanitize_options : Html.Options :=
  {| Html.allowedTags :=
       [ "address"; "article"; "aside"; "footer"; "header";
         "h1"; "h2"; "h3"; "h4"; "h5"; "h6"; "hgroup"; "main"; "nav";
         "section"; "blockquote"; "img"; "dd"; "div"; "dl"; "dt";
         "figcaption"; "figure"; "hr"; "li"; "main"; "ol"; "p"; "pre";
         "ul"; "a"; "abbr"; "b"; "bdi"; "bdo"; "br"; "cite"; "code";
         "data"; "dfn"; "em"; "i"; "kbd"; "mark"; "q"; "rb"; "rp"; "rt";
         "rtc"; "ruby"; "s"; "samp"; "small"; "span"; "strong"; "sub";
         "sup"; "time"; "u"; "var"; "wbr"; "caption"; "col"; "colgroup";
         "table"; "tbody"; "td"; "tfoot"; "th"; "thead"; "tr" ];
     Html.allowedAttributes :=
       [ ("*", ["class"; "id"; "style"]);
         ("a", ["href"; "name"; "target"]);
         ("img", ["src"; "srcset"; "alt"; "title"; "width"; "height"; "loading"]) ];
     Html.selfClosing :=
       [ "img"; "br"; "hr"; "area"; "base"; "basefont"; "input"; "link"; "meta" ];
     Html.allowedSchemes := [ "http"; "https"; "ftp"; "mailto"; "tel" ];
     Html.allowedSchemesByTag := [];
     Html.allowedSchemesAppliedToAttributes := [ "href"; "src"; "cite" ];
     Html.allowProtocolRelative := true;
     Html.enforceHtmlBoundary := true |}.

(** The attribute names on some allow-list of [sanitize_options]. *)
Definition listed_attributes : list string :=
  ["class"; "id"; "style"; "href"; "name"; "target";
   "src"; "srcset"; "alt"; "title"; "width"; "height"; "loading"].

(** The attribute names an [img] may keep: its own list and the list
    of [*]. *)
Definition img_attributes : list string :=
  ["src"; "srcset"; "alt"; "title"; "width"; "height"; "loading";
   "class"; "id"; "style"].

(** Every [img] of the tree carries attributes of [img_attributes]
    only. *)
Definition img_well_formed (tag : string) (attrs : list (string * string)) : bool :=
  negb (String.eqb tag "img")
  || forallb (fun av => Html.mem (fst av) img_attributes) attrs.

(** [function shouldSkipCache(request: Request): boolean] *)
Definition shouldSkipCache (request : Request) : bool :=
  let has_no_cache (name : string) :=
    match headers_get name (req_headers request) with
    | Some v => Js.includes "no-cache" (Js.toLowerCase v)
    | None => false
    end in
  has_no_cache "Cache-Control" || has_no_cache "pragma".

(** The headers of a successful JSON response:
    [Cache-Control: public, max-age=${REVALIDATE_AFTER_MS / 1000}, immutable]. *)
Definition success_headers : Headers :=
  [ ("Content-Type", "application/json");
    ("Cache-Control",
     "public, max-age=" +:+ Js.toFixed0 (REVALIDATE_AFTER_MS / 1000) +:+ ", immutable") ].

(** [new Response(JSON.stringify({ error: "Not found" }),
                   { status: 404, headers: { "Content-Type": "application/json" } })] *)
Definition not_found_response : Response :=
  mkResponse 404 [("Content-Type", "application/json")]
             (Json (VError (mkApiError "Not found"))).

(** The response of the [catch] block of [handleFetch]. *)
Definition internal_error_response : Response :=
  mkResponse 500 [("Content-Type", "application/json")]
             (Json (VError (mkApiError "Internal server error"))).

(** [new Response(JSON.stringify(data), { headers: ... })] *)
Definition data_response (data : Value) : Response :=
  mkResponse 200 success_headers (Json data).

(** [Number(match.headers.get("Stale-At") || 0)]: a missing header and
    an empty one both give way to [0]. *)
Definition staleAt_of (resp : Response) : Js.number :=
  match headers_get "Stale-At" (headers resp) with
  | Some (String c s) => Js.Number (String c s)
  | Some EmptyString => Js.Num 0
  | None => Js.Num 0
  end.

(** [async function readFromCache(key)] *)
Definition readFromCache (key : string) : M (option (Value * Js.number)) :=
  let u := "kv://" +:+ key in
  m <- caches_match u ;;
  match m with
  | None => ret None
  | Some resp =>
      data <- response_json resp ;;
      ret (Some (data, staleAt_of resp))
  end.

(** [async function writeToCache(key, value)] *)
Definition writeToCache (key : string) (value : Value) : M unit :=
  let u := "kv://" +:+ key in
  t <- Date_now ;;
  caches_put u
    (mkResponse 200
       [ ("Content-Type", "application/json");
         ("Cache-Control",
          "public, max-age=" +:+ Js.toFixed0 STALE_FOR_SECONDS +:+ ", immutable");
         ("Stale-At", Js.toFixed0 (t + REVALIDATE_AFTER_MS)) ]
       (Json value)).

(** [async function createNewFilesCacheEntry(user, repo, sha)] *)
Definition createNewFilesCacheEntry (user repo rev : string) : M (option CachedFiles) :=
  contentResponse <- fetch ("https://api.github.com/repos/" +:+ user +:+ "/" +:+ repo
                            +:+ "/git/trees/" +:+ rev +:+ "?recursive=1") ;;
  if negb (ok contentResponse) then ret None
  else
    match tree_json contentResponse with
    | None => throw
    | Some content =>
        ret (Some (mkCachedFiles (content_sha content)
                                 (Listing.collect (content_tree content))))
    end.

(** The packages and the component index.ts imports. *)
Record MarkedOptions : Type := mkMarkedOptions {
  highlight : string -> string -> string;
  langPrefix : string;
  gfm : bool;
  headerIds : bool;
  smartLists : bool;
}.

Record Libraries : Type := mkLibraries {
  (** [frontmatter(markdown)]: the attributes and the body. *)
  frontmatter : string -> json * string;
  (** [emoji.emojify(text)] *)
  emojify : string -> string;
  (** [hljs.getLanguage(language)], as a truth value. *)
  hljs_getLanguage : string -> bool;
  (** [hljs.highlight(code, { language }).value]; [None] when it throws. *)
  hljs_highlight : string -> string -> option string;
  (** [marked(body, options)] *)
  marked : string -> MarkedOptions -> string;
  (** The reader of the sanitizer: the element tree of a piece of HTML
      text, cut at the [html] boundary when the flag is set. *)
  read_html : bool -> string -> list Html.node;
  (** [renderToString(createElement(Demo, { html }))]; [None] is an
      undefined [html]. *)
  Demo : option string -> string;
}.

Section Worker.

Context (lib : Libraries).

(** [sanitize(html, options)]: read, filter, write. *)
Definition sanitize_tree (o : Html.Options) (text : string) : list Html.node :=
  Html.sanitize_forest o (read_html lib (Html.enforceHtmlBoundary o) text).

Definition sanitize (text : string) (o : Html.Options) : string :=
  Html.write_forest o (sanitize_tree o text).

(** ** parseMarkdown *)

(** The characters the dot of a pattern does not match: the line feed
    and the carriage return, and the line separator U+2028 and the
    paragraph separator U+2029, which the text holds as the bytes
    [226 128 168] and [226 128 169]. *)
Definition is_line_end (c : ascii) : bool :=
  Ascii.eqb c "010" || Ascii.eqb c "013".

(** [c] completes a separator after the line read so far, [cur]
    (reversed): the line without the first two bytes of the
    separator. *)
Definition wide_line_end (c : ascii) (cur : string) : option string :=
  match cur with
  | String c2 (String c1 line) =>
      if Ascii.eqb c1 "226" && Ascii.eqb c2 "128"
         && (Ascii.eqb c "168" || Ascii.eqb c "169")
      then Some line
      else None
  | _ => None
  end.

(** The position of the first colon of a line. *)
Fixpoint first_colon (s : string) : option nat :=
  match s with
  | EmptyString => None
  | String c s' =>
      if Ascii.eqb c ":" then Some O else option_map S (first_colon s')
  end.

(** The position of the last colon of a line. *)
Fixpoint last_colon (s : string) : option nat :=
  match s with
  | EmptyString => None
  | String c s' =>
      match last_colon s' with
      | Some j => Some (S j)
      | None => if Ascii.eqb c ":" then Some O else None
      end
  end.

(** One line of [body.replace(/(:.*:)/g, emojiReplacer)]: the match
    runs from the first colon of the line to its last one. *)
Definition replace_emoji_line (line : string) : string :=
  match first_colon line, last_colon line with
  | Some i, Some j =>
      if (i <? j)%nat
      then substring 0 i line
           +:+ emojify lib (substring i (j - i + 1) line)
           +:+ substring (j + 1) (String.length line - (j + 1)) line
      else line
  | _, _ => line
  end.

(** The replacement over the whole body: the dot of the pattern does
    not cross a line end. [cur] is the line being read, reversed. *)
Fixpoint replace_emoji_go (cur : string) (s : string) : string :=
  match s with
  | EmptyString => replace_emoji_line (String.rev cur)
  | String c s' =>
      if is_line_end c
      then replace_emoji_line (String.rev cur)
           +:+ String c (replace_emoji_go EmptyString s')
      else match wide_line_end c cur with
           | Some line =>
               replace_emoji_line (String.rev line)
               +:+ String "226" (String "128"
                                   (String c (replace_emoji_go EmptyString s')))
           | None => replace_emoji_go (String c cur) s'
           end
  end.

Definition replace_emoji (body : string) : string :=
  replace_emoji_go EmptyString body.

(** The [highlight] callback given to [marked]. *)
Definition highlight_callback (code language : string) : string :=
  if negb (String.eqb language EmptyString) && hljs_getLanguage lib language
  then match hljs_highlight lib code language with
       | Some value => value
       | None => code
       end
  else code.

Definition marked_options : MarkedOptions :=
  {| highlight := highlight_callback;
     langPrefix := "hljs language-";
     gfm := true;
     headerIds := true;
     smartLists := true |}.

(** The markdown body after the front matter is split off and the
    emoji are replaced, rendered by [marked]. *)
Definition rendered (markdown : string) : string :=
  marked lib (replace_emoji (snd (frontmatter lib markdown))) marked_options.

(** [function parseMarkdown(markdown: string): ApiData] *)
Definition parseMarkdown (markdown : string) : ApiData :=
  {| attributes := fst (frontmatter lib markdown);
     html := sanitize (rendered markdown) sanitize_options |}.

(** The element tree of [parseMarkdown(markdown).html]. *)
Definition parseMarkdown_tree (markdown : string) : list Html.node :=
  sanitize_tree sanitize_options (rendered markdown).

(** ** The producers *)

(** [new URL(url.pathname, "https://raw.githubusercontent.com/").href] *)
Definition raw_content_url (u : URL) : string :=
  href (URL_resolve (pathname u)
                    (mkURL "https://raw.githubusercontent.com" "/" EmptyString)).

(** [async function createNewCacheEntry(url: URL)] *)
Definition createNewCacheEntry (u : URL) : M (option ApiData) :=
  contentResponse <- fetch (raw_content_url u) ;;
  if negb (ok contentResponse) then ret None
  else ret (Some (parseMarkdown (text contentResponse))).

(** ** renderMarkdown *)

(** [async function renderMarkdown(request, ctx)] *)
Definition renderMarkdown (request : Request) : M Response :=
  t <- Date_now ;;
  let u := url request in
  let kvJsonKey := "json-swr" +:+ pathname u in
  cached <- (if shouldSkipCache request then ret None
             else readFromCache kvJsonKey) ;;
  data <- match cached with
          | Some (d, staleAt) =>
              (if Js.lt staleAt (Js.Num t)
               then waitUntil (RegenerateMarkdown kvJsonKey u)
               else ret tt) ;;;
              ret (Some d)
          | None =>
              fresh <- createNewCacheEntry u ;;
              match fresh with
              | Some d =>
                  waitUntil (WriteToCache kvJsonKey (VData d)) ;;;
                  ret (Some (VData d))
              | None => ret None
              end
          end ;;
  match data with
  | None => ret not_found_response
  | Some d => ret (data_response d)
  end.

(** ** renderFiles *)

(** [url.pathname.split("/").filter((s) => s !== "")] *)
Definition segments (u : URL) : list string :=
  List.filter (fun s => negb (String.eqb s EmptyString))
              (Js.split "/" (pathname u)).

(** An element of the destructured array, as a template literal
    prints it. *)
Definition segment (i : nat) (u : URL) : string :=
  nth i (segments u) "undefined".

(** [async function renderFiles(request, ctx)] *)
Definition renderFiles (request : Request) : M Response :=
  t <- Date_now ;;
  let u := url request in
  let user := segment 0 u in
  let repo := segment 1 u in
  let rev := segment 2 u in
  let filesJsonKey := "files" +:+ pathname u in
  cached <- (if shouldSkipCache request then ret None
             else readFromCache filesJsonKey) ;;
  data <- match cached with
          | Some (d, staleAt) =>
              (if Js.lt staleAt (Js.Num t)
               then waitUntil (RegenerateFiles filesJsonKey user repo rev)
               else ret tt) ;;;
              ret (Some d)
          | None =>
              fresh <- createNewFilesCacheEntry user repo rev ;;
              match fresh with
              | Some f =>
                  waitUntil (WriteToCache filesJsonKey (VFiles f)) ;;;
                  ret (Some (VFiles f))
              | None => ret None
              end
          end ;;
  match data with
  | None => ret not_found_response
  | Some d => ret (data_response d)
  end.

(** ** renderDocs and renderDemo *)

(** The headers of the inner markdown request: the [Cache-Control] of
    the inbound request, when it has one. *)
Definition markdown_headers (request : Request) : Headers :=
  match headers_get "Cache-Control" (req_headers request) with
  | Some v => [("Cache-Control", v)]
  | None => []
  end.

(** The page built around the inner markdown response. *)
Definition demo_page (markdownResponse : Response) : M Response :=
  markdownJson <- response_json markdownResponse ;;
  let html_prop :=
    match markdownJson with
    | VData d => Some (html d)
    | VError e => Some (error e)
    | VFiles _ => None
    end in
  ret (mkResponse 200
         [ ("Content-Type", "text/html");
           ("Cache-Control",
            match headers_get "Cache-Control" (headers markdownResponse) with
            | Some (String c s) => String c s
            | _ => "no-cache"
            end) ]
         (Page ("<!DOCTYPE html>" +:+ Demo lib html_prop))).

(** [async function renderDocs(request, ctx)] *)
Definition renderDocs (request : Request) : M Response :=
  let domain := URL_resolve "/" (url request) in
  markdownResponse <-
    renderMarkdown
      (mkRequest (URL_resolve "/jacob-ebey/github-md/main/README.md" domain)
                 (markdown_headers request)) ;;
  demo_page markdownResponse.

(** [async function renderDemo(request, ctx)] *)
Definition renderDemo (request : Request) : M Response :=
  let domain := URL_resolve "/" (url request) in
  let file := Js.slice (String.length "/_demo") (pathname (url request)) in
  markdownResponse <-
    renderMarkdown (mkRequest (URL_resolve file domain) (markdown_headers request)) ;;
  demo_page markdownResponse.

(** ** handleFetch *)

(** The renderer [handleFetch] chooses for a path. *)
Inductive Route : Type :=
| ToDocs
| ToDemo
| ToFiles
| ToMarkdown.

Definition route (u : URL) : Route :=
  if String.eqb (pathname u) "/" then ToDocs
  else if Js.startsWith "/_demo/" (pathname u) then ToDemo
  else if (length (segments u) =? 3)%nat then ToFiles
  else ToMarkdown.

(** [async function handleFetch(request, env, ctx)] *)
Definition handleFetch (request : Request) : M Response :=
  try_catch
    (let u := url request in
     found <- (if shouldSkipCache request then ret None
               else caches_match (href u)) ;;
     match found with
     | Some response => ret response
     | None =>
         response <- match route u with
                     | ToDocs => renderDocs request
                     | ToDemo => renderDemo request
                     | ToFiles => renderFiles request
                     | ToMarkdown => renderMarkdown request
                     end ;;
         waitUntil (PutResponse (href u) response) ;;;
         ret response
     end)
    (ret internal_error_response).

(** ** Running the tasks given to ctx.waitUntil *)

Definition run_task (t : Task) : M unit :=
  match t with
  | RegenerateMarkdown key u =>
      toCache <- createNewCacheEntry u ;;
      match toCache with
      | Some d => writeToCache key (VData d)
      | None => ret tt
      end
  | RegenerateFiles key user repo rev =>
      toCache <- createNewFilesCacheEntry user repo rev ;;
      match toCache with
      | Some f => writeToCache key (VFiles f)
      | None => ret tt
      end
  | WriteToCache key value => writeToCache key value
  | PutResponse u r => caches_put u r
  end.

(** The world once the waiting tasks have run, oldest first, in the
    environment [e]. A task that throws leaves the world as it was
    when it threw. *)
Definition settle (e : Env) (w : World) : World :=
  fold_left (fun w' t => snd (run_task t e w'))
            (waiting w)
            (mkWorld (cache w) (fetched w) []).

End Worker.

(* ================================================================== *)
(** * The cache entries of the specification *)
(* ================================================================== *)

(** The [CacheEntry] of the specification, read off the host cache: the
    payload, the staleness deadline (the [Stale-At] header, as
    [readFromCache] reads it) and the expiry the host keeps. *)
Record CacheEntry : Type := mkCacheEntry {
  payload : Value;
  staleAt : Js.number;
  expiresAt : option Z;
}.

(** The entry stored under the key [key] of the key-value layer. *)
Definition stored_entry (w : World) (key : string) : option CacheEntry :=
  match cache w !! ("kv://" +:+ key) with
  | Some st =>
      match body (Host.stored st) with
      | Json d => Some (mkCacheEntry d (staleAt_of (Host.stored st)) (Host.expiresAt st))
      | Page _ => None
      end
  | None => None
  end.

(** The entry is not past its expiry at time [t]. *)
Definition live (t : Z) (en : CacheEntry) : Prop :=
  match expiresAt en with
  | Some x => t < x
  | None => True
  end.

(** The keys of the two operations. *)
Definition markdown_key (request : Request) : string :=
  "json-swr" +:+ pathname (url request).

Definition files_key (request : Request) : string :=
  "files" +:+ pathname (url request).

(** The URL [createNewFilesCacheEntry] fetches for a request. *)
Definition tree_url (request : Request) : string :=
  "https://api.github.com/repos/" +:+ segment 0 (url request) +:+ "/"
  +:+ segment 1 (url request) +:+ "/git/trees/" +:+ segment 2 (url request)
  +:+ "?recursive=1".

(** The tasks a stale read hands to [ctx.waitUntil]. *)
Definition markdown_regeneration (request : Request) : Task :=
  RegenerateMarkdown (markdown_key request) (url request).

Definition files_regeneration (request : Request) : Task :=
  RegenerateFiles (files_key request) (segment 0 (url request))
                  (segment 1 (url request)) (segment 2 (url request)).

(** The request carries a cache-bypass directive: a [Cache-Control] or
    a [Pragma] header whose value has [no-cache] in it. *)
Definition has_no_cache (name : string) (request : Request) : Prop :=
  exists v, headers_get name (req_headers request) = Some v
            /\ Js.includes "no-cache" (Js.toLowerCase v) = true.

Definition carries_bypass_directive (request : Request) : Prop :=
  has_no_cache "Cache-Control" request \/ has_no_cache "Pragma" request.

(** A read that goes to upstream: the request bypasses the cache, or
    the cache has nothing to give under the key. *)
Definition goes_upstream (request : Request) (key : string) (e : Env) (w : World) : Prop :=
  shouldSkipCache request = true
  \/ Host.lookup (now e) ("kv://" +:+ key) (cache w) = None.

(** The renderer [handleFetch] runs for a request. *)
Definition render (lib : Libraries) (request : Request) : M Response :=
  match route (url request) with
  | ToDocs => renderDocs lib request
  | ToDemo => renderDemo lib request
  | ToFiles => renderFiles request
  | ToMarkdown => renderMarkdown lib request
  end.

(** The response cache is passed over: the request bypasses it, or it
    has nothing under the request URL. *)
Definition passes_response_cache (request : Request) (e : Env) (w : World) : Prop :=
  shouldSkipCache request = true
  \/ Host.lookup (now e) (href (url request)) (cache w) = None.

(** The world with one more upstream request and one more task. *)
Definition with_fetch (u : string) (w : World) : World :=
  mkWorld (cache w) (fetched w ++ [u]) (waiting w).

Definition with_task (t : Task) (w : World) : World :=
  mkWorld (cache w) (fetched w) (waiting w ++ [t]).

(* ================================================================== *)
(** * A concrete scenario *)
(* ================================================================== *)

(** Stand-ins for the imported packages on a few documents, and
    requests, environments and worlds to run the worker on. *)
Module Scenario.

Definition q : string := Html.quote_mark.

(** The markdown of an image, what [marked] renders for it, and the
    tree the sanitizer reads from that. *)
Definition image_markdown : string := "![logo](https://example.com/logo.png)".

Definition image_html : string :=
  "<p><img src=" +:+ q +:+ "https://example.com/logo.png" +:+ q
  +:+ " alt=" +:+ q +:+ "logo" +:+ q +:+ "></p>".

Definition image_tree : list Html.node :=
  [ Html.Element "p" []
      [ Html.Element "img"
          [("src", "https://example.com/logo.png"); ("alt", "logo")] [] ] ].

(** A document with a script and a javascript link nested in allowed
    elements. *)
Definition hostile_html : string :=
  "<div><p><script>alert(1)</script><a href=" +:+ q +:+ "JavaScript:alert(1)"
  +:+ q +:+ ">x</a></p></div>".

Definition hostile_tree : list Html.node :=
  [ Html.Element "div" []
      [ Html.Element "p" []
          [ Html.Element "script" [] [Html.Text "alert(1)"];
            Html.Element "a" [("href", "JavaScript:alert(1)")] [Html.Text "x"] ] ] ].

Definition lib : Libraries :=
  {| frontmatter := fun markdown => (JObject [], markdown);
     emojify := fun text => text;
     hljs_getLanguage := fun _ => false;
     hljs_highlight := fun _ _ => None;
     marked := fun body _ =>
                 if String.eqb body image_markdown then image_html
                 else body;
     read_html := fun _ text =>
                    if String.eqb text image_html then image_tree
                    else if String.eqb text hostile_html then hostile_tree
                    else [Html.Text text];
     Demo := fun html_prop =>
               match html_prop with
               | Some h => "<html><body>" +:+ h +:+ "</body></html>"
               | None => "<html><body></body></html>"
               end |}.

Definition site : string := "https://github-md.com".

(** [GET /u/r/main/README.md], without and with a bypass directive. *)
Definition doc_url : URL := mkURL site "/u/r/main/README.md" EmptyString.
Definition doc_request : Request := mkRequest doc_url [("Accept", "*/*")].
Definition doc_request_no_cache : Request :=
  mkRequest doc_url [("Cache-Control", "no-cache")].
Definition doc_request_pragma : Request :=
  mkRequest doc_url [("Pragma", "no-cache")].

(** [GET /u/r/main], the file listing. *)
Definition files_url : URL := mkURL site "/u/r/main" EmptyString.
Definition files_request : Request := mkRequest files_url [].
Definition files_request_no_cache : Request :=
  mkRequest files_url [("Cache-Control", "no-cache")].

(** [GET /], the documentation page. *)
Definition docs_request : Request := mkRequest (mkURL site "/" EmptyString) [].

Definition doc_key : string := "kv://json-swr/u/r/main/README.md".
Definition files_key : string := "kv://files/u/r/main".

Definition tree_url : string :=
  "https://api.github.com/repos/u/r/git/trees/main?recursive=1".

(** The listing of the specification's example. *)
Definition example_tree : list TreeItem :=
  [ mkTreeItem "README.md" "blob" "a1";
    mkTreeItem "README.MD" "blob" "b2";
    mkTreeItem "src" "tree" "c3";
    mkTreeItem "src/index.ts" "blob" "d4";
    mkTreeItem "docs/a.markdown" "blob" "e5" ].

(** Upstream serves the document and the tree. *)
Definition upstream_up (u : string) : option FetchResponse :=
  if String.eqb u (raw_content_url doc_url)
  then Some (mkFetchResponse true image_markdown None)
  else if String.eqb u tree_url
  then Some (mkFetchResponse true EmptyString
                             (Some (mkTreeContent "main-sha" example_tree)))
  else Some (mkFetchResponse false "404: Not Found" None).

(** Upstream answers every request with a non-success status. *)
Definition upstream_down (u : string) : option FetchResponse :=
  Some (mkFetchResponse false "404: Not Found" None).

Definition old_data : ApiData := mkApiData (JObject []) "<p>old</p>".
Definition old_files : CachedFiles :=
  mkCachedFiles "old-sha" [mkCachedFile "README.md" "a0"].

(** A key-value entry as [writeToCache] stores it at time [t]. *)
Definition kv_response (t : Z) (v : Value) : Response :=
  mkResponse 200
    [ ("Content-Type", "application/json");
      ("Cache-Control", "public, max-age=172800, immutable");
      ("Stale-At", Js.toFixed0 (t + REVALIDATE_AFTER_MS)) ]
    (Json v).

Definition kv_entry (t : Z) (v : Value) : Host.Stored :=
  Host.mkStored (kv_response t v) (Some (t + 1000 * STALE_FOR_SECONDS)).


Definition empty_world : World := mkWorld ∅ [] [].

(** Both keys were written at time 1000: stale at 301000. *)
Definition warm_world : World :=
  mkWorld (<[doc_key := kv_entry 1000 (VData old_data)]>
           (<[files_key := kv_entry 1000 (VFiles old_files)]> ∅))
          [] [].


(** The environment at time [t], with upstream up or down. *)
Definition up (t : Z) : Env := mkEnv t upstream_up.
Definition down (t : Z) : Env := mkEnv t upstream_down.

(** The two entries of [warm_world], as the specification sees them. *)
Definition old_doc_entry : CacheEntry :=
  mkCacheEntry (VData old_data) (Js.Num 301000) (Some 172801000).

Definition old_files_entry : CacheEntry :=
  mkCacheEntry (VFiles old_files) (Js.Num 301000) (Some 172801000).

(** What [parseMarkdown] makes of the document upstream serves. *)
Definition fresh_data : ApiData :=
  mkApiData (JObject [])
            ("<p><img src=" +:+ q +:+ "https://example.com/logo.png" +:+ q
             +:+ " alt=" +:+ q +:+ "logo" +:+ q +:+ " /></p>").

(** The world after a first request for the document found upstream
    down, once its tasks have run. *)
Definition after_failure : World :=
  settle lib (down 5000) (snd (handleFetch lib doc_request (down 5000) empty_world)).

End Scenario.

(* ================================================================== *)
(** * What a computation adds to the world *)
(* ================================================================== *)

(** The world [w'] is the world [w] with the upstream requests [f] and
    the tasks [ts] added: the cache is the same. *)
Definition grown (w w' : World) (f : list string) (ts : list Task) : Prop :=
  cache w' = cache w
  /\ fetched w' = fetched w ++ f
  /\ waiting w' = waiting w ++ ts.

(** Whatever the environment and the world, the computation [m] leaves
    the cache alone, makes at most [a] upstream requests and hands at
    most [b] tasks to [ctx.waitUntil], each of them a task of [P]. *)
Definition adds {A : Type} (m : M A) (a b : nat) (P : Task -> Prop) : Prop :=
  forall e w,
    exists f ts,
      grown w (snd (m e w)) f ts
      /\ (length f <= a)%nat
      /\ (length ts <= b)%nat
      /\ Forall P ts.

(** The key of the host cache a task may write. *)
Definition task_target (t : Task) : string :=
  match t with
  | RegenerateMarkdown key _ => "kv://" +:+ key
  | RegenerateFiles key _ _ _ => "kv://" +:+ key
  | WriteToCache key _ => "kv://" +:+ key
  | PutResponse u _ => u
  end.

(** The task writes the key-value entry [key], if it writes at all. *)
Definition targets (key : string) (t : Task) : Prop :=
  task_target t = "kv://" +:+ key.

(** The inner request the page routes make for a path. *)
Definition inner_request (path : string) (request : Request) : Request :=
  mkRequest (URL_resolve path (URL_resolve "/" (url request)))
            (markdown_headers request).

(** The path [renderDemo] reads: the request path without [/_demo]. *)
Definition demo_file (request : Request) : string :=
  Js.slice (String.length "/_demo") (pathname (url request)).

(** The path [renderDocs] reads. *)
Definition docs_file : string := "/jacob-ebey/github-md/main/README.md".

(** The text has a colon in it. *)
Fixpoint has_colon (s : string) : bool :=
  match s with
  | EmptyString => false
  | String c s' => Ascii.eqb c ":" || has_colon s'
  end.

(** The text has a slash in it. *)
Fixpoint has_slash (s : string) : bool :=
  match s with
  | EmptyString => false
  | String c s' => Ascii.eqb c "/" || has_slash s'
  end.



(** The entry a fresh value gets when its write runs in [e']. *)
Definition fresh_entry_at (e' : Env) (v : Value) : CacheEntry :=
  mkCacheEntry v (Js.Num (now e' + REVALIDATE_AFTER_MS))
               (Some (now e' + 1000 * STALE_FOR_SECONDS)).

(** A path segment as [segments] gives them: not empty, no slash. *)
Definition plain_segment (s : string) : Prop :=
  s <> EmptyString /\ has_slash s = false.

(** The URL of a path with the given segments. *)
Definition url_of_segments (site : string) (segs : list string) (query : string) : URL :=
  mkURL site ("/" +:+ Js.join "/" segs) query.

(** A character that stands in no text JavaScript reads as a number:
    none of the digits, signs, the dot, the blanks, nor a letter of an
    exponent, of [Infinity] or of a hexadecimal, octal or binary
    literal. *)
Definition never_in_a_number (c : ascii) : bool :=
  existsb (Ascii.eqb c)
          (list_ascii_of_string "ghjklmpqrsuvwzGHJKLMNPQRSTUVWYZ:/,;_").

(** The text has such a character: [Number] makes [NaN] of it. *)
Fixpoint has_foreign_character (s : string) : bool :=
  match s with
  | EmptyString => false
  | String c s' => never_in_a_number c || has_foreign_character s'
  end.

(** The line separator and the paragraph separator, as the text holds
    them. *)
Definition line_separator : string :=
  String "226" (String "128" (String "168" EmptyString)).

Definition paragraph_separator : string :=
  String "226" (String "128" (String "169" EmptyString)).

(** The text has a line end in it: a line feed, a carriage return, a
    line separator or a paragraph separator. *)
Fixpoint has_line_end (s : string) : bool :=
  match s with
  | EmptyString => false
  | String c s' =>
      is_line_end c
      || String.prefix line_separator s
      || String.prefix paragraph_separator s
      || has_line_end s'
  end.

(* ================================================================== *)
(** * More of the scenario *)
(* ================================================================== *)

Module Cases.

Import Scenario.

(** The environment at time [t] with upstream out of reach: every
    [fetch] is rejected. *)
Definition off (t : Z) : Env := mkEnv t (fun _ => None).

(** An entry whose [Stale-At] header is not a number. *)
Definition garbled_stored : Host.Stored :=
  Host.mkStored
    (mkResponse 200
       [ ("Content-Type", "application/json"); ("Stale-At", "soon") ]
       (Json (VData old_data)))
    None.

Definition garbled_world : World :=
  mkWorld (<[doc_key := garbled_stored]> ∅) [] [].

(** Upstream serves a tree without markdown. *)
Definition bare_content : TreeContent :=
  mkTreeContent "bare-sha"
    [ mkTreeItem "src" "tree" "c3";
      mkTreeItem "src/index.ts" "blob" "d4";
      mkTreeItem "notes.md" "tree" "f6" ].

Definition bare_response : FetchResponse :=
  mkFetchResponse true EmptyString (Some bare_content).

Definition bare (t : Z) : Env := mkEnv t (fun _ => Some bare_response).

(** The demo page of the document, asked with [Pragma: no-cache]. *)
Definition demo_request : Request :=
  mkRequest (mkURL site "/_demo/u/r/main/README.md" EmptyString)
            [("Pragma", "no-cache")].

(** The packages of the scenario, with an [emojify] that knows one
    shortcode. *)
Definition emoji_lib : Libraries :=
  {| frontmatter := frontmatter lib;
     emojify := fun t => if String.eqb t ":+1:" then "(thumbs up)" else t;
     hljs_getLanguage := hljs_getLanguage lib;
     hljs_highlight := hljs_highlight lib;
     marked := marked lib;
     read_html := read_html lib;
     Demo := Demo lib |}.

(** The response upstream gives for the document. *)
Definition doc_response : FetchResponse :=
  mkFetchResponse true image_markdown None.

End Cases.

(* ================================================================== *)
(** * Facts about the JavaScript primitives *)
(* ================================================================== *)

Section JsFacts.

(** What [toFixed(0)] writes, [Number] reads back. *)
Lemma Number_toFixed0 (z : Z) : Js.Number (Js.toFixed0 z) = Js.Num z.
Proof.
  unfold Js.Number, Js.toFixed0.
  assert (Hd : NilZero.int_of_string (NilZero.string_of_int (Z.to_int z))
               = Some (Z.to_int z)).
  { apply NilZero.isi; destruct z; simpl; try discriminate;
      intros [= H]; exact (Unsigned.to_uint_nonnil _ H). }
  destruct (NilZero.string_of_int (Z.to_int z)) as [|c s] eqn:E.
  - simpl in Hd. discriminate.
  - rewrite Hd. now rewrite DecimalZ.of_to.
Qed.

Lemma toLowerCase_length (s : string) :
  String.length (Js.toLowerCase s) = String.length s.
Proof. induction s as [|c s IH]; simpl; congruence. Qed.

Lemma substring_toLowerCase (s : string) :
  forall k m, substring k m (Js.toLowerCase s) = Js.toLowerCase (substring k m s).
Proof.
  induction s as [|c s IH]; intros [|k] [|m]; simpl; try reflexivity.
  - now rewrite IH.
  - apply IH.
  - apply IH.
Qed.

Lemma lower_is_dot (c : ascii) :
  Ascii.eqb (Js.lower_ascii c) "." = Ascii.eqb c ".".
Proof. destruct c as [[] [] [] [] [] [] [] []]; reflexivity. Qed.

Lemma lower_is_m (c : ascii) :
  Ascii.eqb (Js.lower_ascii c) "m" = Ascii.eqb c "m" || Ascii.eqb c "M".
Proof. destruct c as [[] [] [] [] [] [] [] []]; reflexivity. Qed.

Lemma lower_is_d (c : ascii) :
  Ascii.eqb (Js.lower_ascii c) "d" = Ascii.eqb c "d" || Ascii.eqb c "D".
Proof. destruct c as [[] [] [] [] [] [] [] []]; reflexivity. Qed.

(** A string whose lower case is [.md] is one of the four spellings. *)
Lemma toLowerCase_is_md (t : string) :
  String.eqb (Js.toLowerCase t) ".md"
  = existsb (String.eqb t) [".md"; ".mD"; ".Md"; ".MD"].
Proof.
  destruct t as [|a [|b [|c [|d t]]]]; simpl;
    rewrite ?lower_is_dot, ?lower_is_m, ?lower_is_d;
    repeat match goal with
           | |- context [Ascii.eqb ?x ?y] => destruct (Ascii.eqb x y)
           end; reflexivity.
Qed.

End JsFacts.

(* ================================================================== *)
(** * The file listing *)
(* ================================================================== *)

Section ListingFacts.

Lemma endsWith_three (e s : string) :
  String.length e = 3%nat ->
  Js.endsWith e s
  = if (3 <=? String.length s)%nat
    then String.eqb (substring (String.length s - 3) 3 s) e
    else false.
Proof. intros H. unfold Js.endsWith. now rewrite H. Qed.

(** The test of the code and the suffix test of the specification
    agree on every path. *)
Lemma endsWith_md_lower (p : string) :
  Js.endsWith ".md" (Js.toLowerCase p) = Listing.ends_in_md_ci p.
Proof.
  unfold Listing.ends_in_md_ci. cbn [existsb].
  rewrite !endsWith_three by reflexivity.
  rewrite toLowerCase_length.
  destruct (3 <=? String.length p)%nat; [|reflexivity].
  rewrite substring_toLowerCase, toLowerCase_is_md. reflexivity.
Qed.

Lemma fold_left_reducer (tree : list TreeItem) :
  forall acc,
    fold_left Listing.reducer tree acc
    = acc ++ map (fun item => mkCachedFile (item_path item) (item_sha item))
                 (List.filter Listing.is_markdown_blob tree).
Proof.
  induction tree as [|item tree IH]; intros acc; simpl.
  - now rewrite app_nil_r.
  - rewrite IH. unfold Listing.reducer.
    destruct (Listing.is_markdown_blob item); simpl.
    + now rewrite <- app_assoc.
    + reflexivity.
Qed.

Lemma collect_is_listing_spec (tree : list TreeItem) :
  Listing.collect tree = Listing.listing_spec tree.
Proof.
  unfold Listing.collect, Listing.listing_spec.
  rewrite fold_left_reducer. simpl. f_equal.
  apply filter_ext. intros item. unfold Listing.is_markdown_blob.
  now rewrite endsWith_md_lower.
Qed.

End ListingFacts.

(* ================================================================== *)
(** * The sanitizer keeps what the options allow, and nothing else *)
(* ================================================================== *)

Section HtmlFacts.

Import Html.
Local Arguments String.eqb : simpl never.

(** Induction on a tree, with the hypothesis on every child. *)
Lemma node_induction (P : node -> Prop) :
  (forall s, P (Text s)) ->
  (forall s, P (Comment s)) ->
  (forall tag attrs children,
      Forall P children -> P (Element tag attrs children)) ->
  forall n, P n.
Proof.
  intros HT HC HE. fix IH 1. intros [s|s|tag attrs children].
  - apply HT.
  - apply HC.
  - apply HE. induction children as [|c cs IHcs]; constructor.
    + apply IH.
    + exact IHcs.
Qed.

Lemma forallb_flat_map {A B : Type} (p : B -> bool) (f : A -> list B) (l : list A) :
  forallb p (flat_map f l) = forallb (fun x => forallb p (f x)) l.
Proof.
  induction l as [|x l IH]; simpl; [reflexivity|].
  now rewrite forallb_app, IH.
Qed.

Lemma forallb_filter_same {A : Type} (p : A -> bool) (l : list A) :
  forallb p (List.filter p l) = true.
Proof.
  induction l as [|x l IH]; simpl; [reflexivity|].
  destruct (p x) eqn:E; simpl; [rewrite E|]; exact IH.
Qed.

Lemma mem_In (x : string) (xs : list string) :
  mem x xs = true -> In x xs.
Proof.
  unfold mem. rewrite existsb_exists. intros [y [Hy E]].
  apply String.eqb_eq in E. now subst.
Qed.

Lemma sanitize_node_kept (o : Options) (n : node) :
  forallb (all_elements (kept o)) (sanitize_node o n) = true.
Proof.
  induction n as [s|s|tag attrs children IH] using node_induction;
    try reflexivity.
  assert (Hkids : forallb (all_elements (kept o))
                          (flat_map (sanitize_node o) children) = true).
  { rewrite forallb_flat_map. apply forallb_forall. intros c Hc.
    rewrite Forall_forall in IH. apply IH. now apply list_elem_of_In. }
  cbn [sanitize_node].
  destruct (mem tag (allowedTags o)) eqn:Htag.
  - cbn [forallb all_elements]. fold (all_elements (kept o)).
    unfold kept at 1. rewrite Htag. unfold filter_attributes.
    rewrite forallb_filter_same, Hkids. reflexivity.
  - destruct (mem tag nonTextTags); [reflexivity | exact Hkids].
Qed.

Lemma sanitize_forest_kept (o : Options) (f : list node) :
  forest_all (kept o) (sanitize_forest o f) = true.
Proof.
  unfold forest_all, sanitize_forest. rewrite forallb_flat_map.
  apply forallb_forall. intros n _. apply sanitize_node_kept.
Qed.

Lemma all_elements_impl (P Q : string -> list (string * string) -> bool) :
  (forall tag attrs, P tag attrs = true -> Q tag attrs = true) ->
  forall n, all_elements P n = true -> all_elements Q n = true.
Proof.
  intros HPQ n.
  induction n as [s|s|tag attrs children IH] using node_induction;
    simpl; try reflexivity.
  rewrite !andb_true_iff, !forallb_forall. intros [HP Hkids]. split.
  - now apply HPQ.
  - intros c Hc. rewrite Forall_forall in IH.
    apply IH; [now apply list_elem_of_In | now apply Hkids].
Qed.

Lemma forest_all_impl (P Q : string -> list (string * string) -> bool) :
  (forall tag attrs, P tag attrs = true -> Q tag attrs = true) ->
  forall f, forest_all P f = true -> forest_all Q f = true.
Proof.
  intros HPQ f. unfold forest_all. rewrite !forallb_forall.
  intros H n Hn. apply (all_elements_impl P Q HPQ). now apply H.
Qed.

(** ** The options of index.ts *)

(** No allowed tag is [script], in any letter case. *)
Lemma allowed_tag_not_script (tag : string) :
  mem tag (allowedTags sanitize_options) = true ->
  String.eqb (Js.toLowerCase tag) "script" = false.
Proof.
  intros H. apply mem_In in H.
  assert (Hall : forallb (fun t => negb (String.eqb (Js.toLowerCase t) "script"))
                         (allowedTags sanitize_options) = true)
    by (vm_compute; reflexivity).
  rewrite forallb_forall in Hall. apply Hall in H.
  now apply negb_true_iff in H.
Qed.

Lemma assoc_values {A : Type} (tbl : list (string * A)) (v : A) :
  (exists key, assoc key tbl = Some v) -> In v (map snd tbl).
Proof.
  intros [key H]. induction tbl as [|[k x] tbl IH]; [discriminate|].
  cbn [assoc] in H. destruct (String.eqb k key).
  - injection H as ->. now left.
  - right. now apply IH.
Qed.

Lemma attribute_allowed_listed (tag a : string) :
  attribute_allowed sanitize_options tag a = true ->
  mem a listed_attributes = true.
Proof.
  assert (Hall : forallb (forallb (fun x => mem x listed_attributes))
                         (map snd (allowedAttributes sanitize_options)) = true)
    by (vm_compute; reflexivity).
  rewrite forallb_forall in Hall.
  assert (Hin : forall key names,
             assoc key (allowedAttributes sanitize_options) = Some names ->
             mem a names = true -> mem a listed_attributes = true).
  { intros key names Hk Hm. apply mem_In in Hm.
    assert (Hnames : forallb (fun x => mem x listed_attributes) names = true)
      by (apply Hall, assoc_values; exact (ex_intro _ key Hk)).
    rewrite forallb_forall in Hnames. now apply Hnames. }
  unfold attribute_allowed. intros H. apply orb_true_iff in H as [H|H].
  - destruct (assoc tag (allowedAttributes sanitize_options)) as [names|] eqn:Hk;
      [|discriminate]. exact (Hin tag names Hk H).
  - destruct (assoc "*" (allowedAttributes sanitize_options)) as [names|] eqn:Hk;
      [|discriminate]. exact (Hin "*" names Hk H).
Qed.

(** ** The scheme reader against the reading of a browser *)

(** Lower-casing moves no character across the blank, the colon or the
    angle bracket, and only letters become lower-case letters. *)
Lemma lower_ascii_blank (c : ascii) :
  (nat_of_ascii (Js.lower_ascii c) <=? 32)%nat = (nat_of_ascii c <=? 32)%nat.
Proof. destruct c as [[] [] [] [] [] [] [] []]; vm_compute; reflexivity. Qed.

Lemma lower_ascii_colon (c : ascii) : Js.lower_ascii c = ":"%char -> c = ":"%char.
Proof.
  destruct c as [[] [] [] [] [] [] [] []]; vm_compute; intros H;
    try reflexivity; discriminate H.
Qed.

Lemma lower_ascii_lt (c : ascii) : Js.lower_ascii c = "<"%char -> c = "<"%char.
Proof.
  destruct c as [[] [] [] [] [] [] [] []]; vm_compute; intros H;
    try reflexivity; discriminate H.
Qed.

Lemma lower_letter_is_alpha (c : ascii) :
  is_lower_letter (Js.lower_ascii c) = true -> is_alpha c = true.
Proof.
  destruct c as [[] [] [] [] [] [] [] []]; vm_compute; intros H;
    try reflexivity; discriminate H.
Qed.

Lemma alpha_is_scheme_char (c : ascii) :
  is_alpha c = true -> Ascii.eqb c ":" = false /\ is_scheme_char c = true.
Proof.
  destruct c as [[] [] [] [] [] [] [] []]; vm_compute; intros H;
    try discriminate H; split; reflexivity.
Qed.

Lemma heads_nil (s : string) : heads EmptyString s = true.
Proof. unfold heads. now destruct (Js.toLowerCase s). Qed.

Lemma heads_cons (x : ascii) (w : string) (s : string) :
  heads (String x w) s = true ->
  exists c s', s = String c s' /\ Js.lower_ascii c = x /\ heads w s' = true.
Proof.
  unfold heads. destruct s as [|c s']; cbn [Js.toLowerCase String.prefix];
    [discriminate|].
  destruct (ascii_dec x (Js.lower_ascii c)) as [->|]; [|discriminate].
  intros H. now exists c, s'.
Qed.

Lemma heads_cons_intro (c : ascii) (w s : string) :
  heads w s = true -> heads (String (Js.lower_ascii c) w) (String c s) = true.
Proof.
  unfold heads. intros H. cbn [Js.toLowerCase String.prefix].
  now destruct (ascii_dec (Js.lower_ascii c) (Js.lower_ascii c)).
Qed.

Lemma heads_app (w b r : string) : heads w b = true -> heads w (b +:+ r) = true.
Proof.
  revert b. induction w as [|x w IH]; intros b H; [apply heads_nil|].
  apply heads_cons in H as (c & b' & -> & <- & H).
  change (String c b' +:+ r) with (String c (b' +:+ r)).
  apply heads_cons_intro. now apply IH.
Qed.

Lemma heads_strip_controls (w s : string) :
  visible w = true -> heads w s = true -> heads w (strip_controls s) = true.
Proof.
  revert s. induction w as [|x w IH]; intros s Hw H; [apply heads_nil|].
  apply heads_cons in H as (c & s' & -> & <- & H).
  cbn [visible] in Hw. apply andb_true_iff in Hw as [Hx Hw].
  rewrite lower_ascii_blank in Hx. apply negb_true_iff in Hx.
  cbn [strip_controls]. rewrite Hx.
  apply heads_cons_intro. now apply IH.
Qed.

Lemma strip_controls_leading (s : string) :
  strip_controls (drop_leading_blanks s) = strip_controls s.
Proof.
  induction s as [|c s IH]; [reflexivity|]. cbn [drop_leading_blanks strip_controls].
  destruct (nat_of_ascii c <=? 32)%nat eqn:Hc; [exact IH|].
  cbn [strip_controls]. now rewrite Hc.
Qed.

Lemma strip_controls_tabs (s : string) :
  strip_controls (drop_tabs_and_newlines s) = strip_controls s.
Proof.
  induction s as [|c s IH]; [reflexivity|].
  cbn [drop_tabs_and_newlines strip_controls].
  destruct (Ascii.eqb c "009" || Ascii.eqb c "010" || Ascii.eqb c "013") eqn:Hc.
  - rewrite IH.
    apply orb_true_iff in Hc as [Hc|Hc]; [apply orb_true_iff in Hc as [Hc|Hc]|];
      apply Ascii.eqb_eq in Hc; subst c; reflexivity.
  - cbn [strip_controls]. now rewrite IH.
Qed.

(** What a browser reads at the head of a value is at the head of the
    value without its control characters. *)
Lemma heads_browser_controls (w v : string) :
  visible w = true ->
  heads w (drop_tabs_and_newlines (drop_leading_blanks v)) = true ->
  heads w (strip_controls v) = true.
Proof.
  intros Hw H. apply (heads_strip_controls w _ Hw) in H.
  now rewrite strip_controls_tabs, strip_controls_leading in H.
Qed.

Lemma cut_cons (c : ascii) (s : string) :
  c <> "<"%char ->
  cut "<!--" (String c s)
  = match cut "<!--" s with
    | Some (before, rest) => Some (String c before, rest)
    | None => None
    end.
Proof.
  intros Hc. cbn [cut String.prefix].
  destruct (ascii_dec "<" c) as [E|]; [now elim Hc|reflexivity].
Qed.

(** Taking a comment out leaves a head without [<] where it is. *)
Lemma heads_cut (w s b rest : string) :
  no_lt w = true ->
  heads w s = true ->
  cut "<!--" s = Some (b, rest) ->
  heads w b = true.
Proof.
  revert s b. induction w as [|x w IH]; intros s b Hw H Hcut; [apply heads_nil|].
  apply heads_cons in H as (c & s' & -> & <- & H).
  cbn [no_lt] in Hw. apply andb_true_iff in Hw as [Hx Hw].
  assert (Hc : c <> "<"%char).
  { intros ->. now vm_compute in Hx. }
  rewrite (cut_cons c s' Hc) in Hcut.
  destruct (cut "<!--" s') as [[b' rest']|] eqn:Hcut'; [|discriminate].
  injection Hcut as <- <-.
  apply heads_cons_intro. now apply (IH s' b').
Qed.

Lemma heads_strip_comments_go (w : string) (fuel : nat) (s : string) :
  no_lt w = true ->
  heads w s = true ->
  heads w (strip_comments_go fuel s) = true.
Proof.
  intros Hw. revert s. induction fuel as [|n IH]; intros s H; [exact H|].
  cbn [strip_comments_go].
  destruct (cut "<!--" s) as [[b rest]|] eqn:Hcut; [|exact H].
  destruct (cut "-->" rest) as [[x rest']|]; [|exact H].
  apply IH, heads_app. now apply (heads_cut w s b rest).
Qed.

(** What a browser reads at the head of a value, the scheme reader
    finds at the head of the cleaned value. *)
Lemma heads_clean_href (w v : string) :
  visible w = true ->
  no_lt w = true ->
  heads w (drop_tabs_and_newlines (drop_leading_blanks v)) = true ->
  heads w (clean_href v) = true.
Proof.
  intros Hv Hlt H. unfold clean_href, strip_comments.
  apply heads_strip_comments_go; [exact Hlt|].
  now apply heads_browser_controls.
Qed.

(** A text headed by letters and a colon, letter case apart, is those
    letters, a colon and the rest. *)
Lemma heads_letters_colon (w s : string) :
  lower_letters w = true ->
  heads (w +:+ ":") s = true ->
  exists p r, s = p +:+ String ":" r /\ Js.toLowerCase p = w /\ letters p = true.
Proof.
  revert s. induction w as [|x w IH]; intros s Hw H.
  - change (EmptyString +:+ ":") with ":" in H.
    apply heads_cons in H as (c & r & -> & Hc & _).
    apply lower_ascii_colon in Hc as ->. now exists EmptyString, r.
  - change (String x w +:+ ":") with (String x (w +:+ ":")) in H.
    apply heads_cons in H as (c & s' & -> & <- & H).
    cbn [lower_letters] in Hw. apply andb_true_iff in Hw as [Hx Hw].
    destruct (IH s' Hw H) as (p & r & -> & <- & Hp).
    exists (String c p), r. split; [reflexivity|]. split; [reflexivity|].
    cbn [letters]. now rewrite (lower_letter_is_alpha c Hx), Hp.
Qed.

Lemma scheme_run_letters (p r : string) :
  letters p = true -> scheme_run (p +:+ String ":" r) = Some p.
Proof.
  induction p as [|c p IH]; intros Hp.
  - reflexivity.
  - cbn [letters] in Hp. apply andb_true_iff in Hp as [Hc Hp].
    change (String c p +:+ String ":" r) with (String c (p +:+ String ":" r)).
    cbn [scheme_run].
    destruct (alpha_is_scheme_char c Hc) as [-> ->].
    now rewrite (IH Hp).
Qed.

(** The scheme reader finds the scheme a browser finds. *)
Lemma url_scheme_of_browser (x w v : string) (c : ascii) :
  w = String c x ->
  lower_letters w = true ->
  heads (w +:+ ":") (drop_tabs_and_newlines (drop_leading_blanks v)) = true ->
  visible (w +:+ ":") = true ->
  no_lt (w +:+ ":") = true ->
  url_scheme v = Some w.
Proof.
  intros Hw Hl H Hv Hlt.
  apply (heads_clean_href _ v Hv Hlt) in H.
  apply (heads_letters_colon w _ Hl) in H as (p & r & Hclean & Hp & Hletters).
  unfold url_scheme. rewrite Hclean.
  destruct p as [|a p].
  - subst w. discriminate Hp.
  - change (String a p +:+ String ":" r) with (String a (p +:+ String ":" r)).
    cbn [letters] in Hletters. apply andb_true_iff in Hletters as [Ha Hletters].
    rewrite Ha, (scheme_run_letters p r Hletters). cbn [option_map].
    now rewrite Hp.
Qed.

(** The scheme reader reads [javascript] off every [javascript:] URL. *)
Lemma javascript_url_scheme (v : string) :
  is_javascript_url v = true -> url_scheme v = Some "javascript".
Proof.
  intros H.
  apply (url_scheme_of_browser "avascript" "javascript" v "j" eq_refl);
    [reflexivity | exact H | reflexivity | reflexivity].
Qed.

Lemma length_append (a b : string) :
  String.length (a +:+ b) = (String.length a + String.length b)%nat.
Proof.
  induction a as [|x a IH]; [reflexivity|].
  change (String x a +:+ b) with (String x (a +:+ b)).
  cbn [String.length]. now rewrite IH.
Qed.

Lemma slice_length (p s : string) :
  String.prefix p s = true ->
  String.length s = (String.length p + String.length (Js.slice (String.length p) s))%nat.
Proof.
  revert s. induction p as [|x p IH]; intros s H; [reflexivity|].
  destruct s as [|c s]; cbn [String.prefix] in H; [discriminate|].
  destruct (ascii_dec x c); [|discriminate].
  cbn [String.length Js.slice]. now rewrite (IH s H).
Qed.

(** The two pieces [cut] gives and the text it looked for make up the
    text. *)
Lemma cut_length (p s b r : string) :
  cut p s = Some (b, r) ->
  String.length s = (String.length b + String.length p + String.length r)%nat.
Proof.
  revert b. induction s as [|c s IH]; intros b H.
  - cbn [cut] in H. destruct (String.prefix p EmptyString) eqn:Hp; [|discriminate].
    injection H as <- <-. pose proof (slice_length p _ Hp) as E.
    cbn [String.length] in *. lia.
  - cbn [cut] in H. destruct (String.prefix p (String c s)) eqn:Hp.
    + injection H as <- <-. pose proof (slice_length p _ Hp) as E.
      cbn [String.length] in *. lia.
    + destruct (cut p s) as [[b' r']|] eqn:Hcut; [|discriminate].
      injection H as <- <-. cbn [String.length]. rewrite (IH b' eq_refl). lia.
Qed.

(** Once the fuel is the length of the value, more fuel changes
    nothing: the comments are all taken out. *)
Lemma strip_comments_go_more (n : nat) (s : string) :
  (String.length s <= n)%nat ->
  strip_comments_go (S n) s = strip_comments_go n s.
Proof.
  revert s. induction n as [|n IH]; intros s Hn.
  - destruct s; [reflexivity | cbn [String.length] in Hn; lia].
  - change (strip_comments_go (S (S n)) s)
      with (match cut "<!--" s with
            | None => s
            | Some (before, rest) =>
                match cut "-->" rest with
                | None => s
                | Some (_, rest') => strip_comments_go (S n) (before +:+ rest')
                end
            end).
    cbn [strip_comments_go].
    destruct (cut "<!--" s) as [[b rest]|] eqn:H1; [|reflexivity].
    destruct (cut "-->" rest) as [[x rest']|] eqn:H2; [|reflexivity].
    apply IH. apply cut_length in H1, H2. rewrite length_append.
    cbn [String.length] in H1, H2. lia.
Qed.

Lemma strip_comments_enough (n : nat) (s : string) :
  (String.length s <= n)%nat ->
  strip_comments_go n s = strip_comments s.
Proof.
  unfold strip_comments. intros Hn.
  induction n as [|n IH].
  - now replace (String.length s) with 0%nat by lia.
  - destruct (Nat.eq_dec (String.length s) (S n)) as [->|Hne]; [reflexivity|].
    rewrite strip_comments_go_more by lia. apply IH. lia.
Qed.

(** No whole comment is left in the cleaned value. *)
Lemma strip_comments_done (s : string) :
  strip_comments_go 1 (strip_comments s) = strip_comments s.
Proof.
  unfold strip_comments.
  assert (H : forall n t, (String.length t <= n)%nat ->
                          strip_comments_go 1 (strip_comments_go n t)
                          = strip_comments_go n t).
  { induction n as [|n IH]; intros t Ht.
    - destruct t; [reflexivity | cbn [String.length] in Ht; lia].
    - cbn [strip_comments_go].
      destruct (cut "<!--" t) as [[b rest]|] eqn:H1.
      + destruct (cut "-->" rest) as [[x rest']|] eqn:H2.
        * apply IH. apply cut_length in H1, H2. rewrite length_append.
          cbn [String.length] in H1, H2. lia.
        * now rewrite H1, H2.
      + now rewrite H1. }
  now apply H.
Qed.

(** The names of the attributes on the allow-lists are in lower case. *)
Lemma listed_lower (a : string) :
  mem a listed_attributes = true -> Js.toLowerCase a = a.
Proof.
  intros H. apply mem_In in H.
  assert (Hall : forallb (fun x => String.eqb (Js.toLowerCase x) x)
                         listed_attributes = true) by (vm_compute; reflexivity).
  rewrite forallb_forall in Hall. now apply String.eqb_eq, Hall.
Qed.

(** An attribute that passed the filter is not a URL-bearing attribute
    with a [javascript:] URL, however its name and its value are
    spelled. *)
Lemma kept_attribute_not_javascript (tag attr : string) (av : string * string) :
  mem attr (allowedSchemesAppliedToAttributes sanitize_options) = true ->
  keep_attribute sanitize_options tag av = true ->
  (String.eqb (Js.toLowerCase (fst av)) attr && is_javascript_url (snd av)) = false.
Proof.
  intros Hattr. unfold keep_attribute. rewrite andb_true_iff.
  intros [Hallowed Hscheme].
  destruct (String.eqb (Js.toLowerCase (fst av)) attr) eqn:Hname; [|reflexivity].
  destruct (is_javascript_url (snd av)) eqn:Hjs; [|reflexivity].
  apply attribute_allowed_listed, listed_lower in Hallowed.
  apply String.eqb_eq in Hname. rewrite Hallowed in Hname.
  rewrite Hname, Hattr in Hscheme.
  unfold naughtyHref in Hscheme. rewrite (javascript_url_scheme _ Hjs) in Hscheme.
  discriminate Hscheme.
Qed.

(** The attributes allowed on an [img]. *)
Lemma img_attribute_allowed (a : string) :
  attribute_allowed sanitize_options "img" a = true ->
  mem a img_attributes = true.
Proof.
  unfold attribute_allowed, sanitize_options, mem, img_attributes; simpl.
  change (String.eqb "*" "img") with false.
  change (String.eqb "a" "img") with false.
  change (String.eqb "img" "img") with true. simpl.
  repeat match goal with
         | |- context [String.eqb a ?y] => destruct (String.eqb a y)
         end; simpl; intros H; try reflexivity; discriminate.
Qed.

End HtmlFacts.

(* ================================================================== *)
(** * The written text opens allowed tags only *)
(* ================================================================== *)

Section WritingFacts.

Import Html.

Lemma append_assoc (a b c : string) : (a +:+ b) +:+ c = a +:+ (b +:+ c).
Proof.
  induction a as [|x a IH]; [reflexivity|].
  change (String x ((a +:+ b) +:+ c) = String x (a +:+ (b +:+ c))).
  now rewrite IH.
Qed.

Lemma append_empty_r (a : string) : a +:+ EmptyString = a.
Proof.
  induction a as [|x a IH]; [reflexivity|].
  change (String x (a +:+ EmptyString) = String x a). now rewrite IH.
Qed.

Lemma no_lt_app (a b : string) : no_lt (a +:+ b) = no_lt a && no_lt b.
Proof.
  induction a as [|x a IH]; [reflexivity|].
  change (negb (Ascii.eqb x "<") && no_lt (a +:+ b)
          = negb (Ascii.eqb x "<") && no_lt a && no_lt b).
  rewrite IH. now rewrite andb_assoc.
Qed.

Lemma tag_safe_app (o : Options) (a b : string) :
  tag_safe o a -> tag_safe o b -> tag_safe o (a +:+ b).
Proof.
  intros Ha Hb. induction Ha as [|a s Hlt Hs IH|tag mid s Htag Hlt Hd Hs IH|s Hs IH].
  - exact Hb.
  - rewrite append_assoc. now apply safe_text.
  - rewrite !append_assoc. now apply safe_open.
  - rewrite append_assoc. now apply safe_close.
Qed.

Lemma tag_safe_concat (o : Options) (xs : list string) :
  Forall (tag_safe o) xs -> tag_safe o (concat_strings xs).
Proof.
  induction 1 as [|x xs Hx Hxs IH]; simpl; [constructor|].
  now apply tag_safe_app.
Qed.

Lemma tag_safe_plain (o : Options) (a : string) :
  no_lt a = true -> tag_safe o a.
Proof.
  intros H. rewrite <- (append_empty_r a). apply safe_text; [exact H|constructor].
Qed.

Lemma escapeHtml_no_lt (quote : bool) (s : string) : no_lt (escapeHtml quote s) = true.
Proof.
  induction s as [|c s IH]; [reflexivity|]. cbn [escapeHtml].
  rewrite no_lt_app, IH, andb_true_r.
  destruct (Ascii.eqb c "&"); [reflexivity|].
  destruct (Ascii.eqb c "<") eqn:E; [reflexivity|].
  destruct (Ascii.eqb c ">"); [reflexivity|].
  destruct (quote && Ascii.eqb c "034"); [reflexivity|].
  cbn [no_lt]. now rewrite E.
Qed.

Lemma listed_no_lt (a : string) :
  mem a listed_attributes = true -> no_lt a = true.
Proof.
  intros H. apply mem_In in H. simpl in H.
  intuition (subst; reflexivity).
Qed.

Lemma write_attribute_no_lt (av : string * string) :
  no_lt (fst av) = true -> no_lt (write_attribute av) = true.
Proof.
  intros H. unfold write_attribute.
  destruct (snd av) as [|c v].
  - now rewrite no_lt_app, H.
  - rewrite !no_lt_app, H, escapeHtml_no_lt. reflexivity.
Qed.

Lemma write_attribute_starts (av : string * string) :
  exists rest, write_attribute av = String " " rest.
Proof.
  unfold write_attribute. destruct (snd av); eexists; reflexivity.
Qed.

Lemma attributes_no_lt (attrs : list (string * string)) :
  forallb (fun av => no_lt (fst av)) attrs = true ->
  no_lt (concat_strings (map write_attribute attrs)) = true.
Proof.
  induction attrs as [|av attrs IH]; [reflexivity|].
  cbn [forallb map concat_strings]. rewrite andb_true_iff. intros [H1 H2].
  rewrite no_lt_app, (write_attribute_no_lt av H1). now apply IH.
Qed.

(** The text between a tag name and the content: the attributes and
    the closing of the tag. *)
Lemma middle_delimited (attrs : list (string * string)) (close : string) :
  starts_with_delimiter close = true ->
  starts_with_delimiter (concat_strings (map write_attribute attrs) +:+ close) = true.
Proof.
  intros H. destruct attrs as [|av attrs]; [exact H|].
  cbn [map concat_strings].
  destruct (write_attribute_starts av) as [rest ->]. reflexivity.
Qed.

Lemma allowed_tag_no_lt (tag : string) :
  mem tag (allowedTags sanitize_options) = true -> no_lt tag = true.
Proof.
  intros H. apply mem_In in H.
  assert (Hall : forallb no_lt (allowedTags sanitize_options) = true)
    by (vm_compute; reflexivity).
  rewrite forallb_forall in Hall. now apply Hall.
Qed.

Lemma kept_attributes_no_lt (tag : string) (attrs : list (string * string)) :
  forallb (keep_attribute sanitize_options tag) attrs = true ->
  forallb (fun av => no_lt (fst av)) attrs = true.
Proof.
  rewrite !forallb_forall. intros H av Hav. apply H in Hav.
  unfold keep_attribute in Hav. apply andb_true_iff in Hav as [Ha _].
  apply listed_no_lt. now apply (attribute_allowed_listed tag).
Qed.

Lemma write_node_safe (n : node) :
  all_elements (kept sanitize_options) n = true ->
  tag_safe sanitize_options (write_node sanitize_options n).
Proof.
  induction n as [s|s|tag attrs children IH] using node_induction; intros Hk.
  - apply tag_safe_plain. apply escapeHtml_no_lt.
  - constructor.
  - cbn [all_elements] in Hk. apply andb_true_iff in Hk as [Hkept Hkids].
    unfold kept in Hkept. apply andb_true_iff in Hkept as [Htag Hattrs].
    assert (Hinner : tag_safe sanitize_options
                       (concat_strings (map (write_node sanitize_options) children))).
    { apply tag_safe_concat. rewrite Forall_forall. intros x Hx.
      apply list_elem_of_In, in_map_iff in Hx as [c [<- Hc]].
      rewrite Forall_forall in IH. rewrite forallb_forall in Hkids.
      apply IH; [now apply list_elem_of_In | now apply Hkids]. }
    pose proof (attributes_no_lt attrs (kept_attributes_no_lt tag attrs Hattrs)) as Hmid.
    cbn [write_node]. cbv zeta.
    destruct (mem tag (selfClosing sanitize_options)).
    + rewrite !append_assoc.
      rewrite <- (append_assoc (concat_strings (map write_attribute attrs)) " />").
      apply safe_open; try assumption.
      * now rewrite no_lt_app, Hmid.
      * now apply middle_delimited.
    + rewrite !append_assoc.
      rewrite <- (append_assoc (concat_strings (map write_attribute attrs)) ">").
      apply safe_open; try assumption.
      * now rewrite no_lt_app, Hmid.
      * now apply middle_delimited.
      * apply tag_safe_app; [exact Hinner|].
        apply safe_close. apply tag_safe_plain.
        now rewrite no_lt_app, (allowed_tag_no_lt tag Htag).
Qed.

Lemma write_forest_safe (f : list node) :
  forest_all (kept sanitize_options) f = true ->
  tag_safe sanitize_options (write_forest sanitize_options f).
Proof.
  unfold forest_all, write_forest. rewrite forallb_forall. intros H.
  apply tag_safe_concat. rewrite Forall_forall. intros x Hx.
  apply list_elem_of_In, in_map_iff in Hx as [n [<- Hn]].
  apply write_node_safe. now apply H.
Qed.

Lemma toLowerCase_app (a b : string) :
  Js.toLowerCase (a +:+ b) = Js.toLowerCase a +:+ Js.toLowerCase b.
Proof.
  induction a as [|x a IH]; [reflexivity|].
  change (String (Js.lower_ascii x) (Js.toLowerCase (a +:+ b))
          = String (Js.lower_ascii x) (Js.toLowerCase a +:+ Js.toLowerCase b)).
  now rewrite IH.
Qed.

Lemma lower_is_lt (c : ascii) :
  Ascii.eqb (Js.lower_ascii c) "<" = Ascii.eqb c "<".
Proof. destruct c as [[] [] [] [] [] [] [] []]; reflexivity. Qed.

Lemma lower_is_space (c : ascii) :
  Ascii.eqb (Js.lower_ascii c) " " = Ascii.eqb c " ".
Proof. destruct c as [[] [] [] [] [] [] [] []]; reflexivity. Qed.

Lemma lower_is_gt (c : ascii) :
  Ascii.eqb (Js.lower_ascii c) ">" = Ascii.eqb c ">".
Proof. destruct c as [[] [] [] [] [] [] [] []]; reflexivity. Qed.

Lemma toLowerCase_no_lt (a : string) :
  no_lt (Js.toLowerCase a) = no_lt a.
Proof.
  induction a as [|x a IH]; [reflexivity|].
  cbn [Js.toLowerCase no_lt]. now rewrite lower_is_lt, IH.
Qed.

(** A search for a pattern that starts with [<] skips text without
    [<]. *)
Lemma includes_skips_text (p a s : string) :
  no_lt a = true ->
  Js.includes (String "<" p) (a +:+ s) = Js.includes (String "<" p) s.
Proof.
  induction a as [|x a IH]; [reflexivity|].
  cbn [no_lt]. rewrite andb_true_iff, negb_true_iff. intros [Hx Ha].
  change (String x a +:+ s) with (String x (a +:+ s)).
  cbn [Js.includes String.prefix].
  destruct (ascii_dec "<" x) as [<-|_]; [discriminate Hx|].
  now apply IH.
Qed.

Lemma allowed_tag_lower (tag : string) :
  mem tag (allowedTags sanitize_options) = true -> Js.toLowerCase tag = tag.
Proof.
  intros H. apply mem_In in H.
  assert (Hall : forallb (fun t => String.eqb (Js.toLowerCase t) t)
                         (allowedTags sanitize_options) = true)
    by (vm_compute; reflexivity).
  rewrite forallb_forall in Hall. apply Hall in H. now apply String.eqb_eq.
Qed.

(** No allowed tag, followed by a blank or by [>], starts with
    [script]. *)
Lemma allowed_tag_then_delimiter (tag : string) (d : ascii) (rest : string) :
  mem tag (allowedTags sanitize_options) = true ->
  Ascii.eqb d " " || Ascii.eqb d ">" = true ->
  String.prefix "script" (tag +:+ String d rest) = false.
Proof.
  intros H Hd. apply mem_In in H.
  apply orb_true_iff in Hd as [Hd|Hd]; apply Ascii.eqb_eq in Hd; subst d;
    cbn [allowedTags sanitize_options In] in H;
    repeat (destruct H as [<-|H]; [reflexivity|]); destruct H.
Qed.

Lemma tag_safe_no_script (s : string) :
  tag_safe sanitize_options s ->
  Js.includes "<script" (Js.toLowerCase s) = false.
Proof.
  induction 1 as [|a s Hlt Hs IH|tag mid s Htag Hlt Hd Hs IH|s Hs IH].
  - reflexivity.
  - rewrite toLowerCase_app, includes_skips_text; [exact IH|].
    now rewrite toLowerCase_no_lt.
  - rewrite !toLowerCase_app, (allowed_tag_lower tag Htag).
    change (Js.toLowerCase "<") with "<".
    change ("<" +:+ tag +:+ Js.toLowerCase mid +:+ Js.toLowerCase s)
      with (String "<" (tag +:+ Js.toLowerCase mid +:+ Js.toLowerCase s)).
    cbn [Js.includes].
    change (String.prefix "<script"
              (String "<" (tag +:+ Js.toLowerCase mid +:+ Js.toLowerCase s)))
      with (String.prefix "script" (tag +:+ Js.toLowerCase mid +:+ Js.toLowerCase s)).
    destruct mid as [|d mid]; [discriminate Hd|].
    cbn [Js.toLowerCase]. 
    change (String (Js.lower_ascii d) (Js.toLowerCase mid) +:+ Js.toLowerCase s)
      with (String (Js.lower_ascii d) (Js.toLowerCase mid +:+ Js.toLowerCase s)).
    rewrite allowed_tag_then_delimiter; [|exact Htag|].
    + rewrite (includes_skips_text "script" tag); [|now apply allowed_tag_no_lt].
      change (String (Js.lower_ascii d) (Js.toLowerCase mid +:+ Js.toLowerCase s))
        with (Js.toLowerCase (String d mid) +:+ Js.toLowerCase s).
      rewrite includes_skips_text; [exact IH|].
      now rewrite toLowerCase_no_lt.
    + cbn [starts_with_delimiter] in Hd.
      now rewrite lower_is_space, lower_is_gt.
  - rewrite toLowerCase_app.
    change (Js.toLowerCase "</" +:+ Js.toLowerCase s)
      with (String "<" (String "/" (Js.toLowerCase s))).
    cbn [Js.includes].
    change (String.prefix "<script" (String "<" (String "/" (Js.toLowerCase s))))
      with false.
    change (String.prefix "<script" (String "/" (Js.toLowerCase s))) with false.
    exact IH.
Qed.

End WritingFacts.

(* ================================================================== *)
(** * Reading and writing the key-value layer *)
(* ================================================================== *)

Section CacheFacts.

Lemma readFromCache_hit (key : string) (e : Env) (w : World) (en : CacheEntry) :
  stored_entry w key = Some en ->
  live (now e) en ->
  readFromCache key e w = (Ok (Some (payload en, staleAt en)), w).
Proof.
  unfold stored_entry, live, readFromCache, bind, caches_match, Host.lookup,
    Host.expired, response_json.
  destruct (cache w !! ("kv://" +:+ key)) as [st|]; [|discriminate].
  destruct (body (Host.stored st)) as [d|page] eqn:Hbody; [|discriminate].
  intros [= <-]. cbn [expiresAt payload staleAt].
  destruct (Host.expiresAt st) as [x|]; intros Hlive.
  - apply Z.leb_gt in Hlive. rewrite Hlive, Hbody. reflexivity.
  - rewrite Hbody. reflexivity.
Qed.

Lemma readFromCache_miss (key : string) (e : Env) (w : World) :
  Host.lookup (now e) ("kv://" +:+ key) (cache w) = None ->
  readFromCache key e w = (Ok None, w).
Proof.
  intros H. unfold readFromCache, bind, caches_match. now rewrite H.
Qed.

Lemma read_goes_upstream (request : Request) (key : string) (e : Env) (w : World) :
  goes_upstream request key e w ->
  (if shouldSkipCache request then ret None else readFromCache key) e w
  = (Ok None, w).
Proof.
  intros [H|H].
  - now rewrite H.
  - destruct (shouldSkipCache request); [reflexivity|].
    now apply readFromCache_miss.
Qed.

(** [shouldSkipCache] answers yes exactly on the requests that carry
    the directive; the header names are matched in any letter case. *)
Lemma shouldSkipCache_iff (request : Request) :
  shouldSkipCache request = true <-> carries_bypass_directive request.
Proof.
  unfold shouldSkipCache, carries_bypass_directive, has_no_cache.
  rewrite orb_true_iff.
  change (headers_get "pragma" (req_headers request))
    with (headers_get "Pragma" (req_headers request)).
  split.
  - intros [H|H]; [left|right];
      match type of H with
      | match ?x with _ => _ end = true => destruct x as [v|]; [|discriminate]
      end; now exists v.
  - intros [[v [Hv Hi]]|[v [Hv Hi]]]; [left|right]; now rewrite Hv.
Qed.

(** The response [writeToCache] stores and the expiry the host gives
    it. *)
Lemma writeToCache_run (key : string) (value : Value) (e : Env) (w : World) :
  writeToCache key value e w
  = (Ok tt,
     mkWorld (<["kv://" +:+ key :=
                  Host.mkStored
                    (mkResponse 200
                       [ ("Content-Type", "application/json");
                         ("Cache-Control", "public, max-age=172800, immutable");
                         ("Stale-At", Js.toFixed0 (now e + REVALIDATE_AFTER_MS)) ]
                       (Json value))
                    (Some (now e + 1000 * STALE_FOR_SECONDS))]> (cache w))
             (fetched w) (waiting w)).
Proof. reflexivity. Qed.

Lemma staleAt_of_written (t : Z) (value : Value) :
  staleAt_of (mkResponse 200
                [ ("Content-Type", "application/json");
                  ("Cache-Control", "public, max-age=172800, immutable");
                  ("Stale-At", Js.toFixed0 (t + REVALIDATE_AFTER_MS)) ]
                (Json value))
  = Js.Num (t + REVALIDATE_AFTER_MS).
Proof.
  unfold staleAt_of.
  change (headers_get "Stale-At" _)
    with (Some (Js.toFixed0 (t + REVALIDATE_AFTER_MS))).
  pose proof (Number_toFixed0 (t + REVALIDATE_AFTER_MS)) as H.
  destruct (Js.toFixed0 (t + REVALIDATE_AFTER_MS)); [|exact H].
  simpl in H. exact H.
Qed.

(** The entry a write leaves under its key. *)
Lemma stored_entry_written (key : string) (value : Value) (e : Env) (w : World) :
  stored_entry (snd (writeToCache key value e w)) key
  = Some (mkCacheEntry value
                       (Js.Num (now e + REVALIDATE_AFTER_MS))
                       (Some (now e + 1000 * STALE_FOR_SECONDS))).
Proof.
  rewrite writeToCache_run. unfold stored_entry. cbn [snd cache].
  rewrite lookup_insert_eq. cbn [Host.stored body Host.expiresAt].
  now rewrite staleAt_of_written.
Qed.

(** A write under one key leaves the other keys alone. *)
Lemma stored_entry_other (key key' : string) (value : Value) (e : Env) (w : World) :
  key <> key' ->
  stored_entry (snd (writeToCache key value e w)) key' = stored_entry w key'.
Proof.
  intros Hne. rewrite writeToCache_run. unfold stored_entry. cbn [snd cache].
  rewrite lookup_insert_ne; [reflexivity|].
  intros H. apply Hne. simpl in H. now injection H.
Qed.

End CacheFacts.

(* ================================================================== *)
(** * The producers and the two cache-backed operations *)
(* ================================================================== *)

Section HandlerFacts.

Context (lib : Libraries).

Lemma createNewCacheEntry_run (u : URL) (e : Env) (w : World) :
  createNewCacheEntry lib u e w
  = match upstream e (raw_content_url u) with
    | Some r =>
        (Ok (if ok r then Some (parseMarkdown lib (text r)) else None),
         with_fetch (raw_content_url u) w)
    | None => (Throw, with_fetch (raw_content_url u) w)
    end.
Proof.
  unfold createNewCacheEntry, bind, fetch, with_fetch.
  destruct (upstream e (raw_content_url u)) as [r|]; [|reflexivity].
  destruct (ok r); reflexivity.
Qed.

Lemma createNewFilesCacheEntry_run (user repo rev : string) (e : Env) (w : World) :
  let u := "https://api.github.com/repos/" +:+ user +:+ "/" +:+ repo
           +:+ "/git/trees/" +:+ rev +:+ "?recursive=1" in
  createNewFilesCacheEntry user repo rev e w
  = match upstream e u with
    | Some r =>
        if ok r
        then match tree_json r with
             | Some content =>
                 (Ok (Some (mkCachedFiles (content_sha content)
                                          (Listing.collect (content_tree content)))),
                  with_fetch u w)
             | None => (Throw, with_fetch u w)
             end
        else (Ok None, with_fetch u w)
    | None => (Throw, with_fetch u w)
    end.
Proof.
  intros u. unfold createNewFilesCacheEntry, bind, fetch, with_fetch. fold u.
  destruct (upstream e u) as [r|]; [|reflexivity].
  destruct (ok r); [|reflexivity].
  destruct (tree_json r); reflexivity.
Qed.

(** A read that finds a live entry answers with its payload, and hands
    one regeneration to [ctx.waitUntil] when [staleAt < now]. *)
Lemma renderMarkdown_hit (request : Request) (e : Env) (w : World) (en : CacheEntry) :
  shouldSkipCache request = false ->
  stored_entry w (markdown_key request) = Some en ->
  live (now e) en ->
  renderMarkdown lib request e w
  = (Ok (data_response (payload en)),
     if Js.lt (staleAt en) (Js.Num (now e))
     then with_task (markdown_regeneration request) w
     else w).
Proof.
  intros Hskip Hen Hlive.
  unfold renderMarkdown, bind, Date_now. rewrite Hskip.
  fold (markdown_key request).
  rewrite (readFromCache_hit _ _ _ _ Hen Hlive).
  destruct (Js.lt (staleAt en) (Js.Num (now e))); reflexivity.
Qed.

Lemma renderFiles_hit (request : Request) (e : Env) (w : World) (en : CacheEntry) :
  shouldSkipCache request = false ->
  stored_entry w (files_key request) = Some en ->
  live (now e) en ->
  renderFiles request e w
  = (Ok (data_response (payload en)),
     if Js.lt (staleAt en) (Js.Num (now e))
     then with_task (files_regeneration request) w
     else w).
Proof.
  intros Hskip Hen Hlive.
  unfold renderFiles, bind, Date_now. rewrite Hskip.
  fold (files_key request).
  rewrite (readFromCache_hit _ _ _ _ Hen Hlive).
  destruct (Js.lt (staleAt en) (Js.Num (now e))); reflexivity.
Qed.

(** A read that goes to upstream answers with what it produced and
    hands the write to [ctx.waitUntil], or answers not-found. *)
Lemma renderMarkdown_miss (request : Request) (e : Env) (w : World) (r : FetchResponse) :
  goes_upstream request (markdown_key request) e w ->
  upstream e (raw_content_url (url request)) = Some r ->
  renderMarkdown lib request e w
  = if ok r
    then (Ok (data_response (VData (parseMarkdown lib (text r)))),
          with_task (WriteToCache (markdown_key request)
                                  (VData (parseMarkdown lib (text r))))
                    (with_fetch (raw_content_url (url request)) w))
    else (Ok not_found_response, with_fetch (raw_content_url (url request)) w).
Proof.
  intros Hup Hr.
  unfold renderMarkdown, bind at 1 2, Date_now.
  fold (markdown_key request).
  rewrite (read_goes_upstream _ _ _ _ Hup).
  unfold bind at 1 2. rewrite createNewCacheEntry_run, Hr.
  destruct (ok r); reflexivity.
Qed.

Lemma renderFiles_miss_ok (request : Request) (e : Env) (w : World)
    (r : FetchResponse) (content : TreeContent) :
  goes_upstream request (files_key request) e w ->
  upstream e (tree_url request) = Some r ->
  ok r = true ->
  tree_json r = Some content ->
  renderFiles request e w
  = let fresh := VFiles (mkCachedFiles (content_sha content)
                                       (Listing.collect (content_tree content))) in
    (Ok (data_response fresh),
     with_task (WriteToCache (files_key request) fresh)
               (with_fetch (tree_url request) w)).
Proof.
  intros Hup Hr Hok Hc.
  unfold renderFiles, bind at 1 2, Date_now.
  fold (files_key request).
  rewrite (read_goes_upstream _ _ _ _ Hup).
  unfold bind at 1 2. rewrite createNewFilesCacheEntry_run.
  fold (tree_url request). rewrite Hr, Hok, Hc. reflexivity.
Qed.

Lemma renderFiles_miss_not_ok (request : Request) (e : Env) (w : World)
    (r : FetchResponse) :
  goes_upstream request (files_key request) e w ->
  upstream e (tree_url request) = Some r ->
  ok r = false ->
  renderFiles request e w
  = (Ok not_found_response, with_fetch (tree_url request) w).
Proof.
  intros Hup Hr Hok.
  unfold renderFiles, bind at 1 2, Date_now.
  fold (files_key request).
  rewrite (read_goes_upstream _ _ _ _ Hup).
  unfold bind at 1 2. rewrite createNewFilesCacheEntry_run.
  fold (tree_url request). rewrite Hr, Hok. reflexivity.
Qed.

(** ** The tasks *)

Lemma world_eta (w : World) :
  waiting w = [] -> mkWorld (cache w) (fetched w) [] = w.
Proof. destruct w as [c f ts]; simpl; intros ->; reflexivity. Qed.

(** With nothing else waiting, settling after one more task runs that
    task. *)
Lemma settle_with_task (t : Task) (e : Env) (w : World) :
  waiting w = [] ->
  settle lib e (with_task t w) = snd (run_task lib t e w).
Proof.
  intros Hw. unfold settle, with_task. cbn [waiting cache fetched].
  rewrite Hw. cbn [app fold_left]. now rewrite (world_eta w Hw).
Qed.

Lemma settle_nothing (e : Env) (w : World) :
  waiting w = [] -> settle lib e w = w.
Proof.
  intros Hw. unfold settle. rewrite Hw. cbn [fold_left]. now apply world_eta.
Qed.

(** A regeneration makes exactly one upstream request, whatever comes
    of it. *)
Lemma regenerate_markdown_fetches_once (key : string) (u : URL) (e : Env) (w : World) :
  fetched (snd (run_task lib (RegenerateMarkdown key u) e w))
  = fetched w ++ [raw_content_url u].
Proof.
  unfold run_task, bind. rewrite createNewCacheEntry_run.
  destruct (upstream e (raw_content_url u)) as [r|]; [|reflexivity].
  destruct (ok r); reflexivity.
Qed.

Lemma regenerate_files_fetches_once (key user repo rev : string) (e : Env) (w : World) :
  fetched (snd (run_task lib (RegenerateFiles key user repo rev) e w))
  = fetched w ++ ["https://api.github.com/repos/" +:+ user +:+ "/" +:+ repo
                  +:+ "/git/trees/" +:+ rev +:+ "?recursive=1"].
Proof.
  unfold run_task, bind. rewrite createNewFilesCacheEntry_run.
  match goal with |- context [upstream e ?u] => destruct (upstream e u) as [r|] end;
    [|reflexivity].
  destruct (ok r); [|reflexivity].
  destruct (tree_json r); reflexivity.
Qed.

(** A regeneration whose producer comes back with nothing (a
    non-success status) or throws does not touch the cache. *)
Lemma regenerate_markdown_failed (key : string) (u : URL) (e : Env) (w : World) :
  match upstream e (raw_content_url u) with
  | Some r => ok r = false
  | None => True
  end ->
  cache (snd (run_task lib (RegenerateMarkdown key u) e w)) = cache w.
Proof.
  unfold run_task, bind. rewrite createNewCacheEntry_run.
  destruct (upstream e (raw_content_url u)) as [r|]; [|reflexivity].
  intros ->. reflexivity.
Qed.

Lemma regenerate_files_failed (key user repo rev : string) (e : Env) (w : World) :
  match upstream e ("https://api.github.com/repos/" +:+ user +:+ "/" +:+ repo
                    +:+ "/git/trees/" +:+ rev +:+ "?recursive=1") with
  | Some r => ok r = false
  | None => True
  end ->
  cache (snd (run_task lib (RegenerateFiles key user repo rev) e w)) = cache w.
Proof.
  unfold run_task, bind. rewrite createNewFilesCacheEntry_run.
  match goal with |- context [upstream e ?u] => destruct (upstream e u) as [r|] end;
    [|reflexivity].
  intros ->. reflexivity.
Qed.

Lemma stored_entry_same_cache (w w' : World) (key : string) :
  cache w' = cache w -> stored_entry w' key = stored_entry w key.
Proof. unfold stored_entry. now intros ->. Qed.

End HandlerFacts.

(* ================================================================== *)
(** * handleFetch *)
(* ================================================================== *)

Section DispatchFacts.

Context (lib : Libraries).

Lemma handleFetch_renders (request : Request) (e : Env) (w w' : World)
    (response : Response) :
  passes_response_cache request e w ->
  render lib request e w = (Ok response, w') ->
  handleFetch lib request e w
  = (Ok response, with_task (PutResponse (href (url request)) response) w').
Proof.
  intros Hpass Hrender.
  assert (Hfound : (if shouldSkipCache request then ret None
                    else caches_match (href (url request))) e w = (Ok None, w)).
  { destruct Hpass as [H|H].
    - now rewrite H.
    - destruct (shouldSkipCache request); [reflexivity|].
      unfold caches_match. now rewrite H. }
  unfold handleFetch, try_catch, bind at 1. rewrite Hfound.
  unfold bind at 1. fold (render lib request). rewrite Hrender. reflexivity.
Qed.

(** The response cache answers first when it has the URL. *)
Lemma handleFetch_found (request : Request) (e : Env) (w : World)
    (response : Response) :
  shouldSkipCache request = false ->
  Host.lookup (now e) (href (url request)) (cache w) = Some response ->
  handleFetch lib request e w = (Ok response, w).
Proof.
  intros Hskip Hfound.
  unfold handleFetch, try_catch, bind, caches_match. now rewrite Hskip, Hfound.
Qed.

(** A request URL is not a key of the key-value layer. *)
Lemma href_not_kv (u : URL) (key : string) :
  Js.startsWith "http" (origin u) = true ->
  href u <> "kv://" +:+ key.
Proof.
  unfold Js.startsWith, href.
  destruct (origin u) as [|c o]; cbn [String.prefix]; [discriminate|].
  destruct (ascii_dec "h" c) as [<-|]; [|discriminate].
  intros _ H. discriminate H.
Qed.

(** Storing a response under a request URL leaves the key-value
    entries as they were. *)
Lemma put_response_keeps_entries (request : Request) (response : Response)
    (e : Env) (w : World) (key : string) :
  Js.startsWith "http" (origin (url request)) = true ->
  stored_entry (snd (run_task lib (PutResponse (href (url request)) response) e w)) key
  = stored_entry w key.
Proof.
  intros Hhttp. unfold run_task, caches_put, stored_entry, Host.put.
  cbn [snd cache].
  destruct (headers_get "Cache-Control" (headers response)) as [cc|].
  - destruct (Host.forbids_storing cc); [reflexivity|].
    destruct (Host.max_age cc); [|reflexivity].
    rewrite lookup_insert_ne; [reflexivity | now apply href_not_kv].
  - reflexivity.
Qed.

End DispatchFacts.

(* ================================================================== *)
(** * The stale-while-revalidate reads *)
(* ================================================================== *)

Section ReadFacts.

Context (lib : Libraries).

(** C7. A read without a bypass directive that finds an entry with
    [now < staleAt] answers with the cached payload and leaves the
    world as it was: no upstream request is logged, nothing is handed
    to [ctx.waitUntil], the cache is untouched. The same holds of
    [renderMarkdown] and of [renderFiles]. *)
Theorem fresh_read_touches_nothing
    (request : Request) (e : Env) (w : World) (en : CacheEntry) (s : Z) :
  shouldSkipCache request = false ->
  staleAt en = Js.Num s ->
  now e < s ->
  live (now e) en ->
  (stored_entry w (markdown_key request) = Some en ->
   renderMarkdown lib request e w = (Ok (data_response (payload en)), w))
  /\ (stored_entry w (files_key request) = Some en ->
      renderFiles request e w = (Ok (data_response (payload en)), w)).
Proof.
  intros Hskip Hs Hlt Hlive.
  assert (Hfresh : Js.lt (staleAt en) (Js.Num (now e)) = false).
  { rewrite Hs. simpl. apply Z.ltb_ge. lia. }
  split; intros Hen.
  - rewrite (renderMarkdown_hit lib request e w en Hskip Hen Hlive).
    now rewrite Hfresh.
  - rewrite (renderFiles_hit request e w en Hskip Hen Hlive).
    now rewrite Hfresh.
Qed.

(** C3, as the code has it. A read without a bypass directive that
    finds a live entry with [staleAt < now] answers with the old
    payload, and what it leaves behind is the world it found plus one
    task: it made no upstream request and did not write. Running that
    task makes exactly one upstream request. *)
Theorem stale_read_serves_old_and_regenerates_once
    (request : Request) (e e' : Env) (w : World) (en : CacheEntry) (s : Z) :
  shouldSkipCache request = false ->
  staleAt en = Js.Num s ->
  s < now e ->
  live (now e) en ->
  waiting w = [] ->
  (stored_entry w (markdown_key request) = Some en ->
   renderMarkdown lib request e w
   = (Ok (data_response (payload en)),
      mkWorld (cache w) (fetched w) [markdown_regeneration request])
   /\ fetched (settle lib e' (snd (renderMarkdown lib request e w)))
      = fetched w ++ [raw_content_url (url request)])
  /\ (stored_entry w (files_key request) = Some en ->
      renderFiles request e w
      = (Ok (data_response (payload en)),
         mkWorld (cache w) (fetched w) [files_regeneration request])
      /\ fetched (settle lib e' (snd (renderFiles request e w)))
         = fetched w ++ [tree_url request]).
Proof.
  intros Hskip Hs Hlt Hlive Hw.
  assert (Hstale : Js.lt (staleAt en) (Js.Num (now e)) = true).
  { rewrite Hs. simpl. apply Z.ltb_lt. lia. }
  split; intros Hen.
  - rewrite (renderMarkdown_hit lib request e w en Hskip Hen Hlive), Hstale.
    split.
    + unfold with_task. now rewrite Hw.
    + cbn [snd]. rewrite (settle_with_task lib _ e' w Hw).
      apply regenerate_markdown_fetches_once.
  - rewrite (renderFiles_hit request e w en Hskip Hen Hlive), Hstale.
    split.
    + unfold with_task. now rewrite Hw.
    + cbn [snd]. rewrite (settle_with_task lib _ e' w Hw).
      apply regenerate_files_fetches_once.
Qed.

(** C4. A stale read whose regeneration fails, because the producer
    comes back with nothing, has answered with the old payload, and the
    cache after the task has run is the cache before the read: the
    entry is the one that was there, and a later read still finds
    it. *)
Theorem failed_regeneration_leaves_entry
    (request : Request) (e e' : Env) (w : World) (en : CacheEntry) (s : Z)
    (r : FetchResponse) :
  shouldSkipCache request = false ->
  staleAt en = Js.Num s ->
  s < now e ->
  live (now e) en ->
  waiting w = [] ->
  ok r = false ->
  (stored_entry w (markdown_key request) = Some en ->
   upstream e' (raw_content_url (url request)) = Some r ->
   let after := settle lib e' (snd (renderMarkdown lib request e w)) in
   fst (renderMarkdown lib request e w) = Ok (data_response (payload en))
   /\ cache after = cache w
   /\ stored_entry after (markdown_key request) = Some en
   /\ (live (now e') en ->
       readFromCache (markdown_key request) e' after
       = (Ok (Some (payload en, staleAt en)), after)))
  /\ (stored_entry w (files_key request) = Some en ->
      upstream e' (tree_url request) = Some r ->
      let after := settle lib e' (snd (renderFiles request e w)) in
      fst (renderFiles request e w) = Ok (data_response (payload en))
      /\ cache after = cache w
      /\ stored_entry after (files_key request) = Some en
      /\ (live (now e') en ->
          readFromCache (files_key request) e' after
          = (Ok (Some (payload en, staleAt en)), after))).
Proof.
  intros Hskip Hs Hlt Hlive Hw Hok.
  assert (Hstale : Js.lt (staleAt en) (Js.Num (now e)) = true).
  { rewrite Hs. simpl. apply Z.ltb_lt. lia. }
  split; intros Hen Hup after.
  - assert (Hcache : cache after = cache w).
    { unfold after.
      rewrite (renderMarkdown_hit lib request e w en Hskip Hen Hlive), Hstale.
      cbn [snd]. rewrite (settle_with_task lib _ e' w Hw).
      apply regenerate_markdown_failed. now rewrite Hup. }
    assert (Hafter : stored_entry after (markdown_key request) = Some en).
    { now rewrite (stored_entry_same_cache w after _ Hcache). }
    repeat split; try assumption.
    + now rewrite (renderMarkdown_hit lib request e w en Hskip Hen Hlive).
    + intros Hl. now apply readFromCache_hit.
  - assert (Hcache : cache after = cache w).
    { unfold after.
      rewrite (renderFiles_hit request e w en Hskip Hen Hlive), Hstale.
      cbn [snd]. rewrite (settle_with_task lib _ e' w Hw).
      apply regenerate_files_failed. fold (tree_url request). now rewrite Hup. }
    assert (Hafter : stored_entry after (files_key request) = Some en).
    { now rewrite (stored_entry_same_cache w after _ Hcache). }
    repeat split; try assumption.
    + now rewrite (renderFiles_hit request e w en Hskip Hen Hlive).
    + intros Hl. now apply readFromCache_hit.
Qed.


End ReadFacts.

(* ================================================================== *)
(** * The producers, the writes and the transform *)
(* ================================================================== *)

Section TransformFacts.

Context (lib : Libraries).

(** C5. Every write stamps the entry it creates with
    [staleAt = now + REVALIDATE_AFTER_MS] (five minutes) and the host
    gives it [expiresAt = now + 1000 * STALE_FOR_SECONDS] (two days), so
    that [staleAt < expiresAt] when the entry is created. *)
Theorem written_entry_is_stale_before_it_expires
    (key : string) (value : Value) (e : Env) (w : World) :
  exists en : CacheEntry,
    stored_entry (snd (writeToCache key value e w)) key = Some en
    /\ payload en = value
    /\ staleAt en = Js.Num (now e + REVALIDATE_AFTER_MS)
    /\ expiresAt en = Some (now e + 1000 * STALE_FOR_SECONDS)
    /\ now e + REVALIDATE_AFTER_MS < now e + 1000 * STALE_FOR_SECONDS
    /\ REVALIDATE_AFTER_MS = 300000
    /\ 1000 * STALE_FOR_SECONDS = 172800000.
Proof.
  eexists. split; [apply stored_entry_written|].
  cbn [payload staleAt expiresAt].
  repeat split; unfold REVALIDATE_AFTER_MS, STALE_FOR_SECONDS; lia.
Qed.

(** C8. The listing producer keeps exactly the blobs whose path ends in
    [.md] in any letter case, maps each to [{path, sha}] and keeps the
    upstream order: what the reducer collects is the specification's
    filter-then-map, and that is what [createNewFilesCacheEntry] returns
    with the [sha] of the tree. On the tree of the specification's
    example, [README.md] and [README.MD] are kept and [src/index.ts] and
    [docs/a.markdown] are not. *)
Theorem listing_keeps_markdown_blobs_in_order :
  (forall tree, Listing.collect tree = Listing.listing_spec tree)
  /\ (forall user repo rev e w,
        fst (createNewFilesCacheEntry user repo rev e w)
        = match upstream e ("https://api.github.com/repos/" +:+ user +:+ "/"
                            +:+ repo +:+ "/git/trees/" +:+ rev +:+ "?recursive=1")
          with
          | Some r =>
              if ok r
              then match tree_json r with
                   | Some content =>
                       Ok (Some (mkCachedFiles
                                   (content_sha content)
                                   (Listing.listing_spec (content_tree content))))
                   | None => Throw
                   end
              else Ok None
          | None => Throw
          end)
  /\ Listing.collect Scenario.example_tree
     = [mkCachedFile "README.md" "a1"; mkCachedFile "README.MD" "b2"].
Proof.
  split; [exact collect_is_listing_spec|]. split; [|reflexivity].
  intros user repo rev e w.
  rewrite createNewFilesCacheEntry_run. cbv zeta.
  match goal with |- context [upstream e ?u] => destruct (upstream e u) as [r|] end;
    [|reflexivity].
  destruct (ok r); [|reflexivity].
  destruct (tree_json r) as [content|]; [|reflexivity].
  cbn [fst]. now rewrite collect_is_listing_spec.
Qed.

(** C9. For every markdown input, the tree of the sanitized HTML has no
    [script] element, and no [href] of it (nor any [src]) holds a
    [javascript:] URL, at any depth: no value that a browser would read
    as one, whatever the letter case and the blanks, tabs and newlines
    it is spelled with. The [html] of the result is that tree written
    out, and no tag of that text opens a [script], in any letter case.
    The last part shows the two readings at work on the hostile tree
    of the scenario. *)
Theorem sanitized_html_has_no_script_nor_javascript_link (markdown : string) :
  html (parseMarkdown lib markdown)
  = Html.write_forest sanitize_options (parseMarkdown_tree lib markdown)
  /\ Html.has_element "script" (parseMarkdown_tree lib markdown) = false
  /\ Html.has_javascript_link "href" (parseMarkdown_tree lib markdown) = false
  /\ Html.has_javascript_link "src" (parseMarkdown_tree lib markdown) = false
  /\ Js.includes "<script" (Js.toLowerCase (html (parseMarkdown lib markdown))) = false
  /\ (Html.is_javascript_url "JavaScript:alert(1)" = true
      /\ Html.is_javascript_url (" java" +:+ String "009" "script:alert(1)") = true
      /\ Html.is_javascript_url "https://example.com/?next=javascript:" = false
      /\ Html.has_element "script" Scenario.hostile_tree = true
      /\ Html.has_javascript_link "href" Scenario.hostile_tree = true
      /\ Html.sanitize_forest sanitize_options Scenario.hostile_tree
         = [ Html.Element "div" []
               [ Html.Element "p" [] [ Html.Element "a" [] [Html.Text "x"] ] ] ]).
Proof.
  split; [reflexivity|].
  pose proof (sanitize_forest_kept sanitize_options
                (read_html lib (Html.enforceHtmlBoundary sanitize_options)
                           (rendered lib markdown))) as Hkept.
  fold (sanitize_tree lib sanitize_options (rendered lib markdown)) in Hkept.
  fold (parseMarkdown_tree lib markdown) in Hkept.
  assert (Hlink : forall attr,
             Html.mem attr (Html.allowedSchemesAppliedToAttributes sanitize_options)
             = true ->
             Html.has_javascript_link attr (parseMarkdown_tree lib markdown) = false).
  { intros attr Hattr. unfold Html.has_javascript_link. apply negb_false_iff.
    revert Hkept. apply forest_all_impl. intros tag attrs Hk.
    unfold Html.kept in Hk. apply andb_true_iff in Hk as [_ Hattrs].
    rewrite forallb_forall in Hattrs. apply forallb_forall. intros av Hav.
    apply negb_true_iff. apply (kept_attribute_not_javascript tag attr av Hattr).
    now apply Hattrs. }
  split; [|split; [|split; [|split]]].
  - unfold Html.has_element. apply negb_false_iff.
    revert Hkept. apply forest_all_impl. intros tag attrs Hk.
    unfold Html.kept in Hk. apply andb_true_iff in Hk as [Htag _].
    apply negb_true_iff. now apply allowed_tag_not_script.
  - now apply Hlink.
  - now apply Hlink.
  - apply tag_safe_no_script.
    change (html (parseMarkdown lib markdown))
      with (Html.write_forest sanitize_options (parseMarkdown_tree lib markdown)).
    now apply write_forest_safe.
  - repeat split; vm_compute; reflexivity.
Qed.

(** C1, as the code has it. [img] is on the list of allowed tags: the
    sanitizer keeps an [img] element, with those of its attributes that
    pass the filter, and every [img] of the sanitized tree carries only
    attributes among src, srcset, alt, title, width, height, loading,
    class, id and style. *)
Theorem img_is_allowed_and_kept :
  Html.mem "img" (Html.allowedTags sanitize_options) = true
  /\ (forall attrs children,
        Html.sanitize_node sanitize_options (Html.Element "img" attrs children)
        = [Html.Element "img"
             (Html.filter_attributes sanitize_options "img" attrs)
             (flat_map (Html.sanitize_node sanitize_options) children)])
  /\ (forall markdown,
        Html.forest_all img_well_formed (parseMarkdown_tree lib markdown) = true).
Proof.
  split; [reflexivity|]. split; [reflexivity|].
  intros markdown.
  pose proof (sanitize_forest_kept sanitize_options
                (read_html lib (Html.enforceHtmlBoundary sanitize_options)
                           (rendered lib markdown))) as Hkept.
  fold (sanitize_tree lib sanitize_options (rendered lib markdown)) in Hkept.
  fold (parseMarkdown_tree lib markdown) in Hkept.
  revert Hkept. apply forest_all_impl. intros tag attrs Hk.
  unfold Html.kept in Hk. apply andb_true_iff in Hk as [_ Hattrs].
  unfold img_well_formed.
  destruct (String.eqb_spec tag "img") as [->|]; [|reflexivity].
  cbn [negb orb]. rewrite forallb_forall in Hattrs. apply forallb_forall.
  intros av Hav. apply Hattrs in Hav.
  unfold Html.keep_attribute in Hav. apply andb_true_iff in Hav as [Hallowed _].
  now apply img_attribute_allowed.
Qed.

End TransformFacts.

(* ================================================================== *)
(** * A failed upstream request *)
(* ================================================================== *)

Section NotFound.

Context (lib : Libraries).




End NotFound.

(* ================================================================== *)
(** * The theorems at work on the scenario *)
(* ================================================================== *)

Section Instances.

Import Scenario.

(** C7 on the scenario: at time 5000 the entry written at time 1000 is
    fresh. *)
Lemma fresh_read_witness :
  renderMarkdown lib doc_request (up 5000) warm_world
  = (Ok (data_response (VData old_data)), warm_world).
Proof.
  refine (proj1 (fresh_read_touches_nothing
                   lib doc_request (up 5000) warm_world old_doc_entry 301000
                   _ _ _ _) _);
    vm_compute; reflexivity.
Defined.

(** C3 on the scenario: one millisecond past the deadline. *)
Lemma stale_read_witness :
  renderMarkdown lib doc_request (up 301001) warm_world
  = (Ok (data_response (VData old_data)),
     mkWorld (cache warm_world) [] [markdown_regeneration doc_request])
  /\ fetched (settle lib (up 301002)
                     (snd (renderMarkdown lib doc_request (up 301001) warm_world)))
     = ["https://raw.githubusercontent.com/u/r/main/README.md"].
Proof.
  refine (proj1 (stale_read_serves_old_and_regenerates_once
                   lib doc_request (up 301001) (up 301002) warm_world
                   old_doc_entry 301000 _ _ _ _ _) _);
    vm_compute; reflexivity.
Defined.

(** What C3 says of the boundary fails: at [now = staleAt] the entry of
    the scenario is served and nothing is handed to [ctx.waitUntil]. *)
Lemma boundary_read_does_not_regenerate :
  shouldSkipCache doc_request = false
  /\ stored_entry warm_world (markdown_key doc_request) = Some old_doc_entry
  /\ staleAt old_doc_entry = Js.Num (now (up 301000))
  /\ live (now (up 301000)) old_doc_entry
  /\ renderMarkdown lib doc_request (up 301000) warm_world
     = (Ok (data_response (VData old_data)), warm_world)
  /\ waiting (snd (renderMarkdown lib doc_request (up 301000) warm_world)) = [].
Proof. repeat split; vm_compute; reflexivity. Qed.

(** C4 on the scenario: the regeneration finds upstream down. *)
Lemma failed_regeneration_witness :
  let after := settle lib (down 301002)
                      (snd (renderMarkdown lib doc_request (up 301001) warm_world)) in
  fst (renderMarkdown lib doc_request (up 301001) warm_world)
  = Ok (data_response (VData old_data))
  /\ cache after = cache warm_world
  /\ stored_entry after (markdown_key doc_request) = Some old_doc_entry
  /\ (live (now (down 301002)) old_doc_entry ->
      readFromCache (markdown_key doc_request) (down 301002) after
      = (Ok (Some (payload old_doc_entry, staleAt old_doc_entry)), after)).
Proof.
  refine (proj1 (failed_regeneration_leaves_entry
                   lib doc_request (up 301001) (down 301002) warm_world
                   old_doc_entry 301000
                   (mkFetchResponse false "404: Not Found" None)
                   _ _ _ _ _ _) _ _);
    vm_compute; reflexivity.
Defined.



(** After the failed request of the scenario the next request for the
    document, made when upstream serves it, is not answered from any
    cache: it goes to upstream and gets the document, and the page
    routes keep no trace of a failure either, their answer being marked
    [no-cache]. *)
Example request_after_failure_goes_upstream :
  fetched after_failure = [raw_content_url doc_url]
  /\ fst (handleFetch lib doc_request (up 6000) after_failure)
     = Ok (data_response (VData fresh_data))
  /\ fetched (snd (handleFetch lib doc_request (up 6000) after_failure))
     = [raw_content_url doc_url; raw_content_url doc_url]
  /\ cache (settle lib (down 5000)
                   (snd (handleFetch lib docs_request (down 5000) empty_world)))
     = cache empty_world.
Proof. repeat split; vm_compute; reflexivity. Qed.

(** What C1 says fails: the markdown of an image comes out of the
    transform with its [img] element. *)
Lemma image_markdown_keeps_img :
  Html.mem "img" (Html.allowedTags sanitize_options) = true
  /\ parseMarkdown_tree lib image_markdown
     = [ Html.Element "p" []
           [ Html.Element "img"
               [("src", "https://example.com/logo.png"); ("alt", "logo")] [] ] ]
  /\ Html.has_element "img" (parseMarkdown_tree lib image_markdown) = true
  /\ Js.includes "<img" (html (parseMarkdown lib image_markdown)) = true.
Proof. repeat split; vm_compute; reflexivity. Qed.

(** The scheme reader on values that hide their scheme: in capitals,
    behind blanks, with a tab or a comment inside. None of them is
    kept on a link; a relative path and an [https] URL are. *)
Example hidden_schemes_are_read :
  Html.url_scheme " JaVaScRiPt:alert(1)" = Some "javascript"
  /\ Html.url_scheme ("java" +:+ String "009" "script:alert(1)") = Some "javascript"
  /\ Html.url_scheme "java<!-- -->script:alert(1)" = Some "javascript"
  /\ Html.clean_href "a <!--b--><!--c-->d<!--e" = "ad<!--e"
  /\ Html.sanitize_forest sanitize_options
       [ Html.Element "a" [("href", "java<!-- -->script:alert(1)")] [Html.Text "x"];
         Html.Element "a" [("href", "data:text/html,x")] [Html.Text "y"];
         Html.Element "a" [("href", "/docs/a.md")] [Html.Text "z"];
         Html.Element "a" [("href", "https://example.com/")] [Html.Text "w"] ]
     = [ Html.Element "a" [] [Html.Text "x"];
         Html.Element "a" [] [Html.Text "y"];
         Html.Element "a" [("href", "/docs/a.md")] [Html.Text "z"];
         Html.Element "a" [("href", "https://example.com/")] [Html.Text "w"] ].
Proof. repeat split; vm_compute; reflexivity. Qed.

(** C9 on the scenario: a script and a javascript link nested in a
    paragraph of a division are gone from the result, and the link
    keeps its text. *)
Example hostile_document_is_cleaned :
  html (parseMarkdown lib hostile_html) = "<div><p><a>x</a></p></div>".
Proof. vm_compute; reflexivity. Qed.

End Instances.

(* ================================================================== *)
(** * What the handlers add to the world before they answer *)
(* ================================================================== *)

Section EffectFacts.

Context (lib : Libraries).

Lemma grown_refl (w : World) : grown w w [] [].
Proof. unfold grown. now rewrite !app_nil_r. Qed.

Lemma grown_trans (w w' w'' : World) (f f' : list string) (ts ts' : list Task) :
  grown w w' f ts -> grown w' w'' f' ts' -> grown w w'' (f ++ f') (ts ++ ts').
Proof.
  intros (Hc & Hf & Ht) (Hc' & Hf' & Ht'). unfold grown.
  rewrite Hc', Hc, Hf', Hf, Ht', Ht, !app_assoc. auto.
Qed.

Lemma adds_weaken {A : Type} (m : M A) (a b a' b' : nat) (P Q : Task -> Prop) :
  adds m a b P ->
  (a <= a')%nat -> (b <= b')%nat -> (forall t, P t -> Q t) ->
  adds m a' b' Q.
Proof.
  intros Hm Ha Hb HPQ e w. destruct (Hm e w) as (f & ts & Hg & Hf & Ht & HP).
  exists f, ts. split; [exact Hg|]. split; [lia|]. split; [lia|].
  exact (List.Forall_impl Q HPQ HP).
Qed.

(** A computation that changes nothing. *)
Lemma adds_silent {A : Type} (m : M A) (P : Task -> Prop) :
  (forall e w, snd (m e w) = w) -> adds m 0 0 P.
Proof.
  intros H e w. exists [], []. rewrite H.
  split; [apply grown_refl|]. simpl. auto.
Qed.

Lemma adds_ret {A : Type} (x : A) (P : Task -> Prop) : adds (ret x) 0 0 P.
Proof. now apply adds_silent. Qed.

Lemma adds_throw {A : Type} (P : Task -> Prop) : adds (@throw A) 0 0 P.
Proof. now apply adds_silent. Qed.

Lemma adds_Date_now (P : Task -> Prop) : adds Date_now 0 0 P.
Proof. now apply adds_silent. Qed.

Lemma adds_caches_match (u : string) (P : Task -> Prop) : adds (caches_match u) 0 0 P.
Proof. now apply adds_silent. Qed.

Lemma adds_response_json (r : Response) (P : Task -> Prop) :
  adds (response_json r) 0 0 P.
Proof. apply adds_silent. intros e w. unfold response_json. now destruct (body r). Qed.

Lemma adds_fetch (u : string) (P : Task -> Prop) : adds (fetch u) 1 0 P.
Proof.
  intros e w. exists [u], []. unfold fetch, grown.
  destruct (upstream e u); cbn [snd cache fetched waiting];
    rewrite app_nil_r; simpl; auto.
Qed.

Lemma adds_waitUntil (t : Task) (P : Task -> Prop) :
  P t -> adds (waitUntil t) 0 1 P.
Proof.
  intros Ht e w. exists [], [t]. unfold waitUntil, grown.
  cbn [snd cache fetched waiting]. rewrite app_nil_r. simpl. auto 10.
Qed.

(** Sequencing adds up. *)
Lemma adds_bind {A B : Type} (m : M A) (k : A -> M B) (a b c d : nat)
    (P : Task -> Prop) :
  adds m a b P ->
  (forall x, adds (k x) c d P) ->
  adds (bind m k) (a + c) (b + d) P.
Proof.
  intros Hm Hk e w. unfold bind.
  destruct (Hm e w) as (f & ts & Hg & Hf & Ht & HP).
  destruct (m e w) as [[x|] w'].
  - destruct (Hk x e w') as (f' & ts' & Hg' & Hf' & Ht' & HP').
    exists (f ++ f'), (ts ++ ts'). split; [|split; [|split]].
    + apply (grown_trans w w' _ f f' ts ts' Hg Hg').
    + rewrite length_app. lia.
    + rewrite length_app. lia.
    + apply Forall_app. auto.
  - exists f, ts. split; [exact Hg|]. split; [lia|]. split; [lia|exact HP].
Qed.

Lemma adds_try_catch {A : Type} (m h : M A) (a b c d : nat) (P : Task -> Prop) :
  adds m a b P -> adds h c d P -> adds (try_catch m h) (a + c) (b + d) P.
Proof.
  intros Hm Hh e w. unfold try_catch.
  destruct (Hm e w) as (f & ts & Hg & Hf & Ht & HP).
  destruct (m e w) as [[x|] w'].
  - exists f, ts. split; [exact Hg|]. split; [lia|]. split; [lia|exact HP].
  - destruct (Hh e w') as (f' & ts' & Hg' & Hf' & Ht' & HP').
    exists (f ++ f'), (ts ++ ts'). split; [|split; [|split]].
    + apply (grown_trans w w' _ f f' ts ts' Hg Hg').
    + rewrite length_app. lia.
    + rewrite length_app. lia.
    + apply Forall_app. auto.
Qed.

Lemma adds_readFromCache (key : string) (P : Task -> Prop) :
  adds (readFromCache key) 0 0 P.
Proof.
  unfold readFromCache. apply (adds_bind _ _ 0 0 0 0).
  - apply adds_caches_match.
  - intros [resp|]; [|apply adds_ret].
    apply (adds_bind _ _ 0 0 0 0); [apply adds_response_json|].
    intros x. apply adds_ret.
Qed.

Lemma adds_read (request : Request) (key : string) (P : Task -> Prop) :
  adds (if shouldSkipCache request then ret None else readFromCache key) 0 0 P.
Proof.
  destruct (shouldSkipCache request); [apply adds_ret | apply adds_readFromCache].
Qed.

Lemma adds_createNewCacheEntry (u : URL) (P : Task -> Prop) :
  adds (createNewCacheEntry lib u) 1 0 P.
Proof.
  unfold createNewCacheEntry. apply (adds_bind _ _ 1 0 0 0); [apply adds_fetch|].
  intros r. destruct (negb (ok r)); apply adds_ret.
Qed.

Lemma adds_createNewFilesCacheEntry (user repo rev : string) (P : Task -> Prop) :
  adds (createNewFilesCacheEntry user repo rev) 1 0 P.
Proof.
  unfold createNewFilesCacheEntry. apply (adds_bind _ _ 1 0 0 0); [apply adds_fetch|].
  intros r. destruct (negb (ok r)); [apply adds_ret|].
  destruct (tree_json r); [apply adds_ret | apply adds_throw].
Qed.

(** [renderMarkdown]: one upstream request or one regeneration task at
    most, and the task writes the key of the request. *)
Lemma adds_renderMarkdown (request : Request) :
  adds (renderMarkdown lib request) 1 1 (targets (markdown_key request)).
Proof.
  unfold renderMarkdown. fold (markdown_key request).
  apply (adds_bind _ _ 0 0 1 1); [apply adds_Date_now|]. intros t.
  apply (adds_bind _ _ 0 0 1 1); [apply adds_read|]. intros cached.
  apply (adds_bind _ _ 1 1 0 0).
  - destruct cached as [[d s]|].
    + apply (adds_weaken _ 0 1 1 1 (targets (markdown_key request))); auto.
      apply (adds_bind _ _ 0 1 0 0); [|intros; apply adds_ret].
      destruct (Js.lt s (Js.Num t)).
      * apply adds_waitUntil. reflexivity.
      * apply (adds_weaken _ 0 0 0 1 (targets (markdown_key request))); auto.
        apply adds_ret.
    + apply (adds_bind _ _ 1 0 0 1); [apply adds_createNewCacheEntry|].
      intros [d|].
      * apply (adds_bind _ _ 0 1 0 0); [|intros; apply adds_ret].
        apply adds_waitUntil. reflexivity.
      * apply (adds_weaken _ 0 0 0 1 (targets (markdown_key request))); auto.
        apply adds_ret.
  - intros [d|]; apply adds_ret.
Qed.

Lemma adds_renderFiles (request : Request) :
  adds (renderFiles request) 1 1 (targets (files_key request)).
Proof.
  unfold renderFiles. fold (files_key request).
  apply (adds_bind _ _ 0 0 1 1); [apply adds_Date_now|]. intros t.
  apply (adds_bind _ _ 0 0 1 1); [apply adds_read|]. intros cached.
  apply (adds_bind _ _ 1 1 0 0).
  - destruct cached as [[d s]|].
    + apply (adds_weaken _ 0 1 1 1 (targets (files_key request))); auto.
      apply (adds_bind _ _ 0 1 0 0); [|intros; apply adds_ret].
      destruct (Js.lt s (Js.Num t)).
      * apply adds_waitUntil. reflexivity.
      * apply (adds_weaken _ 0 0 0 1 (targets (files_key request))); auto.
        apply adds_ret.
    + apply (adds_bind _ _ 1 0 0 1); [apply adds_createNewFilesCacheEntry|].
      intros [d|].
      * apply (adds_bind _ _ 0 1 0 0); [|intros; apply adds_ret].
        apply adds_waitUntil. reflexivity.
      * apply (adds_weaken _ 0 0 0 1 (targets (files_key request))); auto.
        apply adds_ret.
  - intros [d|]; apply adds_ret.
Qed.

Lemma adds_demo_page (r : Response) (P : Task -> Prop) : adds (demo_page lib r) 0 0 P.
Proof.
  unfold demo_page. apply (adds_bind _ _ 0 0 0 0); [apply adds_response_json|].
  intros v. apply adds_ret.
Qed.

Lemma adds_renderDocs (request : Request) :
  adds (renderDocs lib request) 1 1
       (targets (markdown_key (inner_request docs_file request))).
Proof.
  unfold renderDocs. apply (adds_bind _ _ 1 1 0 0).
  - apply (adds_renderMarkdown (inner_request docs_file request)).
  - intros r. apply adds_demo_page.
Qed.

Lemma adds_renderDemo (request : Request) :
  adds (renderDemo lib request) 1 1
       (targets (markdown_key (inner_request (demo_file request) request))).
Proof.
  unfold renderDemo. apply (adds_bind _ _ 1 1 0 0).
  - apply (adds_renderMarkdown (inner_request (demo_file request) request)).
  - intros r. apply adds_demo_page.
Qed.

End EffectFacts.

(* ================================================================== *)
(** * What the tasks write *)
(* ================================================================== *)

Section TaskFacts.

Context (lib : Libraries).

(** A task writes the cache at its target, if at all. *)
Lemma run_task_other_key (t : Task) (e : Env) (w : World) (k : string) :
  task_target t <> k ->
  cache (snd (run_task lib t e w)) !! k = cache w !! k.
Proof.
  intros Hk. destruct t as [key u|key user repo rev|key value|u r];
    cbn [task_target] in Hk; unfold run_task.
  - unfold bind. rewrite createNewCacheEntry_run.
    destruct (upstream e (raw_content_url u)) as [r|]; [|reflexivity].
    destruct (ok r); [|reflexivity].
    rewrite writeToCache_run. cbn [snd cache with_fetch].
    now rewrite lookup_insert_ne.
  - unfold bind. rewrite createNewFilesCacheEntry_run. cbv zeta.
    match goal with |- context [upstream e ?x] => destruct (upstream e x) as [r|] end;
      [|reflexivity].
    destruct (ok r); [|reflexivity].
    destruct (tree_json r); [|reflexivity].
    rewrite writeToCache_run. cbn [snd cache with_fetch].
    now rewrite lookup_insert_ne.
  - rewrite writeToCache_run. cbn [snd cache]. now rewrite lookup_insert_ne.
  - unfold caches_put, Host.put. cbn [snd cache].
    destruct (headers_get "Cache-Control" (headers r)) as [cc|].
    + destruct (Host.forbids_storing cc); [reflexivity|].
      destruct (Host.max_age cc); [|reflexivity].
      now rewrite lookup_insert_ne.
    + reflexivity.
Qed.

(** A task hands nothing to [ctx.waitUntil]. *)
Lemma run_task_waiting (t : Task) (e : Env) (w : World) :
  waiting (snd (run_task lib t e w)) = waiting w.
Proof.
  destruct t as [key u|key user repo rev|key value|u r]; unfold run_task.
  - unfold bind. rewrite createNewCacheEntry_run.
    destruct (upstream e (raw_content_url u)) as [r|]; [|reflexivity].
    destruct (ok r); reflexivity.
  - unfold bind. rewrite createNewFilesCacheEntry_run. cbv zeta.
    match goal with |- context [upstream e ?x] => destruct (upstream e x) as [r|] end;
      [|reflexivity].
    destruct (ok r); [|reflexivity].
    destruct (tree_json r); reflexivity.
  - reflexivity.
  - reflexivity.
Qed.

Lemma run_tasks_other_key (e : Env) (k : string) (ts : list Task) :
  forall w,
    Forall (fun t => task_target t <> k) ts ->
    cache (fold_left (fun w' t => snd (run_task lib t e w')) ts w) !! k
    = cache w !! k.
Proof.
  induction ts as [|t ts IH]; intros w Hts; [reflexivity|].
  apply Forall_cons_iff in Hts as [Ht Hts]. cbn [fold_left].
  rewrite (IH _ Hts). now apply run_task_other_key.
Qed.

Lemma settle_other_key (e : Env) (w : World) (k : string) :
  Forall (fun t => task_target t <> k) (waiting w) ->
  cache (settle lib e w) !! k = cache w !! k.
Proof.
  intros H. unfold settle. now rewrite (run_tasks_other_key e k _ _ H).
Qed.

Lemma settle_waiting (e : Env) (w : World) :
  waiting (settle lib e w) = [].
Proof.
  unfold settle.
  assert (H : forall ts w0,
             waiting (fold_left (fun w' t => snd (run_task lib t e w')) ts w0)
             = waiting w0).
  { induction ts as [|t ts IH]; intros w0; [reflexivity|].
    cbn [fold_left]. rewrite IH. apply run_task_waiting. }
  now rewrite H.
Qed.

(** Two tasks settle one after the other. *)
Lemma settle_two (t1 t2 : Task) (e : Env) (w : World) :
  waiting w = [] ->
  settle lib e (with_task t2 (with_task t1 w))
  = snd (run_task lib t2 e (snd (run_task lib t1 e w))).
Proof.
  intros Hw. unfold settle, with_task. cbn [waiting cache fetched].
  rewrite Hw. cbn [app fold_left]. now rewrite (world_eta w Hw).
Qed.

End TaskFacts.

(* ================================================================== *)
(** * The handler as a whole *)
(* ================================================================== *)

Section WholeFacts.

Context (lib : Libraries).

(** X3. When the upstream request of a document or of a listing is
    rejected, or the tree it brings is not readable, [handleFetch]
    answers with status 500 and the body
    [{ error: "Internal server error" }], and hands nothing to
    [ctx.waitUntil]: that response is not given to the cache. *)
Theorem upstream_rejection_is_internal_error
    (request : Request) (e : Env) (w : World) :
  passes_response_cache request e w ->
  (route (url request) = ToMarkdown ->
   goes_upstream request (markdown_key request) e w ->
   upstream e (raw_content_url (url request)) = None ->
   handleFetch lib request e w
   = (Ok internal_error_response, with_fetch (raw_content_url (url request)) w))
  /\ (route (url request) = ToFiles ->
      goes_upstream request (files_key request) e w ->
      upstream e (tree_url request) = None
      \/ (exists r, upstream e (tree_url request) = Some r
                    /\ ok r = true /\ tree_json r = None) ->
      handleFetch lib request e w
      = (Ok internal_error_response, with_fetch (tree_url request) w)).
Proof.
  intros Hpass.
  assert (Hfound : (if shouldSkipCache request then ret None
                    else caches_match (href (url request))) e w = (Ok None, w)).
  { destruct Hpass as [H|H].
    - now rewrite H.
    - destruct (shouldSkipCache request); [reflexivity|].
      unfold caches_match. now rewrite H. }
  split; intros Hroute Hup Hfail.
  - unfold handleFetch, try_catch, bind at 1. rewrite Hfound.
    unfold bind at 1. rewrite Hroute.
    unfold renderMarkdown, bind at 1 2, Date_now. fold (markdown_key request).
    rewrite (read_goes_upstream _ _ _ _ Hup).
    unfold bind at 1 2. rewrite createNewCacheEntry_run, Hfail. reflexivity.
  - unfold handleFetch, try_catch, bind at 1. rewrite Hfound.
    unfold bind at 1. rewrite Hroute.
    unfold renderFiles, bind at 1 2, Date_now. fold (files_key request).
    rewrite (read_goes_upstream _ _ _ _ Hup).
    unfold bind at 1 2. rewrite createNewFilesCacheEntry_run.
    fold (tree_url request).
    destruct Hfail as [Hnone|(r & Hr & Hok & Hjson)].
    + now rewrite Hnone.
    + now rewrite Hr, Hok, Hjson.
Qed.

End WholeFacts.

(* ================================================================== *)
(** * Reads that follow writes *)
(* ================================================================== *)

Section SequenceFacts.

Context (lib : Libraries).

(** The host keeps a successful response five minutes. *)
Lemma put_data_response (t : Z) (u : string) (data : Value) (c : gmap string Host.Stored) :
  Host.put t u (data_response data) c
  = <[u := Host.mkStored (data_response data) (Some (t + 300000))]> c.
Proof. reflexivity. Qed.

Lemma lookup_written (key : string) (value : Value) (e e2 : Env) (w : World) :
  Host.lookup (now e2) ("kv://" +:+ key) (cache (snd (writeToCache key value e w)))
  = if now e + 1000 * STALE_FOR_SECONDS <=? now e2 then None
    else Some (mkResponse 200
                 [ ("Content-Type", "application/json");
                   ("Cache-Control", "public, max-age=172800, immutable");
                   ("Stale-At", Js.toFixed0 (now e + REVALIDATE_AFTER_MS)) ]
                 (Json value)).
Proof.
  rewrite writeToCache_run. unfold Host.lookup, Host.expired. cbn [snd cache].
  rewrite lookup_insert_eq. reflexivity.
Qed.

(** X4. What [writeToCache] wrote, [readFromCache] reads back under the
    same key: the value and the deadline [now + REVALIDATE_AFTER_MS] of
    the write, as long as the two days of [STALE_FOR_SECONDS] have not
    passed; from then on the read finds nothing. *)
Theorem read_after_write
    (key : string) (value : Value) (e e2 : Env) (w : World) :
  let written := snd (writeToCache key value e w) in
  (now e2 < now e + 1000 * STALE_FOR_SECONDS ->
   readFromCache key e2 written
   = (Ok (Some (value, Js.Num (now e + REVALIDATE_AFTER_MS))), written))
  /\ (now e + 1000 * STALE_FOR_SECONDS <= now e2 ->
      readFromCache key e2 written = (Ok None, written)).
Proof.
  intros written. split; intros Ht.
  - apply (readFromCache_hit key e2 written
             (mkCacheEntry value (Js.Num (now e + REVALIDATE_AFTER_MS))
                           (Some (now e + 1000 * STALE_FOR_SECONDS)))).
    + apply stored_entry_written.
    + exact Ht.
  - apply readFromCache_miss. unfold written. rewrite lookup_written.
    now replace (now e + 1000 * STALE_FOR_SECONDS <=? now e2) with true
      by (symmetry; apply Z.leb_le; lia).
Qed.

(** Within the revalidation window of its write an entry is found and
    is fresh. *)
Lemma fresh_entry_read (e' e2 : Env) (v : Value) :
  now e2 <= now e' + REVALIDATE_AFTER_MS ->
  live (now e2) (fresh_entry_at e' v)
  /\ Js.lt (staleAt (fresh_entry_at e' v)) (Js.Num (now e2)) = false.
Proof.
  intros Ht. unfold live, fresh_entry_at. cbn [expiresAt staleAt Js.lt].
  unfold REVALIDATE_AFTER_MS, STALE_FOR_SECONDS in *. split; [lia|].
  apply Z.ltb_ge. lia.
Qed.

(** X5. A first read that finds nothing under its key asks upstream,
    answers with what it produced and leaves the write to
    [ctx.waitUntil]; once the write has run, a read of the same request
    within [REVALIDATE_AFTER_MS] of it gets the same answer from the
    cache and leaves the world as it is: no second upstream request. *)
Theorem miss_then_hit
    (request : Request) (e e' e2 : Env) (w : World) (r : FetchResponse) :
  shouldSkipCache request = false ->
  waiting w = [] ->
  ok r = true ->
  now e2 <= now e' + REVALIDATE_AFTER_MS ->
  (Host.lookup (now e) ("kv://" +:+ markdown_key request) (cache w) = None ->
   upstream e (raw_content_url (url request)) = Some r ->
   let fresh := VData (parseMarkdown lib (text r)) in
   let after := settle lib e' (snd (renderMarkdown lib request e w)) in
   fst (renderMarkdown lib request e w) = Ok (data_response fresh)
   /\ renderMarkdown lib request e2 after = (Ok (data_response fresh), after)
   /\ fetched after = fetched w ++ [raw_content_url (url request)])
  /\ (forall content,
        Host.lookup (now e) ("kv://" +:+ files_key request) (cache w) = None ->
        upstream e (tree_url request) = Some r ->
        tree_json r = Some content ->
        let fresh := VFiles (mkCachedFiles (content_sha content)
                                           (Listing.collect (content_tree content))) in
        let after := settle lib e' (snd (renderFiles request e w)) in
        fst (renderFiles request e w) = Ok (data_response fresh)
        /\ renderFiles request e2 after = (Ok (data_response fresh), after)
        /\ fetched after = fetched w ++ [tree_url request]).
Proof.
  intros Hskip Hw Hok Ht. split.
  - intros Hmiss Hup fresh after.
    assert (Hrun : renderMarkdown lib request e w
                   = (Ok (data_response fresh),
                      with_task (WriteToCache (markdown_key request) fresh)
                                (with_fetch (raw_content_url (url request)) w))).
    { rewrite (renderMarkdown_miss lib request e w r (or_intror Hmiss) Hup).
      now rewrite Hok. }
    assert (Hafter : after = snd (writeToCache (markdown_key request) fresh e'
                                    (with_fetch (raw_content_url (url request)) w))).
    { unfold after. rewrite Hrun. cbn [snd]. now rewrite settle_with_task. }
    destruct (fresh_entry_read e' e2 fresh Ht)
      as [Hlive Hfresh].
    split; [now rewrite Hrun|]. split.
    + rewrite (renderMarkdown_hit lib request e2 after (fresh_entry_at e' fresh) Hskip).
      * now rewrite Hfresh.
      * rewrite Hafter. apply stored_entry_written.
      * exact Hlive.
    + rewrite Hafter. reflexivity.
  - intros content Hmiss Hup Hc fresh after.
    assert (Hrun : renderFiles request e w
                   = (Ok (data_response fresh),
                      with_task (WriteToCache (files_key request) fresh)
                                (with_fetch (tree_url request) w))).
    { apply (renderFiles_miss_ok request e w r content (or_intror Hmiss) Hup Hok Hc). }
    assert (Hafter : after = snd (writeToCache (files_key request) fresh e'
                                    (with_fetch (tree_url request) w))).
    { unfold after. rewrite Hrun. cbn [snd]. now rewrite settle_with_task. }
    destruct (fresh_entry_read e' e2 fresh Ht)
      as [Hlive Hfresh].
    split; [now rewrite Hrun|]. split.
    + rewrite (renderFiles_hit request e2 after (fresh_entry_at e' fresh) Hskip).
      * now rewrite Hfresh.
      * rewrite Hafter. apply stored_entry_written.
      * exact Hlive.
    + rewrite Hafter. reflexivity.
Qed.

(** X6. A stale read whose regeneration succeeds has answered with the
    old payload; once the task has run, the entry under the key is the
    fresh payload with the stamps of that run, and a read within
    [REVALIDATE_AFTER_MS] of it answers with the fresh payload and
    schedules nothing. *)
Theorem successful_regeneration_replaces_entry
    (request : Request) (e e' e2 : Env) (w : World) (en : CacheEntry) (s : Z)
    (r : FetchResponse) :
  shouldSkipCache request = false ->
  staleAt en = Js.Num s ->
  s < now e ->
  live (now e) en ->
  waiting w = [] ->
  ok r = true ->
  now e2 <= now e' + REVALIDATE_AFTER_MS ->
  (stored_entry w (markdown_key request) = Some en ->
   upstream e' (raw_content_url (url request)) = Some r ->
   let fresh := VData (parseMarkdown lib (text r)) in
   let after := settle lib e' (snd (renderMarkdown lib request e w)) in
   fst (renderMarkdown lib request e w) = Ok (data_response (payload en))
   /\ stored_entry after (markdown_key request) = Some (fresh_entry_at e' fresh)
   /\ renderMarkdown lib request e2 after = (Ok (data_response fresh), after))
  /\ (forall content,
        stored_entry w (files_key request) = Some en ->
        upstream e' (tree_url request) = Some r ->
        tree_json r = Some content ->
        let fresh := VFiles (mkCachedFiles (content_sha content)
                                           (Listing.collect (content_tree content))) in
        let after := settle lib e' (snd (renderFiles request e w)) in
        fst (renderFiles request e w) = Ok (data_response (payload en))
        /\ stored_entry after (files_key request) = Some (fresh_entry_at e' fresh)
        /\ renderFiles request e2 after = (Ok (data_response fresh), after)).
Proof.
  intros Hskip Hs Hlt Hlive Hw Hok Ht.
  assert (Hstale : Js.lt (staleAt en) (Js.Num (now e)) = true).
  { rewrite Hs. simpl. apply Z.ltb_lt. lia. }
  split.
  - intros Hen Hup fresh after.
    assert (Hafter : after = snd (writeToCache (markdown_key request) fresh e'
                                    (with_fetch (raw_content_url (url request)) w))).
    { unfold after.
      rewrite (renderMarkdown_hit lib request e w en Hskip Hen Hlive), Hstale.
      cbn [snd]. rewrite settle_with_task by exact Hw.
      unfold markdown_regeneration, run_task, bind.
      rewrite createNewCacheEntry_run, Hup, Hok. reflexivity. }
    destruct (fresh_entry_read e' e2 fresh Ht)
      as [Hlive2 Hfresh].
    assert (Hst : stored_entry after (markdown_key request)
                  = Some (fresh_entry_at e' fresh)).
    { rewrite Hafter. apply stored_entry_written. }
    split; [now rewrite (renderMarkdown_hit lib request e w en Hskip Hen Hlive)|].
    split; [exact Hst|].
    rewrite (renderMarkdown_hit lib request e2 after _ Hskip Hst Hlive2).
    now rewrite Hfresh.
  - intros content Hen Hup Hc fresh after.
    assert (Hafter : after = snd (writeToCache (files_key request) fresh e'
                                    (with_fetch (tree_url request) w))).
    { unfold after.
      rewrite (renderFiles_hit request e w en Hskip Hen Hlive), Hstale.
      cbn [snd]. rewrite settle_with_task by exact Hw.
      unfold files_regeneration, run_task, bind.
      rewrite createNewFilesCacheEntry_run. fold (tree_url request).
      rewrite Hup, Hok, Hc. reflexivity. }
    destruct (fresh_entry_read e' e2 fresh Ht)
      as [Hlive2 Hfresh].
    assert (Hst : stored_entry after (files_key request)
                  = Some (fresh_entry_at e' fresh)).
    { rewrite Hafter. apply stored_entry_written. }
    split; [now rewrite (renderFiles_hit request e w en Hskip Hen Hlive)|].
    split; [exact Hst|].
    rewrite (renderFiles_hit request e2 after _ Hskip Hst Hlive2).
    now rewrite Hfresh.
Qed.

End SequenceFacts.

(* ================================================================== *)
(** * Both caches, other keys, odd stamps *)
(* ================================================================== *)

Section LayerFacts.

Context (lib : Libraries).

(** X7. A document request that no cache answers and that upstream
    serves is answered with the fresh data; once its two tasks have
    run, the key-value layer holds the data under the key of the path
    and the host cache holds the response under the request URL, for
    five minutes: a request without bypass directive for the same URL
    within that time gets the stored response and the world is left as
    it is. *)
Theorem first_request_fills_both_caches
    (request : Request) (e e' e2 : Env) (w : World) (r : FetchResponse) :
  Js.startsWith "http" (origin (url request)) = true ->
  waiting w = [] ->
  route (url request) = ToMarkdown ->
  passes_response_cache request e w ->
  goes_upstream request (markdown_key request) e w ->
  upstream e (raw_content_url (url request)) = Some r ->
  ok r = true ->
  let fresh := VData (parseMarkdown lib (text r)) in
  let after := settle lib e' (snd (handleFetch lib request e w)) in
  fst (handleFetch lib request e w) = Ok (data_response fresh)
  /\ stored_entry after (markdown_key request) = Some (fresh_entry_at e' fresh)
  /\ cache after !! href (url request)
     = Some (Host.mkStored (data_response fresh) (Some (now e' + 300000)))
  /\ (shouldSkipCache request = false ->
      now e2 < now e' + 300000 ->
      handleFetch lib request e2 after = (Ok (data_response fresh), after)).
Proof.
  intros Hhttp Hw Hroute Hpass Hup Hr Hok fresh after.
  assert (Hrender : render lib request e w
                    = (Ok (data_response fresh),
                       with_task (WriteToCache (markdown_key request) fresh)
                                 (with_fetch (raw_content_url (url request)) w))).
  { unfold render. rewrite Hroute.
    rewrite (renderMarkdown_miss lib request e w r Hup Hr). now rewrite Hok. }
  pose proof (handleFetch_renders lib request e w _ _ Hpass Hrender) as Hrun.
  assert (Hcache : cache after
                   = <[href (url request) :=
                         Host.mkStored (data_response fresh) (Some (now e' + 300000))]>
                     (cache (snd (writeToCache (markdown_key request) fresh e'
                                    (with_fetch (raw_content_url (url request)) w))))).
  { unfold after. rewrite Hrun. cbn [snd].
    rewrite (settle_two lib _ _ e' (with_fetch (raw_content_url (url request)) w) Hw).
    reflexivity. }
  assert (Hresp : cache after !! href (url request)
                  = Some (Host.mkStored (data_response fresh) (Some (now e' + 300000)))).
  { rewrite Hcache. apply lookup_insert_eq. }
  split; [now rewrite Hrun|]. split; [|split; [exact Hresp|]].
  - unfold stored_entry at 1. rewrite Hcache.
    rewrite lookup_insert_ne by (now apply href_not_kv).
    apply (stored_entry_written (markdown_key request) fresh e').
  - intros Hskip Ht. apply (handleFetch_found lib request e2 after _ Hskip).
    unfold Host.lookup. rewrite Hresp. unfold Host.expired. cbn [Host.expiresAt Host.stored].
    now replace (now e' + 300000 <=? now e2) with false
      by (symmetry; apply Z.leb_gt; lia).
Qed.

Lemma kv_key_inj (k k' : string) : "kv://" +:+ k = "kv://" +:+ k' -> k = k'.
Proof. intros H. now injection H. Qed.

Lemma waiting_targets_other (ts : list Task) (key : string) (k : string) :
  Forall (targets key) ts ->
  k <> "kv://" +:+ key ->
  Forall (fun t => task_target t <> k) ts.
Proof.
  intros Hts Hk. revert Hts. apply List.Forall_impl.
  intros t Ht. unfold targets in Ht. rewrite Ht. congruence.
Qed.

(** The cache of the world that follows a computation whose tasks all
    write one key, once the tasks have run, differs from the cache
    before at that key only. *)
Lemma settled_other_key {A : Type} (m : M A) (a b : nat) (key : string)
    (e e' : Env) (w : World) (k : string) :
  adds m a b (targets key) ->
  waiting w = [] ->
  k <> "kv://" +:+ key ->
  cache (settle lib e' (snd (m e w))) !! k = cache w !! k.
Proof.
  intros Hm Hw Hk. destruct (Hm e w) as (f & ts & (Hc & Hf & Ht) & _ & _ & Hts).
  rewrite settle_other_key.
  - now rewrite Hc.
  - rewrite Ht, Hw. cbn [app]. now apply (waiting_targets_other ts key).
Qed.

(** X8. A read changes no entry but its own, also after its tasks have
    run: the cache differs from the cache before the read at the key
    of the request at most. So the document read of one path leaves
    the document entries of the other paths and every listing entry as
    they were, and the other way round. *)
Theorem read_changes_only_its_own_entry
    (request other : Request) (e e' : Env) (w : World) (k : string) :
  waiting w = [] ->
  (k <> "kv://" +:+ markdown_key request ->
   cache (settle lib e' (snd (renderMarkdown lib request e w))) !! k = cache w !! k)
  /\ (k <> "kv://" +:+ files_key request ->
      cache (settle lib e' (snd (renderFiles request e w))) !! k = cache w !! k)
  /\ (pathname (url other) <> pathname (url request) ->
      stored_entry (settle lib e' (snd (renderMarkdown lib request e w)))
                   (markdown_key other)
      = stored_entry w (markdown_key other)
      /\ stored_entry (settle lib e' (snd (renderFiles request e w)))
                      (files_key other)
         = stored_entry w (files_key other))
  /\ stored_entry (settle lib e' (snd (renderMarkdown lib request e w)))
                  (files_key other)
     = stored_entry w (files_key other)
  /\ stored_entry (settle lib e' (snd (renderFiles request e w)))
                  (markdown_key other)
     = stored_entry w (markdown_key other).
Proof.
  intros Hw.
  pose proof (fun k => settled_other_key _ 1 1 _ e e' w k
                         (adds_renderMarkdown lib request) Hw) as Hmd.
  pose proof (fun k => settled_other_key _ 1 1 _ e e' w k
                         (adds_renderFiles request) Hw) as Hfiles.
  split; [apply Hmd|]. split; [apply Hfiles|]. split; [|split].
  - intros Hpath. split; unfold stored_entry.
    + rewrite Hmd; [reflexivity|]. intros H. apply kv_key_inj in H.
      unfold markdown_key in H. apply Hpath.
      now apply (String.app_inj "json-swr") in H.
    + rewrite Hfiles; [reflexivity|]. intros H. apply kv_key_inj in H.
      unfold files_key in H. apply Hpath.
      now apply (String.app_inj "files") in H.
  - unfold stored_entry. rewrite Hmd; [reflexivity|].
    intros H. discriminate H.
  - unfold stored_entry. rewrite Hfiles; [reflexivity|].
    intros H. discriminate H.
Qed.

(** A digit of a decimal literal is not a foreign character. *)
Lemma foreign_is_no_digit (c : ascii) (d : option Decimal.uint) :
  never_in_a_number c = true -> uint_of_char c d = None /\ Ascii.eqb c "-" = false.
Proof.
  destruct d; destruct c as [[] [] [] [] [] [] [] []]; vm_compute; intros H;
    try discriminate H; split; reflexivity.
Qed.

Lemma foreign_uint (s : string) :
  has_foreign_character s = true -> NilEmpty.uint_of_string s = None.
Proof.
  induction s as [|c s IH]; [discriminate|].
  cbn [has_foreign_character NilEmpty.uint_of_string]. intros H.
  apply orb_true_iff in H as [H|H].
  - apply (foreign_is_no_digit c).  exact H.
  - rewrite (IH H). reflexivity.
Qed.

(** [Number] makes [NaN] of a text with a foreign character, as
    JavaScript does. *)
Lemma foreign_Number (s : string) :
  has_foreign_character s = true -> Js.Number s = Js.NaN.
Proof.
  intros H. destruct s as [|c s]; [discriminate|].
  unfold Js.Number, NilZero.int_of_string.
  destruct (Ascii.eqb c "-") eqn:Hc.
  - cbn [has_foreign_character] in H. apply orb_true_iff in H as [H|H].
    + apply (foreign_is_no_digit c None) in H as [_ H]. congruence.
    + unfold NilZero.uint_of_string. destruct s as [|c' s]; [reflexivity|].
      now rewrite (foreign_uint _ H).
  - unfold NilZero.uint_of_string. now rewrite (foreign_uint _ H).
Qed.

(** X9. An entry whose [Stale-At] header is no number (a date in
    words, a time with colons: a text with a character that no
    numeric literal has) is never regenerated: its stamp reads as
    [NaN] and [NaN < now] is false at any time, so as long as the host
    keeps the entry the read answers with its payload, asks upstream
    nothing and schedules nothing. *)
Theorem unreadable_stamp_is_never_stale
    (request : Request) (e : Env) (w : World)
    (st : Host.Stored) (d : Value) (stamp : string) :
  shouldSkipCache request = false ->
  body (Host.stored st) = Json d ->
  headers_get "Stale-At" (headers (Host.stored st)) = Some stamp ->
  has_foreign_character stamp = true ->
  Host.expired (now e) st = false ->
  (cache w !! ("kv://" +:+ markdown_key request) = Some st ->
   renderMarkdown lib request e w = (Ok (data_response d), w))
  /\ (cache w !! ("kv://" +:+ files_key request) = Some st ->
      renderFiles request e w = (Ok (data_response d), w)).
Proof.
  intros Hskip Hbody Hstamp Hforeign Hkept.
  set (en := mkCacheEntry d Js.NaN (Host.expiresAt st)).
  assert (Hstale : staleAt_of (Host.stored st) = Js.NaN).
  { unfold staleAt_of. rewrite Hstamp.
    destruct stamp as [|c s]; [discriminate|]. now apply foreign_Number. }
  assert (Hen : forall key, cache w !! ("kv://" +:+ key) = Some st ->
                            stored_entry w key = Some en).
  { intros key Hk. unfold stored_entry. now rewrite Hk, Hbody, Hstale. }
  assert (Hlive : live (now e) en).
  { unfold live, en. cbn [expiresAt]. unfold Host.expired in Hkept.
    destruct (Host.expiresAt st); [now apply Z.leb_gt | exact I]. }
  split; intros Hk.
  - now rewrite (renderMarkdown_hit lib request e w en Hskip (Hen _ Hk) Hlive).
  - now rewrite (renderFiles_hit request e w en Hskip (Hen _ Hk) Hlive).
Qed.

(** X10. An entry past the expiry the host keeps for it is as good as
    absent: the read goes to upstream before it answers, with the fresh
    data when upstream serves the document and with not-found when it
    does not. *)
Theorem expired_entry_is_a_miss
    (request : Request) (e : Env) (w : World) (st : Host.Stored) (x : Z)
    (r : FetchResponse) :
  cache w !! ("kv://" +:+ markdown_key request) = Some st ->
  Host.expiresAt st = Some x ->
  x <= now e ->
  upstream e (raw_content_url (url request)) = Some r ->
  readFromCache (markdown_key request) e w = (Ok None, w)
  /\ fetched (snd (renderMarkdown lib request e w))
     = fetched w ++ [raw_content_url (url request)]
  /\ fst (renderMarkdown lib request e w)
     = Ok (if ok r then data_response (VData (parseMarkdown lib (text r)))
           else not_found_response).
Proof.
  intros Hst Hx Hle Hup.
  assert (Hmiss : Host.lookup (now e) ("kv://" +:+ markdown_key request) (cache w)
                  = None).
  { unfold Host.lookup, Host.expired. rewrite Hst, Hx.
    now replace (x <=? now e) with true by (symmetry; apply Z.leb_le; lia). }
  split; [now apply readFromCache_miss|].
  rewrite (renderMarkdown_miss lib request e w r (or_intror Hmiss) Hup).
  destruct (ok r); split; reflexivity.
Qed.

End LayerFacts.

(* ================================================================== *)
(** * A request that carries a bypass directive *)
(* ================================================================== *)

Section BypassFacts.

Context (lib : Libraries).

(** Once the write of a fresh value and the storing of its response
    have both run, the key holds the value with the stamps of the
    run. *)
Lemma settle_write_then_put (request : Request) (key : string) (fresh : Value)
    (e' : Env) (w : World) :
  Js.startsWith "http" (origin (url request)) = true ->
  waiting w = [] ->
  stored_entry
    (settle lib e' (with_task (PutResponse (href (url request)) (data_response fresh))
                              (with_task (WriteToCache key fresh) w)))
    key
  = Some (fresh_entry_at e' fresh).
Proof.
  intros Hhttp Hw. rewrite (settle_two lib _ _ e' w Hw).
  rewrite (put_response_keeps_entries lib request _ e' _ key Hhttp).
  apply stored_entry_written.
Qed.

(** C6 on the document and listing routes. A request for a document or
    a listing that carries [no-cache] in [Cache-Control] or in [Pragma]
    is answered by [handleFetch] from upstream whatever the two caches
    hold: the response cache and the key-value entry are not read, the
    upstream request is made before the answer, and the answer is what
    was produced from it. When upstream serves the content, the write
    is handed to [ctx.waitUntil] and the key then holds the fresh
    value; when it does not, the answer is the 404 and the cache stays
    as it was. *)
Theorem bypass_goes_upstream_and_writes_back
    (request : Request) (e e' : Env) (w : World) (r : FetchResponse) :
  Js.startsWith "http" (origin (url request)) = true ->
  carries_bypass_directive request ->
  waiting w = [] ->
  let answered := handleFetch lib request e w in
  let after := settle lib e' (snd answered) in
  (route (url request) = ToMarkdown ->
   upstream e (raw_content_url (url request)) = Some r ->
   let fresh := VData (parseMarkdown lib (text r)) in
   fetched (snd answered) = fetched w ++ [raw_content_url (url request)]
   /\ if ok r
      then fst answered = Ok (data_response fresh)
           /\ stored_entry after (markdown_key request) = Some (fresh_entry_at e' fresh)
      else fst answered = Ok not_found_response /\ cache after = cache w)
  /\ (route (url request) = ToFiles ->
      upstream e (tree_url request) = Some r ->
      if ok r
      then forall content,
             tree_json r = Some content ->
             let fresh := VFiles (mkCachedFiles (content_sha content)
                                    (Listing.collect (content_tree content))) in
             fetched (snd answered) = fetched w ++ [tree_url request]
             /\ fst answered = Ok (data_response fresh)
             /\ stored_entry after (files_key request) = Some (fresh_entry_at e' fresh)
      else fetched (snd answered) = fetched w ++ [tree_url request]
           /\ fst answered = Ok not_found_response
           /\ cache after = cache w).
Proof.
  intros Hhttp Hbypass Hw answered after.
  apply shouldSkipCache_iff in Hbypass.
  assert (Hpass : passes_response_cache request e w) by (now left).
  split; intros Hroute Hr.
  - intros fresh.
    pose proof (renderMarkdown_miss lib request e w r (or_introl Hbypass) Hr) as Hmiss.
    destruct (ok r) eqn:Hok.
    + assert (Hrender : render lib request e w
                        = (Ok (data_response fresh),
                           with_task (WriteToCache (markdown_key request) fresh)
                                     (with_fetch (raw_content_url (url request)) w)))
        by (unfold render; now rewrite Hroute).
      pose proof (handleFetch_renders lib request e w _ _ Hpass Hrender) as Hrun.
      unfold after, answered. rewrite Hrun. cbn [fst snd].
      split; [reflexivity|]. split; [reflexivity|].
      now apply settle_write_then_put.
    + assert (Hrender : render lib request e w
                        = (Ok not_found_response,
                           with_fetch (raw_content_url (url request)) w))
        by (unfold render; now rewrite Hroute).
      pose proof (handleFetch_renders lib request e w _ _ Hpass Hrender) as Hrun.
      unfold after, answered. rewrite Hrun. cbn [fst snd].
      split; [reflexivity|]. split; [reflexivity|].
      now rewrite settle_with_task.
  - destruct (ok r) eqn:Hok.
    + intros content Hc fresh.
      assert (Hrender : render lib request e w
                        = (Ok (data_response fresh),
                           with_task (WriteToCache (files_key request) fresh)
                                     (with_fetch (tree_url request) w))).
      { unfold render. rewrite Hroute.
        apply (renderFiles_miss_ok request e w r content (or_introl Hbypass) Hr Hok Hc). }
      pose proof (handleFetch_renders lib request e w _ _ Hpass Hrender) as Hrun.
      unfold after, answered. rewrite Hrun. cbn [fst snd].
      split; [reflexivity|]. split; [reflexivity|].
      now apply settle_write_then_put.
    + assert (Hrender : render lib request e w
                        = (Ok not_found_response, with_fetch (tree_url request) w)).
      { unfold render. rewrite Hroute.
        apply (renderFiles_miss_not_ok request e w r (or_introl Hbypass) Hr Hok). }
      pose proof (handleFetch_renders lib request e w _ _ Hpass Hrender) as Hrun.
      unfold after, answered. rewrite Hrun. cbn [fst snd].
      split; [reflexivity|]. split; [reflexivity|].
      now rewrite settle_with_task.
Qed.

End BypassFacts.

(* ================================================================== *)
(** * Attributes, the page routes and the empty listing *)
(* ================================================================== *)

Section ShellFacts.

Context (lib : Libraries).



Lemma inner_request_skips (path : string) (request : Request) :
  shouldSkipCache (inner_request path request)
  = match headers_get "Cache-Control" (req_headers request) with
    | Some v => Js.includes "no-cache" (Js.toLowerCase v)
    | None => false
    end.
Proof.
  unfold shouldSkipCache, inner_request, markdown_headers. cbn [req_headers].
  destruct (headers_get "Cache-Control" (req_headers request)) as [v|].
  - change (headers_get "Cache-Control" [("Cache-Control", v)]) with (Some v).
    change (headers_get "pragma" [("Cache-Control", v)]) with (@None string).
    now rewrite orb_false_r.
  - reflexivity.
Qed.

(** X12. The page routes read the document through a request of their
    own that carries the [Cache-Control] header of the inbound request
    and nothing else: the inner read bypasses the cache exactly when
    that header has [no-cache] in it. A [Pragma: no-cache] on a request
    for [/] or for [/_demo/...] does not reach the read. *)
Theorem page_routes_forward_cache_control_only (path : string) (request : Request) :
  renderDocs lib request
  = bind (renderMarkdown lib (inner_request docs_file request)) (demo_page lib)
  /\ renderDemo lib request
     = bind (renderMarkdown lib (inner_request (demo_file request) request))
            (demo_page lib)
  /\ (shouldSkipCache (inner_request path request) = true
      <-> has_no_cache "Cache-Control" request).
Proof.
  split; [reflexivity|]. split; [reflexivity|].
  rewrite inner_request_skips. unfold has_no_cache.
  destruct (headers_get "Cache-Control" (req_headers request)) as [v|].
  - split.
    + intros H. now exists v.
    + intros (v' & [= <-] & H). exact H.
  - split; [discriminate|]. intros (v' & H & _). discriminate H.
Qed.

Lemma slice_app (p rest : string) :
  Js.slice (String.length p) (p +:+ rest) = rest.
Proof. induction p as [|c p IH]; [reflexivity | exact IH]. Qed.

(** X13. A request for [/_demo] followed by a path reads and writes the
    entry of that path, the one the document route uses, unless the
    path starts with two slashes (what follows them is then read as a
    host, and the entry is that of the path after it). The page it
    answers with has status 200 whatever the read gave: around a
    document it carries the [Cache-Control] of the document response,
    around a failed read it carries the text [Not found] and
    [Cache-Control: no-cache]. *)
Theorem demo_page_wraps_the_document_read
    (request : Request) (file : string) (e : Env) (w w' : World) :
  pathname (url request) = "/_demo" +:+ file ->
  String.prefix "//" file = false ->
  markdown_key (inner_request (demo_file request) request) = "json-swr" +:+ file
  /\ (renderMarkdown lib (inner_request (demo_file request) request) e w
      = (Ok not_found_response, w') ->
      renderDemo lib request e w
      = (Ok (mkResponse 200
               [("Content-Type", "text/html"); ("Cache-Control", "no-cache")]
               (Page ("<!DOCTYPE html>" +:+ Demo lib (Some "Not found")))),
         w'))
  /\ (forall d,
        renderMarkdown lib (inner_request (demo_file request) request) e w
        = (Ok (data_response (VData d)), w') ->
        renderDemo lib request e w
        = (Ok (mkResponse 200
                 [("Content-Type", "text/html");
                  ("Cache-Control", "public, max-age=300, immutable")]
                 (Page ("<!DOCTYPE html>" +:+ Demo lib (Some (html d))))),
           w')).
Proof.
  intros Hpath Hfile. split; [|split].
  - unfold markdown_key, inner_request, demo_file.
    rewrite Hpath, (slice_app "/_demo" file).
    unfold URL_resolve at 1. rewrite Hfile. reflexivity.
  - intros Hread.
    change (renderDemo lib request)
      with (bind (renderMarkdown lib (inner_request (demo_file request) request))
                 (demo_page lib)).
    unfold bind. rewrite Hread. reflexivity.
  - intros d Hread.
    change (renderDemo lib request)
      with (bind (renderMarkdown lib (inner_request (demo_file request) request))
                 (demo_page lib)).
    unfold bind. rewrite Hread. reflexivity.
Qed.

Lemma collect_nothing (tree : list TreeItem) :
  forallb (fun item => negb (Listing.is_markdown_blob item)) tree = true ->
  Listing.collect tree = [].
Proof.
  intros H. unfold Listing.collect. rewrite fold_left_reducer. cbn [app].
  induction tree as [|item tree IH]; [reflexivity|].
  cbn [forallb] in H. apply andb_true_iff in H as [Hitem Htree].
  apply negb_true_iff in Hitem. cbn [List.filter]. rewrite Hitem. now apply IH.
Qed.

(** X14. A tree without a markdown blob is not a failure: the listing
    read answers with status 200 and the [sha] of the tree with an empty
    list of files, and hands that listing to the cache like any
    other. *)
Theorem empty_listing_is_a_success
    (request : Request) (e : Env) (w : World) (r : FetchResponse)
    (content : TreeContent) :
  goes_upstream request (files_key request) e w ->
  upstream e (tree_url request) = Some r ->
  ok r = true ->
  tree_json r = Some content ->
  forallb (fun item => negb (Listing.is_markdown_blob item)) (content_tree content)
  = true ->
  renderFiles request e w
  = (Ok (mkResponse 200 success_headers
           (Json (VFiles (mkCachedFiles (content_sha content) [])))),
     with_task (WriteToCache (files_key request)
                             (VFiles (mkCachedFiles (content_sha content) [])))
               (with_fetch (tree_url request) w)).
Proof.
  intros Hup Hr Hok Hc Hnone.
  rewrite (renderFiles_miss_ok request e w r content Hup Hr Hok Hc). cbv zeta.
  now rewrite (collect_nothing _ Hnone).
Qed.

End ShellFacts.

(* ================================================================== *)
(** * Paths and their segments *)
(* ================================================================== *)

Section PathFacts.

Lemma rev_app_rev_app (a b c : string) :
  String.rev_app (String.rev_app a b) c = String.rev_app b (a +:+ c).
Proof.
  revert b c. induction a as [|x a IH]; intros b c; [reflexivity|].
  cbn [String.rev_app]. rewrite IH. reflexivity.
Qed.

Lemma rev_rev_app (a : string) : String.rev (String.rev_app a EmptyString) = a.
Proof.
  unfold String.rev. rewrite rev_app_rev_app. cbn [String.rev_app].
  apply append_empty_r.
Qed.

Lemma has_slash_rev_app (a b : string) :
  has_slash (String.rev_app a b) = has_slash a || has_slash b.
Proof.
  revert b. induction a as [|x a IH]; intros b; [reflexivity|].
  cbn [String.rev_app has_slash]. rewrite IH. cbn [has_slash].
  destruct (Ascii.eqb x "/"), (has_slash a), (has_slash b); reflexivity.
Qed.

(** Reading text without a slash only lengthens the piece in hand. *)
Lemma split_go_text (a : string) :
  forall cur s,
    has_slash a = false ->
    Js.split_go "/" cur (a +:+ s) = Js.split_go "/" (String.rev_app a cur) s.
Proof.
  induction a as [|x a IH]; intros cur s Ha; [reflexivity|].
  cbn [has_slash] in Ha. apply orb_false_iff in Ha as [Hx Ha].
  change (String x a +:+ s) with (String x (a +:+ s)).
  cbn [Js.split_go String.rev_app]. rewrite Hx. now apply IH.
Qed.

Lemma split_text (a : string) :
  has_slash a = false -> Js.split "/" a = [a].
Proof.
  intros Ha. unfold Js.split. rewrite <- (append_empty_r a) at 1.
  rewrite (split_go_text a _ _ Ha). cbn [Js.split_go].
  now rewrite rev_rev_app.
Qed.

Lemma split_cons (a s : string) :
  has_slash a = false ->
  Js.split "/" (a +:+ "/" +:+ s) = a :: Js.split "/" s.
Proof.
  intros Ha. unfold Js.split. rewrite (split_go_text a _ _ Ha).
  change ("/" +:+ s) with (String "/" s). cbn [Js.split_go].
  change (Ascii.eqb "/" "/") with true. cbv iota.
  now rewrite rev_rev_app.
Qed.

Lemma split_join (segs : list string) :
  segs <> [] ->
  Forall plain_segment segs ->
  Js.split "/" (Js.join "/" segs) = segs.
Proof.
  induction segs as [|x segs IH]; [congruence|]. intros _ Hall.
  apply Forall_cons_iff in Hall as [[_ Hx] Hall].
  destruct segs as [|y segs].
  - cbn [Js.join]. now apply split_text.
  - change (Js.join "/" (x :: y :: segs)) with (x +:+ "/" +:+ Js.join "/" (y :: segs)).
    rewrite (split_cons _ _ Hx). f_equal. apply IH; [discriminate | exact Hall].
Qed.

Lemma filter_plain (segs : list string) :
  Forall plain_segment segs ->
  List.filter (fun s => negb (String.eqb s EmptyString)) segs = segs.
Proof.
  induction 1 as [|x segs [Hx _] _ IH]; [reflexivity|].
  cbn [List.filter]. apply String.eqb_neq in Hx. rewrite Hx. cbn [negb].
  now rewrite IH.
Qed.

(** The split of a path that starts with a slash and goes on with
    plain segments joined by slashes. *)
Lemma split_joined_path (x : string) (segs : list string) :
  Forall plain_segment (x :: segs) ->
  Js.split "/" ("/" +:+ Js.join "/" (x :: segs)) = EmptyString :: x :: segs.
Proof.
  intros Hall.
  change ("/" +:+ Js.join "/" (x :: segs))
    with (EmptyString +:+ "/" +:+ Js.join "/" (x :: segs)).
  rewrite (split_cons EmptyString (Js.join "/" (x :: segs)) eq_refl).
  now rewrite split_join by (discriminate || exact Hall).
Qed.

Lemma split_go_pieces (s : string) :
  forall cur,
    has_slash cur = false ->
    Forall (fun p => has_slash p = false) (Js.split_go "/" cur s).
Proof.
  induction s as [|c s IH]; intros cur Hcur; cbn [Js.split_go].
  - constructor; [|constructor]. unfold String.rev.
    now rewrite has_slash_rev_app, Hcur.
  - destruct (Ascii.eqb c "/") eqn:Hc.
    + constructor.
      * unfold String.rev. now rewrite has_slash_rev_app, Hcur.
      * now apply IH.
    + apply IH. cbn [has_slash]. now rewrite Hc, Hcur.
Qed.

Lemma split_go_trailing (s : string) :
  forall cur,
    Js.split_go "/" cur (s +:+ "/") = Js.split_go "/" cur s ++ [EmptyString].
Proof.
  induction s as [|c s IH]; intros cur; [reflexivity|].
  change (String c s +:+ "/") with (String c (s +:+ "/")).
  cbn [Js.split_go]. destruct (Ascii.eqb c "/"); rewrite IH; reflexivity.
Qed.

(** X15. The segments of a path built from plain segments are those
    segments, in order: splitting at the slashes undoes joining with
    slashes, and the empty piece before the leading slash is
    dropped. *)
Theorem segments_of_joined_path (site query : string) (segs : list string) :
  Forall plain_segment segs ->
  segments (url_of_segments site segs query) = segs.
Proof.
  intros Hall. unfold segments, url_of_segments. cbn [pathname].
  destruct segs as [|x segs]; [reflexivity|].
  rewrite (split_joined_path x segs Hall).
  transitivity (List.filter (fun s => negb (String.eqb s EmptyString)) (x :: segs));
    [reflexivity | now apply filter_plain].
Qed.

(** X16. Whatever the path, each of its segments is a plain one, not
    empty and without a slash, so that what [renderFiles] puts in the
    upstream URL for the user, the repository and the revision has no
    slash of its own; and a slash at the end of the path adds no
    segment: [/u/r/main/] has the segments of [/u/r/main]. *)
Theorem segments_are_plain_and_ignore_a_trailing_slash (u : URL) :
  Forall plain_segment (segments u)
  /\ segments (mkURL (origin u) (pathname u +:+ "/") (search u)) = segments u.
Proof.
  split.
  - unfold segments. apply Forall_forall. intros s Hs.
    apply list_elem_of_In, filter_In in Hs as [Hin Hne].
    split.
    + apply negb_true_iff, String.eqb_neq in Hne. exact Hne.
    + pose proof (split_go_pieces (pathname u) EmptyString eq_refl) as Hall.
      rewrite Forall_forall in Hall. apply Hall. now apply list_elem_of_In.
  - unfold segments, Js.split. cbn [pathname].
    rewrite split_go_trailing, List.filter_app. cbn [List.filter].
    change (negb (String.eqb EmptyString EmptyString)) with false. cbv iota.
    apply app_nil_r.
Qed.

(** Two slash-free texts, each followed by a slash, of which one starts
    the other, are the same text. *)
Lemma prefix_up_to_slash (p : string) :
  forall user rest,
    has_slash p = false ->
    has_slash user = false ->
    String.prefix (p +:+ "/") (user +:+ "/" +:+ rest) = true ->
    user = p.
Proof.
  induction p as [|a p IH]; intros [|c user] rest Hp Hu H.
  - reflexivity.
  - change (String.prefix "/" (String c (user +:+ "/" +:+ rest)) = true) in H.
    cbn [String.prefix] in H. cbn [has_slash] in Hu.
    destruct (ascii_dec "/" c) as [<-|]; [discriminate Hu | discriminate H].
  - change (String.prefix (String a (p +:+ "/")) (String "/" rest) = true) in H.
    cbn [String.prefix] in H. cbn [has_slash] in Hp.
    destruct (ascii_dec a "/") as [->|]; [discriminate Hp | discriminate H].
  - change (String.prefix (String a (p +:+ "/"))
                          (String c (user +:+ "/" +:+ rest)) = true) in H.
    cbn [String.prefix] in H. cbn [has_slash] in Hp, Hu.
    apply orb_false_iff in Hp as [_ Hp]. apply orb_false_iff in Hu as [_ Hu].
    destruct (ascii_dec a c) as [<-|]; [|discriminate H].
    f_equal. now apply (IH user rest).
Qed.

(** X17. A path of three plain segments whose first is not [_demo] is
    routed to the file listing, which asks upstream for the recursive
    tree of the third segment in the repository the first two name;
    the same holds with a slash at the end of the path. *)
Theorem three_segments_are_a_listing
    (site query user repo rev : string) (headers : Headers) :
  plain_segment user -> plain_segment repo -> plain_segment rev ->
  user <> "_demo" ->
  let u := url_of_segments site [user; repo; rev] query in
  let u' := mkURL site (pathname u +:+ "/") query in
  route u = ToFiles
  /\ route u' = ToFiles
  /\ tree_url (mkRequest u headers)
     = "https://api.github.com/repos/" +:+ user +:+ "/" +:+ repo
       +:+ "/git/trees/" +:+ rev +:+ "?recursive=1"
  /\ tree_url (mkRequest u' headers) = tree_url (mkRequest u headers).
Proof.
  intros Huser Hrepo Hrev Hdemo u u'.
  assert (Hall : Forall plain_segment [user; repo; rev]).
  { constructor; [exact Huser|]. constructor; [exact Hrepo|].
    constructor; [exact Hrev|]. constructor. }
  assert (Hsplit : Js.split "/" (pathname u) = [EmptyString; user; repo; rev])
    by (exact (split_joined_path user [repo; rev] Hall)).
  assert (Hkeep : List.filter (fun s => negb (String.eqb s EmptyString))
                              [user; repo; rev] = [user; repo; rev])
    by (now apply filter_plain).
  assert (Hsegs : segments u = [user; repo; rev]).
  { unfold segments. rewrite Hsplit. exact Hkeep. }
  assert (Hsegs' : segments u' = [user; repo; rev]).
  { unfold segments, u', Js.split. cbn [pathname].
    rewrite split_go_trailing. fold (Js.split "/" (pathname u)).
    rewrite Hsplit, List.filter_app, app_nil_r. exact Hkeep. }
  assert (Hpath : pathname u = "/" +:+ user +:+ "/" +:+ repo +:+ "/" +:+ rev) by reflexivity.
  assert (Hnotdemo : forall rest,
             String.prefix "/_demo/" ("/" +:+ user +:+ "/" +:+ rest) = false).
  { intros rest. destruct (String.prefix "/_demo/" ("/" +:+ user +:+ "/" +:+ rest)) eqn:E;
      [|reflexivity].
    exfalso. apply Hdemo.
    apply (prefix_up_to_slash "_demo" user rest eq_refl (proj2 Huser)).
    change (String.prefix (String "/" "_demo/") (String "/" (user +:+ "/" +:+ rest)) = true)
      in E.
    cbn [String.prefix] in E. destruct (ascii_dec "/" "/"); [exact E|congruence]. }
  assert (Hnotroot : forall rest, String.eqb ("/" +:+ user +:+ rest) "/" = false).
  { intros rest. destruct user as [|c user]; [now destruct Huser|reflexivity]. }
  split; [|split; [|split]].
  - unfold route. rewrite Hsegs, Hpath, Hnotroot. unfold Js.startsWith.
    now rewrite Hnotdemo.
  - unfold route. rewrite Hsegs'. unfold u'. cbn [pathname]. rewrite Hpath.
    rewrite !append_assoc, Hnotroot. unfold Js.startsWith. now rewrite Hnotdemo.
  - unfold tree_url, segment. cbn [url]. now rewrite Hsegs.
  - unfold tree_url, segment. cbn [url]. now rewrite Hsegs, Hsegs'.
Qed.

End PathFacts.

(* ================================================================== *)
(** * The emoji replacement *)
(* ================================================================== *)

Section EmojiFacts.

Context (lib : Libraries).

Lemma substring_add (s : string) :
  forall n a b,
    substring n (a + b) s = substring n a s +:+ substring (n + a) b s.
Proof.
  induction s as [|c s IH]; intros n a b.
  - destruct n, a, b; reflexivity.
  - destruct n as [|n].
    + destruct a as [|a]; [reflexivity|].
      cbn [Nat.add substring].
      change (String c (substring 0 a s) +:+ substring a b s)
        with (String c (substring 0 a s +:+ substring a b s)).
      f_equal. exact (IH 0%nat a b).
    + cbn [Nat.add substring]. exact (IH n a b).
Qed.

Lemma substring_all (s : string) : substring 0 (String.length s) s = s.
Proof. induction s as [|c s IH]; [reflexivity|]. cbn [String.length substring]. now rewrite IH. Qed.

Lemma first_colon_none (l : string) :
  has_colon l = false -> first_colon l = None.
Proof.
  induction l as [|c l IH]; [reflexivity|]. cbn [has_colon first_colon].
  intros H. apply orb_false_iff in H as [Hc Hl]. rewrite Hc, (IH Hl). reflexivity.
Qed.

Lemma last_colon_none (l : string) :
  has_colon l = false -> last_colon l = None.
Proof.
  induction l as [|c l IH]; [reflexivity|]. cbn [has_colon last_colon].
  intros H. apply orb_false_iff in H as [Hc Hl]. rewrite (IH Hl), Hc. reflexivity.
Qed.

Lemma last_colon_bound (l : string) :
  forall j, last_colon l = Some j -> (j < String.length l)%nat.
Proof.
  induction l as [|c l IH]; intros j; [discriminate|].
  cbn [last_colon String.length].
  destruct (last_colon l) as [j'|].
  - intros [= <-]. specialize (IH j' eq_refl). lia.
  - destruct (Ascii.eqb c ":"); [|discriminate]. intros [= <-]. lia.
Qed.

Lemma substring_three (l : string) (i j : nat) :
  (i < j)%nat -> (j < String.length l)%nat ->
  substring 0 i l +:+ substring i (j - i + 1) l
  +:+ substring (j + 1) (String.length l - (j + 1)) l
  = l.
Proof.
  intros Hij Hj.
  replace (j + 1)%nat with (i + (j - i + 1))%nat by lia.
  rewrite <- substring_add.
  change (substring i) with (substring (0 + i)).
  rewrite <- substring_add.
  replace (i + (j - i + 1 + (String.length l - (i + (j - i + 1)))))%nat
    with (String.length l) by lia.
  apply substring_all.
Qed.

(** A line on which [emojify] changes nothing comes out as it went
    in. *)
Lemma replace_emoji_line_same (l : string) :
  (forall t, emojify lib t = t) -> replace_emoji_line lib l = l.
Proof.
  intros Hid. unfold replace_emoji_line.
  destruct (first_colon l) as [i|]; [|reflexivity].
  destruct (last_colon l) as [j|] eqn:Hj; [|reflexivity].
  destruct (i <? j)%nat eqn:Hij; [|reflexivity].
  apply Nat.ltb_lt in Hij. apply last_colon_bound in Hj.
  rewrite Hid. now apply substring_three.
Qed.

Lemma replace_emoji_line_no_colon (l : string) :
  has_colon l = false -> replace_emoji_line lib l = l.
Proof.
  intros H. unfold replace_emoji_line. now rewrite (first_colon_none l H).
Qed.

Lemma rev_app_append (a b s : string) :
  String.rev_app a b +:+ s = String.rev_app a (b +:+ s).
Proof.
  revert b. induction a as [|x a IH]; intros b; [reflexivity|].
  cbn [String.rev_app]. now rewrite IH.
Qed.

Lemma rev_cons_append (c : ascii) (cur s : string) :
  String.rev (String c cur) +:+ s = String.rev cur +:+ String c s.
Proof.
  unfold String.rev. cbn [String.rev_app]. now rewrite !rev_app_append.
Qed.

Lemma has_colon_rev_app (a b : string) :
  has_colon (String.rev_app a b) = has_colon a || has_colon b.
Proof.
  revert b. induction a as [|x a IH]; intros b; [reflexivity|].
  cbn [String.rev_app has_colon]. rewrite IH. cbn [has_colon].
  destruct (Ascii.eqb x ":"), (has_colon a), (has_colon b); reflexivity.
Qed.

(** The walk over the body puts the lines back together: when every
    line it meets comes out of the line replacement unchanged, so does
    the body. *)
Lemma wide_line_end_spec (c : ascii) (cur line : string) :
  wide_line_end c cur = Some line ->
  cur = String "128" (String "226" line)
  /\ (c = "168"%char \/ c = "169"%char).
Proof.
  unfold wide_line_end. destruct cur as [|c2 [|c1 l]]; try discriminate.
  destruct (Ascii.eqb c1 "226") eqn:H1; [|discriminate].
  destruct (Ascii.eqb c2 "128") eqn:H2; [|discriminate].
  destruct (Ascii.eqb c "168") eqn:H3; [|destruct (Ascii.eqb c "169") eqn:H4];
    cbn [andb orb]; intros H; try discriminate H; injection H as <-;
    apply Ascii.eqb_eq in H1, H2; subst c1 c2.
  - apply Ascii.eqb_eq in H3. auto.
  - apply Ascii.eqb_eq in H4. auto.
Qed.

Lemma replace_emoji_go_same (s : string) :
  forall cur,
    (forall t, emojify lib t = t)
    \/ (has_colon cur = false /\ has_colon s = false) ->
    replace_emoji_go lib cur s = String.rev cur +:+ s.
Proof.
  assert (Hline : forall cur,
             (forall t, emojify lib t = t) \/ has_colon cur = false ->
             replace_emoji_line lib (String.rev cur) = String.rev cur).
  { intros cur [Hid|Hcur].
    - now apply replace_emoji_line_same.
    - apply replace_emoji_line_no_colon. unfold String.rev.
      now rewrite has_colon_rev_app, Hcur. }
  induction s as [|c s IH]; intros cur H; cbn [replace_emoji_go].
  - rewrite append_empty_r. apply Hline. tauto.
  - assert (Hrest : (forall t, emojify lib t = t)
                    \/ (has_colon EmptyString = false /\ has_colon s = false)).
    { destruct H as [Hid|[_ Hs]]; [now left|right].
      cbn [has_colon] in Hs. apply orb_false_iff in Hs as [_ Hs]. now split. }
    destruct (is_line_end c).
    + rewrite (IH EmptyString Hrest). f_equal. apply Hline. tauto.
    + destruct (wide_line_end c cur) as [line|] eqn:Hwide.
      * apply wide_line_end_spec in Hwide as [-> _].
        rewrite (IH EmptyString Hrest), !rev_cons_append. f_equal.
        apply Hline. destruct H as [Hid|[Hcur _]]; [now left|right].
        cbn [has_colon] in Hcur. now apply orb_false_iff in Hcur as [_ Hcur].
      * rewrite IH.
        -- apply rev_cons_append.
        -- destruct H as [Hid|[Hcur Hs]]; [now left|right].
           cbn [has_colon] in *. apply orb_false_iff in Hs as [Hc Hs].
           now rewrite Hc, Hcur, Hs.
Qed.

(** X18. The emoji step changes a body only through [emojify]: a body
    without a colon goes to [marked] as it is, whatever [emojify] does;
    and so does any body when [emojify] gives back the texts it is
    given, as it does for the shortcodes it does not know. *)
Theorem emoji_step_leaves_the_body_alone (body : string) :
  (has_colon body = false -> replace_emoji lib body = body)
  /\ ((forall t, emojify lib t = t) -> replace_emoji lib body = body).
Proof.
  split; intros H; unfold replace_emoji.
  - now rewrite replace_emoji_go_same by (right; split; [reflexivity|exact H]).
  - now rewrite replace_emoji_go_same by (left; exact H).
Qed.

Lemma substring_skip (a r : string) (k : nat) :
  substring (String.length a) k (a +:+ r) = substring 0 k r.
Proof. induction a as [|x a IH]; [reflexivity|exact IH]. Qed.

Lemma substring_head (a r : string) :
  substring 0 (String.length a) (a +:+ r) = a.
Proof.
  induction a as [|x a IH]; [now destruct r|].
  change (String x a +:+ r) with (String x (a +:+ r)).
  cbn [String.length substring]. now rewrite IH.
Qed.

Lemma first_colon_after (a r : string) :
  has_colon a = false ->
  first_colon (a +:+ String ":" r) = Some (String.length a).
Proof.
  induction a as [|x a IH]; [reflexivity|]. cbn [has_colon].
  intros H. apply orb_false_iff in H as [Hx Ha].
  change (String x a +:+ String ":" r) with (String x (a +:+ String ":" r)).
  cbn [first_colon String.length]. now rewrite Hx, (IH Ha).
Qed.

Lemma last_colon_before (x b : string) :
  has_colon b = false ->
  last_colon (x +:+ String ":" b) = Some (String.length x).
Proof.
  intros Hb. induction x as [|c x IH].
  - change (EmptyString +:+ String ":" b) with (String ":" b).
    cbn [last_colon]. now rewrite (last_colon_none b Hb).
  - change (String c x +:+ String ":" b) with (String c (x +:+ String ":" b)).
    cbn [last_colon String.length]. now rewrite IH.
Qed.

(** The line replacement hands [emojify] the text from the first colon
    of the line to the last one, in one piece. *)
Lemma replace_emoji_line_span (a m b : string) :
  has_colon a = false ->
  has_colon b = false ->
  replace_emoji_line lib (a +:+ ":" +:+ m +:+ ":" +:+ b)
  = a +:+ emojify lib (":" +:+ m +:+ ":") +:+ b.
Proof.
  intros Ha Hb.
  set (X := ":" +:+ m +:+ ":").
  set (L := a +:+ ":" +:+ m +:+ ":" +:+ b).
  assert (HL1 : L = a +:+ X +:+ b).
  { unfold L, X. now rewrite !append_assoc. }
  assert (HL2 : L = (a +:+ ":" +:+ m) +:+ String ":" b).
  { unfold L. now rewrite !append_assoc. }
  assert (HL3 : L = (a +:+ X) +:+ b).
  { rewrite HL1. now rewrite append_assoc. }
  assert (Hfirst : first_colon L = Some (String.length a)).
  { unfold L. now apply (first_colon_after a (m +:+ ":" +:+ b)). }
  assert (Hlast : last_colon L = Some (String.length a + String.length X - 1)%nat).
  { rewrite HL2, (last_colon_before _ b Hb). f_equal. unfold X.
    rewrite !length_append. cbn [String.length]. lia. }
  assert (HX : (2 <= String.length X)%nat).
  { unfold X. rewrite !length_append. cbn [String.length]. lia. }
  unfold replace_emoji_line. rewrite Hfirst, Hlast.
  replace (String.length a <? String.length a + String.length X - 1)%nat with true
    by (symmetry; apply Nat.ltb_lt; lia).
  replace (String.length a + String.length X - 1 - String.length a + 1)%nat
    with (String.length X) by lia.
  replace (String.length a + String.length X - 1 + 1)%nat
    with (String.length (a +:+ X)) by (rewrite length_append; lia).
  assert (F1 : substring 0 (String.length a) L = a).
  { rewrite HL1. apply substring_head. }
  assert (F2 : substring (String.length a) (String.length X) L = X).
  { rewrite HL1, substring_skip. apply substring_head. }
  assert (F3 : substring (String.length (a +:+ X))
                         (String.length L - String.length (a +:+ X)) L = b).
  { rewrite HL3 at 2. rewrite substring_skip.
    replace (String.length L - String.length (a +:+ X))%nat with (String.length b)
      by (rewrite HL3, (length_append (a +:+ X) b); lia).
    apply substring_all. }
  now rewrite F1, F2, F3.
Qed.

Lemma has_line_end_cons (x : string) (c : ascii) (y : string) :
  has_line_end (x +:+ String c y) = false -> is_line_end c = false.
Proof.
  induction x as [|a x IH].
  - change (EmptyString +:+ String c y) with (String c y).
    cbn [has_line_end]. intros H.
    do 3 (apply orb_false_iff in H as [H _]). exact H.
  - change (String a x +:+ String c y) with (String a (x +:+ String c y)).
    cbn [has_line_end]. intros H. apply orb_false_iff in H as [_ H].
    now apply IH.
Qed.

Lemma has_line_end_separator (x : string) (c : ascii) (y : string) :
  c = "168"%char \/ c = "169"%char ->
  has_line_end (x +:+ String "226" (String "128" (String c y))) = true.
Proof.
  intros Hc. induction x as [|a x IH].
  - change (EmptyString +:+ ?r) with r.
    destruct Hc as [-> | ->]; destruct y; reflexivity.
  - change (String a x +:+ ?r) with (String a (x +:+ r)).
    cbn [has_line_end]. rewrite IH. apply orb_true_r.
Qed.

Lemma replace_emoji_go_one_line (s : string) :
  forall cur,
    has_line_end (String.rev cur +:+ s) = false ->
    replace_emoji_go lib cur s = replace_emoji_line lib (String.rev cur +:+ s).
Proof.
  induction s as [|c s IH]; intros cur Hs; cbn [replace_emoji_go].
  - now rewrite append_empty_r.
  - rewrite (has_line_end_cons _ c s Hs).
    destruct (wide_line_end c cur) as [line|] eqn:Hwide.
    + apply wide_line_end_spec in Hwide as [-> Hc].
      rewrite !rev_cons_append in Hs.
      now rewrite (has_line_end_separator _ c s Hc) in Hs.
    + rewrite <- rev_cons_append in Hs. rewrite (IH _ Hs).
      now rewrite rev_cons_append.
Qed.

(** X19. On a line, the emoji step hands [emojify] the whole stretch
    from the first colon to the last one in one piece, and keeps what
    is before and after it: two shortcodes on a line reach [emojify]
    together with the text between them. *)
Theorem emoji_step_replaces_the_span_between_the_colons (a m b : string) :
  has_colon a = false ->
  has_colon b = false ->
  has_line_end (a +:+ ":" +:+ m +:+ ":" +:+ b) = false ->
  replace_emoji lib (a +:+ ":" +:+ m +:+ ":" +:+ b)
  = a +:+ emojify lib (":" +:+ m +:+ ":") +:+ b.
Proof.
  intros Ha Hb Hline. unfold replace_emoji.
  rewrite (replace_emoji_go_one_line _ EmptyString Hline).
  now apply replace_emoji_line_span.
Qed.

End EmojiFacts.

(* ================================================================== *)
(** * The further theorems at work on the scenario *)
(* ================================================================== *)

Section MoreInstances.

Import Cases.
Local Abbreviation doc_request := Scenario.doc_request.
Local Abbreviation empty_world := Scenario.empty_world.
Local Abbreviation warm_world := Scenario.warm_world.
Local Abbreviation old_data := Scenario.old_data.
Local Abbreviation old_doc_entry := Scenario.old_doc_entry.
Local Abbreviation files_request := Scenario.files_request.
Local Abbreviation kv_entry := Scenario.kv_entry.
Local Abbreviation site := Scenario.site.
Local Abbreviation up := Scenario.up.
Local Abbreviation lib := Scenario.lib.

(** The bypass on the scenario: a fresh entry is in the cache, and the
    document request carries [Pragma: no-cache]. *)
Lemma bypass_witness :
  fetched (snd (handleFetch lib Scenario.doc_request_pragma (up 5000) warm_world))
  = ["https://raw.githubusercontent.com/u/r/main/README.md"]
  /\ fst (handleFetch lib Scenario.doc_request_pragma (up 5000) warm_world)
     = Ok (data_response (VData Scenario.fresh_data))
  /\ stored_entry
       (settle lib (up 5001)
               (snd (handleFetch lib Scenario.doc_request_pragma (up 5000) warm_world)))
       (markdown_key Scenario.doc_request_pragma)
     = Some (mkCacheEntry (VData Scenario.fresh_data) (Js.Num 305001) (Some 172805001)).
Proof.
  refine (proj1 (bypass_goes_upstream_and_writes_back
                   lib Scenario.doc_request_pragma (up 5000) (up 5001) warm_world
                   doc_response _ _ _) _ _).
  - reflexivity.
  - right. exists "no-cache". split; vm_compute; reflexivity.
  - reflexivity.
  - reflexivity.
  - vm_compute; reflexivity.
Defined.


(** X3 on the scenario: upstream is out of reach. *)
Lemma upstream_rejection_witness :
  handleFetch lib doc_request (off 5000) empty_world
  = (Ok internal_error_response,
     with_fetch (raw_content_url (url doc_request)) empty_world).
Proof.
  refine (proj1 (upstream_rejection_is_internal_error
                   lib doc_request (off 5000) empty_world _) _ _ _).
  - right. vm_compute; reflexivity.
  - reflexivity.
  - right. vm_compute; reflexivity.
  - reflexivity.
Defined.

(** X4 on the scenario: written at time 1000, read at time 5000. *)
Lemma read_after_write_witness :
  readFromCache "json-swr/u/r/main/README.md" (up 5000)
    (snd (writeToCache "json-swr/u/r/main/README.md" (VData old_data) (up 1000)
                       empty_world))
  = (Ok (Some (VData old_data, Js.Num 301000)),
     snd (writeToCache "json-swr/u/r/main/README.md" (VData old_data) (up 1000)
                       empty_world)).
Proof.
  refine (proj1 (read_after_write "json-swr/u/r/main/README.md" (VData old_data)
                                  (up 1000) (up 5000) empty_world) _).
  vm_compute; reflexivity.
Defined.

(** X5 on the scenario: the first read at 5000, its write at 5001, the
    second read at 6000. *)
Lemma miss_then_hit_witness :
  let after := settle lib (up 5001)
                      (snd (renderMarkdown lib doc_request (up 5000) empty_world)) in
  fst (renderMarkdown lib doc_request (up 5000) empty_world)
  = Ok (data_response (VData (parseMarkdown lib (text doc_response))))
  /\ renderMarkdown lib doc_request (up 6000) after
     = (Ok (data_response (VData (parseMarkdown lib (text doc_response)))), after)
  /\ fetched after = fetched empty_world ++ [raw_content_url (url doc_request)].
Proof.
  refine (proj1 (miss_then_hit lib doc_request (up 5000) (up 5001) (up 6000)
                               empty_world doc_response _ _ _ _) _ _);
    vm_compute; (reflexivity || discriminate).
Defined.

(** X6 on the scenario: the stale read at 301001, the regeneration at
    301002, the next read at 302000. *)
Lemma successful_regeneration_witness :
  let fresh := VData (parseMarkdown lib (text doc_response)) in
  let after := settle lib (up 301002)
                      (snd (renderMarkdown lib doc_request (up 301001) warm_world)) in
  fst (renderMarkdown lib doc_request (up 301001) warm_world)
  = Ok (data_response (payload old_doc_entry))
  /\ stored_entry after (markdown_key doc_request)
     = Some (fresh_entry_at (up 301002) fresh)
  /\ renderMarkdown lib doc_request (up 302000) after
     = (Ok (data_response fresh), after).
Proof.
  refine (proj1 (successful_regeneration_replaces_entry
                   lib doc_request (up 301001) (up 301002) (up 302000) warm_world
                   old_doc_entry 301000 doc_response _ _ _ _ _ _ _) _ _);
    vm_compute; (reflexivity || discriminate).
Defined.

(** X7 on the scenario: the first request at 5000, its tasks at 5001,
    the second request at 6000. *)
Lemma both_caches_witness :
  let fresh := VData (parseMarkdown lib (text doc_response)) in
  let after := settle lib (up 5001)
                      (snd (handleFetch lib doc_request (up 5000) empty_world)) in
  fst (handleFetch lib doc_request (up 5000) empty_world) = Ok (data_response fresh)
  /\ stored_entry after (markdown_key doc_request)
     = Some (fresh_entry_at (up 5001) fresh)
  /\ cache after !! href (url doc_request)
     = Some (Host.mkStored (data_response fresh) (Some (now (up 5001) + 300000)))
  /\ (shouldSkipCache doc_request = false ->
      now (up 6000) < now (up 5001) + 300000 ->
      handleFetch lib doc_request (up 6000) after = (Ok (data_response fresh), after)).
Proof.
  refine (first_request_fills_both_caches
            lib doc_request (up 5000) (up 5001) (up 6000) empty_world doc_response
            _ _ _ _ _ _ _).
  - reflexivity.
  - reflexivity.
  - reflexivity.
  - right. vm_compute; reflexivity.
  - right. vm_compute; reflexivity.
  - reflexivity.
  - reflexivity.
Defined.

(** X8 on the scenario: the stale read of the document, regenerated,
    leaves the listing entry as it was. *)
Lemma own_entry_witness :
  stored_entry (settle lib (up 301002)
                       (snd (renderMarkdown lib doc_request (up 301001) warm_world)))
               (files_key files_request)
  = stored_entry warm_world (files_key files_request).
Proof.
  exact (proj1 (proj2 (proj2 (proj2
           (read_changes_only_its_own_entry
              lib doc_request files_request (up 301001) (up 301002) warm_world
              EmptyString eq_refl))))).
Defined.

(** X9 on the scenario: the stamp reads [soon]. *)
Lemma unreadable_stamp_witness :
  renderMarkdown lib doc_request (up 999999999) garbled_world
  = (Ok (data_response (VData old_data)), garbled_world).
Proof.
  refine (proj1 (unreadable_stamp_is_never_stale
                   lib doc_request (up 999999999) garbled_world
                   garbled_stored (VData old_data) "soon" _ _ _ _ _) _);
    reflexivity.
Defined.

(** X10 on the scenario: the entry written at 1000 expires at
    172801000. *)
Lemma expired_entry_witness :
  readFromCache (markdown_key doc_request) (up 172801000) warm_world
  = (Ok None, warm_world)
  /\ fetched (snd (renderMarkdown lib doc_request (up 172801000) warm_world))
     = fetched warm_world ++ [raw_content_url (url doc_request)]
  /\ fst (renderMarkdown lib doc_request (up 172801000) warm_world)
     = Ok (if ok doc_response
           then data_response (VData (parseMarkdown lib (text doc_response)))
           else not_found_response).
Proof.
  refine (expired_entry_is_a_miss
            lib doc_request (up 172801000) warm_world
            (kv_entry 1000 (VData old_data)) 172801000 doc_response _ _ _ _);
    vm_compute; (reflexivity || discriminate).
Defined.

(** X13 on the scenario: the demo page of the document reads the key
    of the document. *)
Lemma demo_page_witness :
  markdown_key (inner_request (demo_file demo_request) demo_request)
  = "json-swr/u/r/main/README.md".
Proof.
  exact (proj1 (demo_page_wraps_the_document_read
                  lib demo_request "/u/r/main/README.md" (up 5000)
                  empty_world empty_world eq_refl eq_refl)).
Defined.

(** A path that starts with two slashes is read as a host and a path:
    the demo page of [//docs.example/x.md] reads the entry of [/x.md],
    and the document request for that path goes to the host it names,
    not to [raw.githubusercontent.com]. *)
Example two_slashes_name_a_host :
  markdown_key
    (inner_request "//docs.example/x.md"
                   (mkRequest (mkURL site "/_demo//docs.example/x.md" EmptyString) []))
  = "json-swr/x.md"
  /\ raw_content_url (mkURL site "//docs.example/x.md" EmptyString)
     = "https://docs.example/x.md"
  /\ raw_content_url (mkURL site "/u/r/main/x.md" EmptyString)
     = "https://raw.githubusercontent.com/u/r/main/x.md".
Proof. repeat split; vm_compute; reflexivity. Qed.

(** X14 on the scenario: a tree with sources and a directory named
    [notes.md]. *)
Lemma empty_listing_witness :
  renderFiles files_request (bare 5000) empty_world
  = (Ok (mkResponse 200 success_headers
           (Json (VFiles (mkCachedFiles "bare-sha" [])))),
     with_task (WriteToCache (files_key files_request)
                             (VFiles (mkCachedFiles "bare-sha" [])))
               (with_fetch (tree_url files_request) empty_world)).
Proof.
  refine (empty_listing_is_a_success
            files_request (bare 5000) empty_world bare_response bare_content
            _ _ _ _ _).
  - right. vm_compute; reflexivity.
  - reflexivity.
  - reflexivity.
  - reflexivity.
  - vm_compute; reflexivity.
Defined.

Lemma plain_u_r_main : Forall plain_segment ["u"; "r"; "main"].
Proof.
  repeat (constructor; [split; [discriminate | reflexivity]|]). constructor.
Defined.

(** X15 on the scenario: [/u/r/main]. *)
Lemma segments_witness :
  segments (url_of_segments site ["u"; "r"; "main"] "?x=1") = ["u"; "r"; "main"].
Proof.
  exact (segments_of_joined_path site "?x=1" ["u"; "r"; "main"] plain_u_r_main).
Defined.

(** X17 on the scenario: [/u/r/main] and [/u/r/main/]. *)
Lemma listing_route_witness :
  let u := url_of_segments site ["u"; "r"; "main"] EmptyString in
  let u' := mkURL site (pathname u +:+ "/") EmptyString in
  route u = ToFiles
  /\ route u' = ToFiles
  /\ tree_url (mkRequest u [])
     = "https://api.github.com/repos/" +:+ "u" +:+ "/" +:+ "r"
       +:+ "/git/trees/" +:+ "main" +:+ "?recursive=1"
  /\ tree_url (mkRequest u' []) = tree_url (mkRequest u []).
Proof.
  refine (three_segments_are_a_listing site EmptyString "u" "r" "main" [] _ _ _ _);
    try (split; [discriminate | reflexivity]); discriminate.
Defined.

(** X18 on the scenario: a body without a colon, under an [emojify]
    that knows a shortcode. *)
Lemma emoji_alone_witness :
  replace_emoji emoji_lib "Hello world" = "Hello world".
Proof.
  exact (proj1 (emoji_step_leaves_the_body_alone emoji_lib "Hello world") eq_refl).
Defined.

(** A line separator ends the line as a line feed does: a colon before
    it and a colon after it are not one span, and the shortcode on the
    second line is replaced on its own. *)
Example separator_ends_the_line :
  replace_emoji emoji_lib ("a :x" +:+ line_separator +:+ "y: b")
  = "a :x" +:+ line_separator +:+ "y: b"
  /\ replace_emoji emoji_lib ("a :x" +:+ paragraph_separator +:+ ":+1: b")
     = "a :x" +:+ paragraph_separator +:+ "(thumbs up) b"
  /\ replace_emoji emoji_lib ("a :x" +:+ String "010" ":+1: b")
     = "a :x" +:+ String "010" "(thumbs up) b".
Proof. repeat split; vm_compute; reflexivity. Qed.

(** X19 on the scenario: the shortcode of the specification. *)
Lemma emoji_span_witness :
  replace_emoji emoji_lib ("Hello " +:+ ":" +:+ "+1" +:+ ":" +:+ " world")
  = "Hello " +:+ emojify emoji_lib (":" +:+ "+1" +:+ ":") +:+ " world".
Proof.
  exact (emoji_step_replaces_the_span_between_the_colons
           emoji_lib "Hello " "+1" " world" eq_refl eq_refl eq_refl).
Defined.

End MoreInstances.
